(** * D0T: decision engine and coordination gateway

    A shallow embedding of the click-decision loops (ghost.js,
    smart-auto.js), of the agent's action executor (agent.js) and of the
    gateway's session store and task queue (gateway.js), with the
    properties of the specification stated and settled against them.

    Conventions.  JavaScript numbers that the code only counts, compares,
    adds and subtracts are integers [Z]; timestamps are [Date.now()]
    milliseconds.  Strings are byte strings; the only case folding the code
    applies to them ([toLowerCase], the [i] flag of a regular expression)
    is the ASCII one on such bytes.  A JavaScript object used as a
    dictionary is a [gmap string _].  Module-level mutable [state] objects
    are threaded explicitly: every function takes the state and returns the
    new one.  Reads of the wall clock and the outcome of external calls
    (OCR, mouse injection) are arguments of the function that performs
    them. *)

From Stdlib Require Import ZArith Ascii String List Sorted Lia.
From stdpp Require Import base option list strings gmap pretty.

Open Scope string_scope.
Open Scope Z_scope.

(** ** JavaScript helpers shared by the three programs *)

Module JS.

(** ASCII [toLowerCase] on one byte. *)
Definition lowerAscii (c : ascii) : ascii :=
  let n := N_of_ascii c in
  if ((65 <=? n) && (n <=? 90))%N then ascii_of_N (n + 32) else c.

(** [String.prototype.toLowerCase] on ASCII text. *)
Fixpoint toLowerCase (s : string) : string :=
  match s with
  | EmptyString => EmptyString
  | String c s' => String (lowerAscii c) (toLowerCase s')
  end.

(** [s.startsWith(p)]. *)
Fixpoint startsWith (p s : string) : bool :=
  match p, s with
  | EmptyString, _ => true
  | String a p', String b s' => Ascii.eqb a b && startsWith p' s'
  | String _ _, EmptyString => false
  end.

(** [s.includes(p)]: [p] occurs in [s] as a contiguous substring. *)
Fixpoint includes (p s : string) : bool :=
  startsWith p s ||
  match s with
  | EmptyString => false
  | String _ s' => includes p s'
  end.

(** [Math.round(n / d)] for an integer [n] and a positive even [d]:
    rounding to the nearest integer, halves towards plus infinity. *)
Definition roundDiv (n d : Z) : Z := (n + d / 2) / d.

(** [arr.indexOf(s)], -1 when absent. *)
Fixpoint indexOfFrom (i : Z) (s : string) (l : list string) : Z :=
  match l with
  | [] => -1
  | t :: l' => if String.eqb s t then i else indexOfFrom (i + 1) s l'
  end.

Definition indexOf (s : string) (l : list string) : Z := indexOfFrom 0 s l.

(** [Array.prototype.sort(cmp)] is a stable sort: elements that compare
    equal keep their relative order.  Inserting from the right end, each
    element goes in front of the first element it does not compare
    greater than. *)
Section Sort.
Context {A : Type} (cmp : A -> A -> Z).

Fixpoint insertSorted (a : A) (l : list A) : list A :=
  match l with
  | [] => [a]
  | b :: l' => if cmp a b <=? 0 then a :: b :: l' else b :: insertSorted a l'
  end.

Definition sort (l : list A) : list A := foldr insertSorted [] l.

End Sort.

End JS.

(** ** ghost.js: the confirming, rate-limited click loop *)

Module Ghost.

(** One OCR word: text, centre of its bounding box, confidence in percent. *)
Record Word := mkWord {
  word_text : string;
  word_x : Z;
  word_y : Z;
  word_confidence : Z
}.

(** [ocr] returns [{ text, words }]; [decide] reads [words] only. *)
Record OcrResult := mkOcr { ocr_text : string; ocr_words : list Word }.

(** An entry of [found]: the watch pattern, the word as read, its place. *)
Record Button := mkButton {
  btn_text : string;
  btn_match : string;
  btn_x : Z;
  btn_y : Z;
  btn_confidence : Z
}.

Record Config := mkConfig {
  pollInterval : Z;
  watchPatterns : list string;
  confirmScans : Z;
  maxActionsPerMinute : Z;
  noActionTimeout : Z
}.

Definition CONFIG : Config := {|
  pollInterval := 5000;
  watchPatterns := ["Continue"; "Keep"; "Allow"; "Proceed"; "Yes"; "Run"; "OK"];
  confirmScans := 2;
  maxActionsPerMinute := 10;
  noActionTimeout := 15000
|}.

(** The fields of [state] that [decide], [click] and [ghostLoop] touch. *)
Record State := mkState {
  actionsThisMinute : Z;
  lastAction : Z;
  failedAttempts : Z;
  lastClickedButton : option string;
  lastClickedPos : option (Z * Z);
  sameButtonCount : Z;
  pendingButton : option string;
  pendingCount : Z
}.

(** [state] as the script initialises it at time [now]. *)
Definition initialState (now : Z) : State := {|
  actionsThisMinute := 0;
  lastAction := now;
  failedAttempts := 0;
  lastClickedButton := None;
  lastClickedPos := None;
  sameButtonCount := 0;
  pendingButton := None;
  pendingCount := 0
|}.

(** Field updates, one per group of assignments in the source. *)
Definition setPending (st : State) (button : option string) (count : Z) : State :=
  {| actionsThisMinute := actionsThisMinute st; lastAction := lastAction st;
     failedAttempts := failedAttempts st;
     lastClickedButton := lastClickedButton st;
     lastClickedPos := lastClickedPos st;
     sameButtonCount := sameButtonCount st;
     pendingButton := button; pendingCount := count |}.

Definition setLastClicked (st : State) (button : option string) (pos : option (Z * Z))
    (same : Z) : State :=
  {| actionsThisMinute := actionsThisMinute st; lastAction := lastAction st;
     failedAttempts := failedAttempts st;
     lastClickedButton := button; lastClickedPos := pos; sameButtonCount := same;
     pendingButton := pendingButton st; pendingCount := pendingCount st |}.

Definition setActions (st : State) (count last : Z) : State :=
  {| actionsThisMinute := count; lastAction := last;
     failedAttempts := failedAttempts st;
     lastClickedButton := lastClickedButton st;
     lastClickedPos := lastClickedPos st;
     sameButtonCount := sameButtonCount st;
     pendingButton := pendingButton st; pendingCount := pendingCount st |}.

Definition setFailedAttempts (st : State) (n : Z) : State :=
  {| actionsThisMinute := actionsThisMinute st; lastAction := lastAction st;
     failedAttempts := n;
     lastClickedButton := lastClickedButton st;
     lastClickedPos := lastClickedPos st;
     sameButtonCount := sameButtonCount st;
     pendingButton := pendingButton st; pendingCount := pendingCount st |}.

(** The double quote character. *)
Definition dquote : ascii := ascii_of_nat 34.

Inductive Decision :=
| Wait (reason : string)
| Click (x y : Z) (reason : string).

Definition isWait (d : Decision) : bool :=
  match d with Wait _ => true | Click _ _ _ => false end.

(** What may follow the pattern in [^"?pattern"?[,.]?$]. *)
Definition regexTail (s : string) : bool :=
  let s1 := match s with
            | String c s' => if Ascii.eqb c dquote then s' else s
            | EmptyString => s
            end in
  match s1 with
  | EmptyString => true
  | String c EmptyString => Ascii.eqb c "," || Ascii.eqb c "."
  | _ => false
  end.

(** The pattern part, compared case-insensitively, then the tail. *)
Fixpoint regexBody (pattern s : string) : bool :=
  match pattern with
  | EmptyString => regexTail s
  | String p pattern' =>
      match s with
      | String c s' =>
          Ascii.eqb (JS.lowerAscii p) (JS.lowerAscii c) && regexBody pattern' s'
      | EmptyString => false
      end
  end.

(** [new RegExp(`^"?${pattern}"?[,.]?$`, 'i').test(s)] for a pattern of
    letters, as all watch patterns are. *)
Definition regexTest (pattern s : string) : bool :=
  match s with
  | String c s' => if Ascii.eqb c dquote then regexBody pattern s' else regexBody pattern s
  | EmptyString => regexBody pattern s
  end.

Section WithConfig.
Variable cfg : Config.

Definition findButtons (words : list Word) : list Button :=
  let found :=
    flat_map (fun pattern =>
      flat_map (fun word =>
        if regexTest pattern (word_text word) && (50 <? word_confidence word)
        then [ {| btn_text := pattern; btn_match := word_text word;
                  btn_x := word_x word; btn_y := word_y word;
                  btn_confidence := word_confidence word |} ]
        else []) words) (watchPatterns cfg) in
  JS.sort (fun a b => btn_confidence b - btn_confidence a) found.

Definition priorityOrder : list string :=
  ["Allow"; "Yes"; "OK"; "Keep"; "Proceed"; "Run"; "Continue"].

Definition inBottomRight (b : Button) : bool := (1200 <? btn_x b) && (500 <? btn_y b).

Definition isDialogButton (b : Button) : bool :=
  existsb (String.eqb (btn_text b)) ["Allow"; "Yes"; "OK"; "Keep"] &&
  (90 <? btn_confidence b) &&
  (350 <? btn_y b) && (btn_y b <? 650) &&
  (400 <? btn_x b) && (btn_x b <? 900).

(** FILTER 1 and FILTER 2 of [decide]: the buttons of the chat panel if
    there are any, else the dialog buttons, else nothing. *)
Definition regionFilter (buttons : list Button) : list Button :=
  let bottomRightButtons := List.filter inBottomRight buttons in
  match bottomRightButtons with
  | _ :: _ => bottomRightButtons
  | [] => List.filter isDialogButton buttons
  end.

Definition byPriority (buttons : list Button) : list Button :=
  JS.sort (fun a b => JS.indexOf (btn_text a) priorityOrder
                      - JS.indexOf (btn_text b) priorityOrder) buttons.

(** The first index whose button text differs from [last], as the stuck
    detection loop finds it; 0 when there is none. *)
Fixpoint firstOther (last : option string) (i : nat) (buttons : list Button) : nat :=
  match buttons with
  | [] => 0%nat
  | b :: rest =>
      if bool_decide (Some (btn_text b) = last) then firstOther last (S i) rest else i
  end.

Definition candidateIndex (st : State) (buttons : list Button) : nat :=
  if (2 <=? sameButtonCount st) && (1 <? Z.of_nat (length buttons))
  then firstOther (lastClickedButton st) 0 buttons
  else 0%nat.

(** [`${best.text}@${Math.round(best.x/50)}x${Math.round(best.y/50)}`] *)
Definition buttonKey (best : Button) : string :=
  btn_text best ++ "@" ++ pretty (JS.roundDiv (btn_x best) 50)
                ++ "x" ++ pretty (JS.roundDiv (btn_y best) 50).

(** The CONFIRMATION part of [decide] and what follows it. *)
Definition confirm (st : State) (best : Button) : State * Decision :=
  let st1 :=
    if bool_decide (pendingButton st = Some (buttonKey best))
    then setPending st (pendingButton st) (pendingCount st + 1)
    else setPending st (Some (buttonKey best)) 1 in
  if pendingCount st1 <? confirmScans cfg
  then (st1, Wait "Confirming button is real")
  else
    let st2 := setPending st1 None 0 in
    let st3 :=
      if bool_decide (Some (btn_text best) = lastClickedButton st2)
      then setLastClicked st2 (lastClickedButton st2)
             (Some (btn_x best, btn_y best)) (sameButtonCount st2 + 1)
      else setLastClicked st2 (Some (btn_text best))
             (Some (btn_x best, btn_y best)) 1 in
    (st3, Click (btn_x best) (btn_y best)
            ("Confirmed: " ++ String dquote (btn_match best ++ String dquote EmptyString))).

(** The candidate of a cycle: [buttons[candidateIndex]] after the region
    filters and the priority sort, or the reason there is none. *)
Definition candidate (st : State) (ocrResult : OcrResult) : string + Button :=
  match findButtons (ocr_words ocrResult) with
  | [] => inl "No buttons found"
  | b0 :: found' =>
      match regionFilter (b0 :: found') with
      | [] => inl "No buttons in chat panel or dialogs"
      | r0 :: region' =>
          let buttons := byPriority (r0 :: region') in
          inr (nth (candidateIndex st buttons) buttons r0)
      end
  end.

Definition decide (st : State) (ocrResult : OcrResult) : State * Decision :=
  if maxActionsPerMinute cfg <=? actionsThisMinute st
  then (st, Wait "Rate limited")
  else
    match candidate st ocrResult with
    | inl reason => (st, Wait reason)
    | inr best => confirm st best
    end.

(** [click(x, y)]: [ok] tells whether the injected click succeeded. *)
Definition click (st : State) (now : Z) (ok : bool) : State * bool :=
  if ok then (setActions st (actionsThisMinute st + 1) now, true) else (st, false).

(** The callback every cycle of [ghostLoop] schedules 60000 ms ahead. *)
Definition rateTimer (st : State) : State :=
  setActions st (Z.max 0 (actionsThisMinute st - 1)) (lastAction st).

(** One cycle of [ghostLoop] after a screenshot was taken: OCR result in,
    decision out, the click attempted when one was decided. *)
Definition ghostLoop (st : State) (now : Z) (ocrResult : OcrResult) (clickOk : bool)
  : State * Decision :=
  let '(st1, decision) := decide st ocrResult in
  match decision with
  | Click x y _ =>
      let '(st2, ok) := click st1 now clickOk in
      (if ok then setFailedAttempts st2 0 else st2, decision)
  | Wait _ => (st1, decision)
  end.

(** The running script: [state], and the number of rate timers
    scheduled and not yet fired. *)
Record Loop := mkLoop { loop_state : State; loop_timers : nat }.

(** What happens to the script between two awaits: a poll cycle that
    gets its screenshot, one that does not, or a rate timer coming due. *)
Inductive Event :=
| Cycle (now : Z) (ocrResult : OcrResult) (clickOk : bool)
| ScreenshotFailed
| TimerFired.

(** A cycle with a screenshot ends by scheduling one rate timer; one
    without returns before that.  A timer fires only if one is pending. *)
Fixpoint run (l : Loop) (events : list Event) : Loop * list Decision :=
  match events with
  | [] => (l, [])
  | Cycle now ocrResult clickOk :: rest =>
      let '(st1, d) := ghostLoop (loop_state l) now ocrResult clickOk in
      let '(l2, ds) :=
        run {| loop_state := st1; loop_timers := S (loop_timers l) |} rest in
      (l2, d :: ds)
  | ScreenshotFailed :: rest => run l rest
  | TimerFired :: rest =>
      match loop_timers l with
      | O => run l rest
      | S n => run {| loop_state := rateTimer (loop_state l); loop_timers := n |} rest
      end
  end.

(** The clicks a run commits: the cycles whose decision is a click and
    whose click succeeds. *)
Fixpoint committed (l : Loop) (events : list Event) : Z :=
  match events with
  | [] => 0
  | Cycle now ocrResult clickOk :: rest =>
      let '(st1, d) := ghostLoop (loop_state l) now ocrResult clickOk in
      (if negb (isWait d) && clickOk then 1 else 0)
      + committed {| loop_state := st1; loop_timers := S (loop_timers l) |} rest
  | ScreenshotFailed :: rest => committed l rest
  | TimerFired :: rest =>
      match loop_timers l with
      | O => committed l rest
      | S n => committed {| loop_state := rateTimer (loop_state l); loop_timers := n |} rest
      end
  end.

(** Successive calls of [decide] alone, with the decisions they return. *)
Fixpoint decideAll (st : State) (scans : list OcrResult) : State * list Decision :=
  match scans with
  | [] => (st, [])
  | ocrResult :: rest =>
      let '(st1, d) := decide st ocrResult in
      let '(st2, ds) := decideAll st1 rest in
      (st2, d :: ds)
  end.

End WithConfig.

(** How often [key] has been sighted so far according to the pending
    record: its count when the record is for [key], else none. *)
Definition sightings (st : State) (key : string) : Z :=
  if bool_decide (pendingButton st = Some key) then pendingCount st else 0.

(** A scan sights [key]: its candidate is a button with that key. *)
Definition sights (cfg : Config) (st : State) (key : string) (scan : OcrResult) : Prop :=
  exists best, candidate cfg st scan = inr best /\ buttonKey best = key.

(** Two states [decide] selects the same candidate in. *)
Definition sameSelection (st st' : State) : Prop :=
  sameButtonCount st' = sameButtonCount st /\
  lastClickedButton st' = lastClickedButton st.

(** The spec's stable candidate and the frame that shows only it. *)
Definition continueWord : Word :=
  {| word_text := "Continue"; word_x := 1300; word_y := 700; word_confidence := 95 |}.

Definition continueFrame : OcrResult := {| ocr_text := "Continue"; ocr_words := [continueWord] |}.

Definition emptyFrame : OcrResult := {| ocr_text := EmptyString; ocr_words := [] |}.

(** The timer events of a list. *)
Definition timerEvents (events : list Event) : Z :=
  Z.of_nat (length (List.filter
    (fun e => match e with TimerFired => true | _ => false end) events)).

(** The script as it starts at [now]. *)
Definition start (now : Z) : Loop :=
  {| loop_state := initialState now; loop_timers := O |}.

(** Four poll cycles, five seconds apart, each showing the stable
    candidate, every click succeeding. *)
Definition fourCycles : list Event :=
  map (fun i => Cycle (5000 * Z.of_nat i) continueFrame true) (seq 1 4).

(** A state whose counter of committed actions stands at the ceiling. *)
Definition atCeiling : State := setActions (initialState 0) 10 0.

End Ghost.

(** ** agent.js: the D0TAgent action executor *)

Module Agent.

(** An entry of [lastWords]: text and estimated position. *)
Record Word := mkWord {
  word_text : string;
  word_x : Z;
  word_y : Z;
  word_lineIdx : Z
}.

(** The [options] of [find]: [{ exact = false, near = null }].  An empty
    [near] is falsy and counts as none. *)
Record FindOptions := mkOptions { opt_exact : bool; opt_near : option string }.

Definition defaultOptions : FindOptions := {| opt_exact := false; opt_near := None |}.

Definition textMatches (exact : bool) (search : string) (w : Word) : bool :=
  let wordText := JS.toLowerCase (word_text w) in
  if exact then String.eqb wordText search else JS.includes search wordText.

(** [Math.hypot] only serves to order two distances here; the squares
    order them the same way. *)
Definition dist2 (a nearEl : Word) : Z :=
  (word_x a - word_x nearEl) * (word_x a - word_x nearEl)
  + (word_y a - word_y nearEl) * (word_y a - word_y nearEl).

Definition find (lastWords : list Word) (text : string) (options : FindOptions)
  : list Word :=
  let search := JS.toLowerCase text in
  let matches := List.filter (textMatches (opt_exact options) search) lastWords in
  match opt_near options, matches with
  | Some (String c near'), _ :: _ =>
      let near := String c near' in
      match List.filter (textMatches false (JS.toLowerCase near)) lastWords with
      | nearEl :: _ => JS.sort (fun a b => dist2 a nearEl - dist2 b nearEl) matches
      | [] => matches
      end
  | _, _ => matches
  end.

(** The steps of an action list, [{ type, params, wait }]. *)
Inductive ActionType :=
| ASee
| AClick (x y : Z)
| AClickOn (text : string) (options : FindOptions)
| AType (text : string)
| APress (key : string)
| AHotkey (keys : string)
| AUrlBar (url : string)
| ASearch (query : string)
| ASearchAndOpen (query : string)
| AWait (ms : Z)
| ALog (message : string)
| AOther (type : string).

Record Action := mkAction { act_type : ActionType; act_wait : option Z }.

(** What the agent asks of the outside world. *)
Inductive Prim :=
| PSee
| PClick (x y : Z)
| PType (text : string)
| PPress (key : string)
| PWait (ms : Z).

(** What the outside world answers: the call completes (a screenshot and
    OCR pass deliver the words read), or it throws an error with a message. *)
Inductive Outcome :=
| Done (words : list Word)
| Throws (message : string).

(** The outside world: the outcome of the n-th request made so far. *)
Definition World := nat -> Outcome.

(** The agent object: [lastWords], with the requests made so far and the
    actions [execute] has begun (its [console.log] line per action). *)
Record State := mkState {
  lastWords : list Word;
  requests : list Prim;
  begun : list Action
}.

Definition fresh : State := {| lastWords := []; requests := []; begun := [] |}.

(** An async method: it returns a value or throws, and leaves a state. *)
Inductive Result (A : Type) :=
| Return (a : A)
| Throw (message : string).
Arguments Return {A} a.
Arguments Throw {A} message.

Definition M (A : Type) : Type := State -> Result A * State.

Definition ret {A} (a : A) : M A := fun s => (Return a, s).

Definition bind {A B} (m : M A) (k : A -> M B) : M B :=
  fun s => match m s with
           | (Return a, s1) => k a s1
           | (Throw e, s1) => (Throw e, s1)
           end.

Notation "x <- m ;; k" := (bind m (fun x => k))
  (at level 100, m at next level, right associativity).
Notation "m ;;; k" := (bind m (fun _ => k))
  (at level 100, right associativity).

Section WithWorld.
Variable world : World.

(** One request to the outside world, recorded and answered. *)
Definition request (p : Prim) : M (list Word) :=
  fun s =>
    let s1 := {| lastWords := lastWords s; requests := requests s ++ [p];
                 begun := begun s |} in
    match world (length (requests s)) with
    | Done words => (Return words, s1)
    | Throws e => (Throw e, s1)
    end.

(** [see()]: screenshot and OCR, then [lastWords] is replaced. *)
Definition see : M (list Word) :=
  words <- request PSee ;;
  fun s => (Return words,
            {| lastWords := words; requests := requests s; begun := begun s |}).

Definition click (x y : Z) : M unit := request (PClick x y) ;;; ret tt.

Definition type (text : string) : M unit := request (PType text) ;;; ret tt.

Definition press (key : string) : M unit := request (PPress key) ;;; ret tt.

(** [wait(ms)] is a timer: it is recorded and cannot throw. *)
Definition wait (ms : Z) : M unit :=
  fun s => (Return tt, {| lastWords := lastWords s;
                          requests := requests s ++ [PWait ms];
                          begun := begun s |}).

Definition clickOn (text : string) (options : FindOptions) : M bool :=
  fun s =>
    match find (lastWords s) text options with
    | [] => (Return false, s)
    | target :: _ => (click (word_x target) (word_y target) ;;; ret true) s
    end.

(** [keyMap] of [hotkey]. *)
Definition keyMap : list (string * string) :=
  [("ctrl", "^"); ("alt", "%"); ("shift", "+"); ("win", "^{ESC}");
   ("enter", "{ENTER}"); ("tab", "{TAB}"); ("esc", "{ESC}"); ("escape", "{ESC}");
   ("up", "{UP}"); ("down", "{DOWN}"); ("left", "{LEFT}"); ("right", "{RIGHT}");
   ("backspace", "{BACKSPACE}"); ("delete", "{DELETE}"); ("home", "{HOME}");
   ("end", "{END}");
   ("f1", "{F1}"); ("f2", "{F2}"); ("f3", "{F3}"); ("f4", "{F4}"); ("f5", "{F5}");
   ("f6", "{F6}"); ("f7", "{F7}"); ("f8", "{F8}"); ("f9", "{F9}"); ("f10", "{F10}");
   ("f11", "{F11}"); ("f12", "{F12}")].

Fixpoint lookupKey (part : string) (table : list (string * string)) : string :=
  match table with
  | [] => part
  | (k, v) :: table' => if String.eqb part k then v else lookupKey part table'
  end.

(** [keys.split('+')], the part being read carried in [acc]. *)
Fixpoint splitPlus (acc s : string) : list string :=
  match s with
  | EmptyString => [acc]
  | String c s' =>
      if Ascii.eqb c "+"%char then acc :: splitPlus EmptyString s'
      else splitPlus (acc ++ String c EmptyString) s'
  end.

Definition sendKeysOf (keys : string) : string :=
  fold_left (fun sendKeys part => sendKeys ++ lookupKey part keyMap)
            (splitPlus EmptyString (JS.toLowerCase keys)) EmptyString.

Definition hotkey (keys : string) : M unit := press (sendKeysOf keys).

Definition urlBar (url : string) : M unit :=
  hotkey "ctrl+l" ;;; wait 100 ;;; type url ;;; press "{ENTER}".

Definition search (query : string) : M unit :=
  hotkey "ctrl+escape" ;;; wait 300 ;;; type query ;;; wait 500.

Definition searchAndOpen (query : string) : M unit :=
  search query ;;; press "{ENTER}" ;;; wait 1000.

(** The [switch] of [execute]. *)
Definition dispatch (t : ActionType) : M unit :=
  match t with
  | ASee => see ;;; ret tt
  | AClick x y => click x y
  | AClickOn text options => clickOn text options ;;; ret tt
  | AType text => type text
  | APress key => press key
  | AHotkey keys => hotkey keys
  | AUrlBar url => urlBar url
  | ASearch query => search query
  | ASearchAndOpen query => searchAndOpen query
  | AWait ms => wait ms
  | ALog _ => ret tt
  | AOther _ => ret tt
  end.

(** One turn of the loop of [execute]: the action is announced, then
    dispatched, then its optional [wait] is served. *)
Definition step (action : Action) : M unit :=
  (fun s => (Return tt, {| lastWords := lastWords s; requests := requests s;
                           begun := begun s ++ [action] |})) ;;;
  dispatch (act_type action) ;;;
  match act_wait action with
  | Some ms => if ms =? 0 then ret tt else wait ms
  | None => ret tt
  end.

Fixpoint execute (actions : list Action) : M unit :=
  match actions with
  | [] => ret tt
  | action :: rest => step action ;;; execute rest
  end.

End WithWorld.

(** A method that leaves the record of begun actions as it is. *)
Definition keepsBegun {A} (m : M A) : Prop :=
  forall s, begun (snd (m s)) = begun s.

End Agent.

(** ** smart-auto.js: cooldown, loop detection, position learning *)

Module SmartAuto.

Record Config := mkConfig {
  pollInterval : Z;
  buttons : list string;
  buttonCooldown : Z;
  loopThreshold : Z
}.

Definition CONFIG : Config := {|
  pollInterval := 3000;
  buttons := ["Allow"; "Continue"; "Keep"; "Yes"; "OK"; "Run"; "Proceed"; "Accept"];
  buttonCooldown := 10000;
  loopThreshold := 3
|}.

(** An entry of [recentClicks]. *)
Record ClickRecord := mkClick {
  click_x : Z;
  click_y : Z;
  click_time : Z;
  click_button : string
}.

(** An entry of [learned]. *)
Record Learned := mkLearned { learned_x : Z; learned_y : Z; learned_lastSeen : Z }.

(** [state], and the content of the state file: the [learned] map as
    last written with its [lastSaved] time, if it was ever written. *)
Record State := mkState {
  lastClickTime : gmap string Z;
  recentClicks : list ClickRecord;
  learned : gmap string Learned;
  totalClicks : Z;
  loopsAvoided : Z;
  stateFile : option (gmap string Learned * Z)
}.

(** [loadState().learned || {}]: the map of the state file, empty when
    there is no file. *)
Definition loadState (file : option (gmap string Learned * Z)) : gmap string Learned :=
  match file with
  | Some (saved, _) => saved
  | None => ∅
  end.

Definition initialState (file : option (gmap string Learned * Z)) : State := {|
  lastClickTime := ∅;
  recentClicks := [];
  learned := loadState file;
  totalClicks := 0;
  loopsAvoided := 0;
  stateFile := file
|}.

Section WithConfig.
Variable cfg : Config.

(** [now] is the value [Date.now()] returns.  A recorded time of 0 is
    falsy, so [!lastClick] holds for it as for a missing entry. *)
Definition isOnCooldown (st : State) (now : Z) (button : string) : bool :=
  match lastClickTime st !! button with
  | None => false
  | Some lastClick =>
      if lastClick =? 0 then false else now - lastClick <? buttonCooldown cfg
  end.

Definition nearAndRecent (now x y : Z) (c : ClickRecord) : bool :=
  (Z.abs (click_x c - x) <? 50) &&
  (Z.abs (click_y c - y) <? 50) &&
  (now - click_time c <? 30000).

Definition isLoopPosition (st : State) (now x y : Z) : bool :=
  let recent := List.filter (nearAndRecent now x y) (recentClicks st) in
  loopThreshold cfg <=? Z.of_nat (length recent).

(** [arr.slice(-10)]: the last ten elements. *)
Definition lastTen {A} (l : list A) : list A := drop (length l - 10)%nat l.

Definition recordClick (st : State) (now : Z) (button : string) (x y : Z) : State :=
  let clicks : list ClickRecord :=
    (recentClicks st ++
       [ {| click_x := x; click_y := y; click_time := now;
            click_button := button |} ])%list in
  let learned' :=
    <[ button := {| learned_x := x; learned_y := y; learned_lastSeen := now |} ]>
      (learned st) in
  {| lastClickTime := <[ button := now ]> (lastClickTime st);
     recentClicks := if 20 <? Z.of_nat (length clicks) then lastTen clicks else clicks;
     learned := learned';
     totalClicks := totalClicks st + 1;
     loopsAvoided := loopsAvoided st;
     stateFile := Some (learned', now) |}.

Definition countLoopAvoided (st : State) : State :=
  {| lastClickTime := lastClickTime st; recentClicks := recentClicks st;
     learned := learned st; totalClicks := totalClicks st;
     loopsAvoided := loopsAvoided st + 1; stateFile := stateFile st |}.

(** How a scan ends. *)
Inductive ScanResult :=
| NoClick
| Clicked (button : string) (x y : Z)
| Failed (message : string).

(** The [for] loop of [smartScan] over the buttons still to check.  The
    guards read the clock at [now]; [clicked] is the outcome of
    [agent.click] should the loop get to it, and [clickedAt] the time at
    which [recordClick] then runs. *)
Fixpoint scanButtons (now : Z) (lastWords : list Agent.Word)
    (clicked : Agent.Outcome) (clickedAt : Z)
    (todo : list string) (st : State) : State * ScanResult :=
  match todo with
  | [] => (st, NoClick)
  | button :: rest =>
      if isOnCooldown st now button
      then scanButtons now lastWords clicked clickedAt rest st
      else
        match Agent.find lastWords button Agent.defaultOptions with
        | [] => scanButtons now lastWords clicked clickedAt rest st
        | target :: _ =>
            if isLoopPosition st now (Agent.word_x target) (Agent.word_y target)
            then scanButtons now lastWords clicked clickedAt rest (countLoopAvoided st)
            else
              match clicked with
              | Agent.Done _ =>
                  (recordClick st clickedAt button
                     (Agent.word_x target) (Agent.word_y target),
                   Clicked button (Agent.word_x target) (Agent.word_y target))
              | Agent.Throws e => (st, Failed e)
              end
        end
  end.

(** One run of [smartScan] while [state.running]: [seen] is the outcome
    of [agent.see()]. *)
Definition smartScan (st : State) (seen : Agent.Outcome) (now : Z)
    (clicked : Agent.Outcome) (clickedAt : Z) : State * ScanResult :=
  match seen with
  | Agent.Throws e => (st, Failed e)
  | Agent.Done lastWords =>
      scanButtons now lastWords clicked clickedAt (buttons cfg) st
  end.

End WithConfig.

(** The spec's screen: one word at (1310, 705). *)
Definition screenWith (label : string) (x y : Z) : list Agent.Word :=
  [ {| Agent.word_text := label; Agent.word_x := x; Agent.word_y := y;
       Agent.word_lineIdx := 0 |} ].

(** Three clicks at (1300, 700), on three different labels, at 1, 5
    and 9 seconds past [t0]. *)
Definition afterThreeClicks (t0 : Z) : State :=
  recordClick
    (recordClick
       (recordClick (initialState None) (t0 + 1000) "Continue" 1300 700)
       (t0 + 5000) "Keep" 1300 700)
    (t0 + 9000) "Yes" 1300 700.

(** A wall-clock time to run the examples at. *)
Definition someTime : Z := 1700000000000.

(** The state after one click on "Allow" at (640, 480) at [someTime]. *)
Definition afterAllowClick : State :=
  recordClick (initialState None) someTime "Allow" 640 480.

End SmartAuto.

(** ** gateway.js: session store, message handlers, task queue *)

Module Gateway.

(** An entry of [session.learnedPositions]; [seenAt] is kept as the
    millisecond time its ISO string is printed from. *)
Record LearnedPosition := mkPosition { pos_x : Z; pos_y : Z; pos_seenAt : Z }.

(** A value a client may store under a preference key. *)
Inductive PrefValue :=
| PBool (b : bool)
| PNum (n : Z)
| PStr (s : string).

(** The session object: these four fields and no other. *)
Record Session := mkSession {
  session_id : string;
  session_startedAt : Z;
  learnedPositions : gmap string LearnedPosition;
  preferences : gmap string PrefValue
}.

(** [state.stats], a sibling of [state.session]. *)
Record Stats := mkStats {
  totalActions : Z;
  totalClicks : Z;
  totalTypes : Z;
  uptime : Z
}.

Inductive Status := queued | running | completed | failed.

Record Task := mkTask {
  task_id : string;
  task_name : string;
  task_actions : list Agent.Action;
  task_priority : Z;
  task_status : Status;
  task_createdAt : Z;
  task_startedAt : option Z;
  task_completedAt : option Z;
  task_error : option string
}.

(** The session file holds the JSON text of a session, as
    [JSON.stringify] printed it and [JSON.parse] reads it back, or text
    that [JSON.parse] rejects.  [writable] tells whether [writeFileSync]
    succeeds. *)
Inductive FileContent :=
| Json (s : Session)
| Unparsable.

Record Disk := mkDisk { sessionFile : option FileContent; writable : bool }.

(** Messages the server sends; log lines are left out. *)
Inductive ServerMsg :=
| Pong (time : Z)
| SeeResult (wordCount : Z) (learned : gmap string LearnedPosition)
| ClickResult (x y : Z)
| ClickOnResult (text : string) (success usedLearned : bool) (pos : option (Z * Z))
| TypeResult (text : string)
| HotkeyResult (keys : string)
| UrlBarResult (url : string)
| TaskQueued (task : Task)
| TaskStarted (task : Task)
| TaskCompleted (task : Task)
| Registered (s : Session)
| AutonomousEventMsg (type pattern : string) (x y : Z)
| AutonomousStarted
| AutonomousStopped
| StateMsg (s : Session) (stats : Stats) (taskQueue : list Task)
    (currentTask : option Task) (autonomousRunning : bool)
| ErrorMsg (message : string).

(** Messages a client sends, [{ type, payload }]. *)
Inductive ClientMsg :=
| Ping
| See
| ClickAt (x y : Z)
| ClickOnText (text : string) (options : Agent.FindOptions)
| TypeText (text : string)
| Hotkey (keys : string)
| UrlBar (url : string)
| TaskMsg (name : string) (actions : list Agent.Action) (priority : option Z)
| Register (name version : string)
| AutonomousEvent (type pattern : string) (x y : Z)
| StartAutonomous
| StopAutonomous
| GetState
| SetPreference (key : string) (value : PrefValue)
| Unknown (type : string).

(** [state], with the session file, the messages sent so far and the
    number of [setTimeout(() => processTaskQueue(), 100)] not yet fired.
    The agent is created on first use; a fresh agent stands for it until
    then. *)
Record State := mkState {
  agent : Agent.State;
  session : Session;
  taskQueue : list Task;
  currentTask : option Task;
  stats : Stats;
  autonomousProcess : bool;
  disk : Disk;
  outbox : list ServerMsg;
  timers : nat
}.

Definition defaultSession (now : Z) : Session := {|
  session_id := "d0t-" ++ pretty now;
  session_startedAt := now;
  learnedPositions := ∅;
  preferences := <["confirmClicks" := PBool false]> (<["verbose" := PBool true]> ∅)
|}.

Definition loadSession (d : Disk) (now : Z) : Session :=
  match sessionFile d with
  | Some (Json s) => s
  | Some Unparsable => defaultSession now
  | None => defaultSession now
  end.

(** The initialiser of [state], run when the process starts at [now]. *)
Definition startup (d : Disk) (now : Z) : State := {|
  agent := Agent.fresh;
  session := loadSession d now;
  taskQueue := [];
  currentTask := None;
  stats := {| totalActions := 0; totalClicks := 0; totalTypes := 0; uptime := now |};
  autonomousProcess := false;
  disk := d;
  outbox := [];
  timers := 0
|}.

Definition setAgent (st : State) (a : Agent.State) : State :=
  {| agent := a; session := session st; taskQueue := taskQueue st;
     currentTask := currentTask st; stats := stats st;
     autonomousProcess := autonomousProcess st; disk := disk st;
     outbox := outbox st; timers := timers st |}.

Definition setSession (st : State) (s : Session) : State :=
  {| agent := agent st; session := s; taskQueue := taskQueue st;
     currentTask := currentTask st; stats := stats st;
     autonomousProcess := autonomousProcess st; disk := disk st;
     outbox := outbox st; timers := timers st |}.

Definition setTasks (st : State) (queue : list Task) (current : option Task)
    (pending : nat) : State :=
  {| agent := agent st; session := session st; taskQueue := queue;
     currentTask := current; stats := stats st;
     autonomousProcess := autonomousProcess st; disk := disk st;
     outbox := outbox st; timers := pending |}.

Definition setStats (st : State) (s : Stats) : State :=
  {| agent := agent st; session := session st; taskQueue := taskQueue st;
     currentTask := currentTask st; stats := s;
     autonomousProcess := autonomousProcess st; disk := disk st;
     outbox := outbox st; timers := timers st |}.

Definition setAutonomous (st : State) (b : bool) : State :=
  {| agent := agent st; session := session st; taskQueue := taskQueue st;
     currentTask := currentTask st; stats := stats st;
     autonomousProcess := b; disk := disk st;
     outbox := outbox st; timers := timers st |}.

Definition setDisk (st : State) (d : Disk) : State :=
  {| agent := agent st; session := session st; taskQueue := taskQueue st;
     currentTask := currentTask st; stats := stats st;
     autonomousProcess := autonomousProcess st; disk := d;
     outbox := outbox st; timers := timers st |}.

(** [ws.send] and [broadcast]: the message joins those sent. *)
Definition send (st : State) (m : ServerMsg) : State :=
  {| agent := agent st; session := session st; taskQueue := taskQueue st;
     currentTask := currentTask st; stats := stats st;
     autonomousProcess := autonomousProcess st; disk := disk st;
     outbox := (outbox st ++ [m])%list; timers := timers st |}.

Definition saveSession (st : State) : State :=
  if writable (disk st)
  then setDisk st {| sessionFile := Some (Json (session st)); writable := true |}
  else st.

Definition setLearned (s : Session) (m : gmap string LearnedPosition) : Session :=
  {| session_id := session_id s; session_startedAt := session_startedAt s;
     learnedPositions := m; preferences := preferences s |}.

Definition setPreferences (s : Session) (m : gmap string PrefValue) : Session :=
  {| session_id := session_id s; session_startedAt := session_startedAt s;
     learnedPositions := learnedPositions s; preferences := m |}.

(** [totalActions++] with [totalClicks++] or [totalTypes++]. *)
Definition countAction (st : State) (clicks types : Z) : State :=
  setStats st {| totalActions := totalActions (stats st) + 1;
                 totalClicks := totalClicks (stats st) + clicks;
                 totalTypes := totalTypes (stats st) + types;
                 uptime := uptime (stats st) |}.

Section WithWorld.
Variable world : Agent.World.

(** The patterns [handleSee] remembers positions for. *)
Definition seePatterns : list string :=
  ["Continue"; "Keep"; "Allow"; "Yes"; "OK"; "Run"; "Proceed"].

Definition rememberSeen (lastWords : list Agent.Word) (now : Z)
    (learned : gmap string LearnedPosition) (pattern : string)
  : gmap string LearnedPosition :=
  match Agent.find lastWords pattern Agent.defaultOptions with
  | [] => learned
  | m :: _ =>
      <[ pattern := {| pos_x := Agent.word_x m; pos_y := Agent.word_y m;
                       pos_seenAt := now |} ]> learned
  end.

(** A handler that throws is answered by the [catch] of the message
    callback with an error message. *)
Definition handleSee (st : State) (now : Z) : State :=
  match Agent.see world (agent st) with
  | (Agent.Throw e, a) => send (setAgent st a) (ErrorMsg e)
  | (Agent.Return _, a) =>
      let st1 := setAgent st a in
      let learned :=
        fold_left (rememberSeen (Agent.lastWords a) now) seePatterns
                  (learnedPositions (session st1)) in
      let st2 := saveSession (setSession st1 (setLearned (session st1) learned)) in
      send st2 (SeeResult (Z.of_nat (length (Agent.lastWords a))) learned)
  end.

Definition handleClick (st : State) (x y : Z) : State :=
  match Agent.click world x y (agent st) with
  | (Agent.Throw e, a) => send (setAgent st a) (ErrorMsg e)
  | (Agent.Return _, a) => send (countAction (setAgent st a) 1 0) (ClickResult x y)
  end.

Definition handleClickOn (st : State) (now : Z) (text : string)
    (options : Agent.FindOptions) : State :=
  match Agent.see world (agent st) with
  | (Agent.Throw e, a) => send (setAgent st a) (ErrorMsg e)
  | (Agent.Return _, a) =>
      let st1 := setAgent st a in
      match Agent.find (Agent.lastWords a) text options,
            learnedPositions (session st1) !! text with
      | [], Some learned =>
          match Agent.click world (pos_x learned) (pos_y learned) a with
          | (Agent.Throw e, a2) => send (setAgent st1 a2) (ErrorMsg e)
          | (Agent.Return _, a2) =>
              send (countAction (setAgent st1 a2) 1 0)
                   (ClickOnResult text true true (Some (pos_x learned, pos_y learned)))
          end
      | [], None => send st1 (ClickOnResult text false false None)
      | target :: _, _ =>
          match Agent.click world (Agent.word_x target) (Agent.word_y target) a with
          | (Agent.Throw e, a2) => send (setAgent st1 a2) (ErrorMsg e)
          | (Agent.Return _, a2) =>
              let st2 := setAgent st1 a2 in
              let learned :=
                <[ text := {| pos_x := Agent.word_x target;
                              pos_y := Agent.word_y target;
                              pos_seenAt := now |} ]>
                  (learnedPositions (session st2)) in
              let st3 := saveSession (setSession st2 (setLearned (session st2) learned)) in
              send (countAction st3 1 0)
                   (ClickOnResult text true false
                      (Some (Agent.word_x target, Agent.word_y target)))
          end
      end
  end.

Definition handleType (st : State) (text : string) : State :=
  match Agent.type world text (agent st) with
  | (Agent.Throw e, a) => send (setAgent st a) (ErrorMsg e)
  | (Agent.Return _, a) => send (countAction (setAgent st a) 0 1) (TypeResult text)
  end.

Definition handleHotkey (st : State) (keys : string) : State :=
  match Agent.hotkey world keys (agent st) with
  | (Agent.Throw e, a) => send (setAgent st a) (ErrorMsg e)
  | (Agent.Return _, a) => send (countAction (setAgent st a) 0 0) (HotkeyResult keys)
  end.

Definition handleUrlBar (st : State) (url : string) : State :=
  match Agent.urlBar world url (agent st) with
  | (Agent.Throw e, a) => send (setAgent st a) (ErrorMsg e)
  | (Agent.Return _, a) => send (countAction (setAgent st a) 0 0) (UrlBarResult url)
  end.

Definition setStatus (t : Task) (s : Status) (started completed : option Z)
    (error : option string) : Task :=
  {| task_id := task_id t; task_name := task_name t;
     task_actions := task_actions t; task_priority := task_priority t;
     task_status := s; task_createdAt := task_createdAt t;
     task_startedAt := started; task_completedAt := completed;
     task_error := error |}.

(** [processTaskQueue] up to its first [await]: with an empty queue the
    current task is cleared, else the head of the queue becomes the
    current task and is announced as started. *)
Definition processTaskQueue (st : State) (now : Z) : State :=
  match taskQueue st with
  | [] => setTasks st [] None (timers st)
  | t :: rest =>
      let current := setStatus t running (Some now) None None in
      send (setTasks st rest (Some current) (timers st)) (TaskStarted current)
  end.

(** [processTaskQueue] from [agent.execute] to its end: the actions run,
    the task is marked, announced, and the next round is scheduled. *)
Definition completeTask (st : State) (now : Z) : State :=
  match currentTask st with
  | None => st
  | Some t =>
      match task_status t with
      | running =>
          let '(r, a) := Agent.execute world (task_actions t) (agent st) in
          let done :=
            match r with
            | Agent.Return _ =>
                setStatus t completed (task_startedAt t) (Some now) None
            | Agent.Throw e =>
                setStatus t failed (task_startedAt t) None (Some e)
            end in
          send (setTasks (setAgent st a) (taskQueue st) (Some done) (S (timers st)))
               (TaskCompleted done)
      | _ => st
      end
  end.

(** The task [handleTask] builds. *)
Definition newTask (now : Z) (name : string) (actions : list Agent.Action)
    (priority : option Z) : Task :=
  {| task_id := "task-" ++ pretty now; task_name := name;
     task_actions := actions; task_priority := default 0 priority;
     task_status := queued; task_createdAt := now;
     task_startedAt := None; task_completedAt := None; task_error := None |}.

(** The comparator [(a, b) => b.priority - a.priority]. *)
Definition comparePriority (a b : Task) : Z := task_priority b - task_priority a.

Definition byPriority (queue : list Task) : list Task := JS.sort comparePriority queue.

Definition handleTask (st : State) (now : Z) (name : string)
    (actions : list Agent.Action) (priority : option Z) : State :=
  let taskItem := newTask now name actions priority in
  let st1 :=
    setTasks st (byPriority (taskQueue st ++ [taskItem])%list)
             (currentTask st) (timers st) in
  let st2 := send st1 (TaskQueued taskItem) in
  match currentTask st2 with
  | None => processTaskQueue st2 now
  | Some _ => st2
  end.

Definition handleMessage (st : State) (now : Z) (msg : ClientMsg) : State :=
  match msg with
  | Ping => send st (Pong now)
  | See => handleSee st now
  | ClickAt x y => handleClick st x y
  | ClickOnText text options => handleClickOn st now text options
  | TypeText text => handleType st text
  | Hotkey keys => handleHotkey st keys
  | UrlBar url => handleUrlBar st url
  | TaskMsg name actions priority => handleTask st now name actions priority
  | Register _ _ => send st (Registered (session st))
  | AutonomousEvent type pattern x y =>
      let st1 := send st (AutonomousEventMsg type pattern x y) in
      if String.eqb type "clicked" then countAction st1 1 0 else st1
  | StartAutonomous =>
      let st1 := if autonomousProcess st then st
                 else send (setAutonomous st true) AutonomousStarted in
      send st1 AutonomousStarted
  | StopAutonomous =>
      let st1 := if autonomousProcess st
                 then send (setAutonomous st false) AutonomousStopped
                 else st in
      send st1 AutonomousStopped
  | GetState =>
      send st (StateMsg (session st) (stats st) (taskQueue st) (currentTask st)
                        (autonomousProcess st))
  | SetPreference key value =>
      saveSession
        (setSession st
           (setPreferences (session st) (<[ key := value ]> (preferences (session st)))))
  | Unknown _ => st
  end.

(** What the event loop runs to completion, one at a time: a client
    message, the end of the running task's [execute], a due timer, or the
    exit of the autonomous child process. *)
Inductive Event :=
| Message (now : Z) (msg : ClientMsg)
| TaskExecuted (now : Z)
| TimerFired (now : Z)
| AutonomousExited.

Definition step (st : State) (e : Event) : State :=
  match e with
  | Message now msg => handleMessage st now msg
  | TaskExecuted now => completeTask st now
  | TimerFired now =>
      match timers st with
      | O => st
      | S n => processTaskQueue (setTasks st (taskQueue st) (currentTask st) n) now
      end
  | AutonomousExited =>
      if autonomousProcess st
      then send (setAutonomous st false) AutonomousStopped
      else st
  end.

Definition run (st : State) (events : list Event) : State := fold_left step events st.

(** [SIGINT]: the session is saved and the process exits; what survives
    is the disk. *)
Definition shutdown (st : State) : Disk := disk (saveSession st).

End WithWorld.





(** The entry [handleSee] writes for a pattern it sights among
    [lastWords], if it sights it. *)
Definition sighted (lastWords : list Agent.Word) (now : Z) (pattern : string)
  : option LearnedPosition :=
  match Agent.find lastWords pattern Agent.defaultOptions with
  | [] => None
  | m :: _ => Some {| pos_x := Agent.word_x m; pos_y := Agent.word_y m;
                      pos_seenAt := now |}
  end.

(** A click-by-text at [st] that reads the text at [target] and whose
    click there succeeds. *)
Definition clickedLive (world : Agent.World) (st : State) (text : string)
    (options : Agent.FindOptions) (target : Agent.Word) : Prop :=
  exists ws more wsc,
    world (length (Agent.requests (agent st))) = Agent.Done ws /\
    Agent.find ws text options = target :: more /\
    world (S (length (Agent.requests (agent st)))) = Agent.Done wsc.

(** The session on disk is the session in memory. *)
Definition inSync (st : State) : Prop :=
  writable (disk st) = true /\
  sessionFile (disk st) = Some (Json (session st)).

(** A queue in descending order of priority. *)
Definition descending (queue : list Task) : Prop :=
  StronglySorted (fun a b => task_priority b <= task_priority a) queue.

(** What holds of the task fields of every state the gateway reaches. *)
Definition tasksWellFormed (st : State) : Prop :=
  descending (taskQueue st) /\
  Forall (fun t => task_status t = queued) (taskQueue st) /\
  match currentTask st with
  | None => taskQueue st = [] /\ timers st = O
  | Some t =>
      (task_status t = running /\ timers st = O) \/
      ((task_status t = completed \/ task_status t = failed) /\ timers st = 1%nat)
  end.

(** A wall-clock time to run the examples at. *)
Definition someTime : Z := 1700000000000.


(** A task message with one half-second wait to execute. *)
Definition enqueue (now : Z) (name : string) (priority : Z) : Event :=
  Message now (TaskMsg name [ {| Agent.act_type := Agent.AWait 500;
                                 Agent.act_wait := None |} ] (Some priority)).




(** A world whose second request fails: the shell command exits with
    an error. *)
Definition secondFails : Agent.World :=
  fun n =>
    match n with
    | 1%nat => Agent.Throws "Command failed: powershell -ExecutionPolicy Bypass"
    | _ => Agent.Done []
    end.

Definition plain (t : Agent.ActionType) : Agent.Action :=
  {| Agent.act_type := t; Agent.act_wait := None |}.

(** A task of three actions, then a second task, then the end of the
    first task's execution. *)
Definition threeSteps : list Agent.Action :=
  [plain (Agent.AClick 10 10); plain (Agent.AType "hello"); plain (Agent.AClick 20 20)].

Definition failingScenario : list Event :=
  [Message (someTime + 10) (TaskMsg "three steps" threeSteps None);
   Message (someTime + 20) (TaskMsg "next" [plain (Agent.ALog "done")] None)].

(** A world whose every screen shows "Continue" at (1300, 700). *)
Definition continueShown : Agent.World :=
  fun _ => Agent.Done [ {| Agent.word_text := "Continue"; Agent.word_x := 1300;
                           Agent.word_y := 700; Agent.word_lineIdx := 21 |} ].

(** An empty, writable disk, and the gateway started on it. *)
Definition emptyDisk : Disk := {| sessionFile := None; writable := true |}.


(** A world in which the first screen shows "Submit" at (400, 300), every
    later screen shows nothing, and no request fails. *)
Definition submitOnce : Agent.World :=
  fun n =>
    match n with
    | O => Agent.Done [ {| Agent.word_text := "Submit"; Agent.word_x := 400;
                           Agent.word_y := 300; Agent.word_lineIdx := 8 |} ]
    | _ => Agent.Done []
    end.

End Gateway.

(** ** ghost.js: what [ocr] makes of the recognition result *)

Module GhostOcr.

(** A bounding box [{ x0, y0, x1, y1 }] in pixels. *)
Record Bbox := mkBbox { x0 : Z; y0 : Z; x1 : Z; y1 : Z }.

(** A word as the recognizer reports it; [bbox] may be missing. *)
Record RawWord := mkRaw {
  raw_text : string;
  raw_bbox : option Bbox;
  raw_confidence : Z
}.

(** Blocks, paragraphs and lines; each list may be missing ([?.]). *)
Record Line := mkLine { line_words : option (list RawWord) }.
Record Paragraph := mkParagraph { para_lines : option (list Line) }.
Record Block := mkBlock { block_paragraphs : option (list Paragraph) }.

(** [Math.round((a + b) / 2)] on integers. *)
Definition centre (a b : Z) : Z := JS.roundDiv (a + b) 2.

(** The [push] of the innermost loop: a word with a box and a non-empty
    text becomes a word at the centre of its box. *)
Definition toWord (word : RawWord) : list Ghost.Word :=
  match raw_bbox word, raw_text word with
  | Some bbox, String _ _ =>
      [ {| Ghost.word_text := raw_text word;
           Ghost.word_x := centre (x0 bbox) (x1 bbox);
           Ghost.word_y := centre (y0 bbox) (y1 bbox);
           Ghost.word_confidence := raw_confidence word |} ]
  | _, _ => []
  end.

(** All words of all lines of all paragraphs of all blocks, in order. *)
Definition rawWords (blocks : option (list Block)) : list RawWord :=
  flat_map (fun block =>
    flat_map (fun para =>
      flat_map (fun line => default [] (line_words line))
               (default [] (para_lines para)))
             (default [] (block_paragraphs block)))
           (default [] blocks).

Definition wordsOf (blocks : option (list Block)) : list Ghost.Word :=
  flat_map (fun block =>
    flat_map (fun para =>
      flat_map (fun line => flat_map toWord (default [] (line_words line)))
               (default [] (para_lines para)))
             (default [] (block_paragraphs block)))
           (default [] blocks).

(** What [worker.recognize] gives: [data], or an error. *)
Inductive Recognized :=
| Data (text : string) (blocks : option (list Block))
| RecognizeFailed (message : string).

Definition ocr (r : Recognized) : Ghost.OcrResult :=
  match r with
  | Data text blocks => {| Ghost.ocr_text := text; Ghost.ocr_words := wordsOf blocks |}
  | RecognizeFailed _ => {| Ghost.ocr_text := EmptyString; Ghost.ocr_words := [] |}
  end.

(** The button [findButtons] makes of a word for a pattern. *)
Definition buttonOf (pattern : string) (word : Ghost.Word) : Ghost.Button :=
  {| Ghost.btn_text := pattern; Ghost.btn_match := Ghost.word_text word;
     Ghost.btn_x := Ghost.word_x word; Ghost.btn_y := Ghost.word_y word;
     Ghost.btn_confidence := Ghost.word_confidence word |}.

(** The pairs of a watch pattern and a word that [findButtons] makes a
    button of, patterns in their order and for each the words in theirs. *)
Definition acceptedPairs (cfg : Ghost.Config) (words : list Ghost.Word)
  : list (string * Ghost.Word) :=
  List.filter
    (fun pw => Ghost.regexTest (fst pw) (Ghost.word_text (snd pw))
               && (50 <? Ghost.word_confidence (snd pw)))
    (list_prod (Ghost.watchPatterns cfg) words).

(** A frame whose only word is "Continue" in the box (1260, 690) to
    (1341, 711), read with confidence 95. *)
Definition continueData : Recognized :=
  Data "Continue"
    (Some [ {| block_paragraphs := Some [ {| para_lines := Some [ {| line_words :=
      Some [ {| raw_text := "Continue";
                raw_bbox := Some {| x0 := 1260; y0 := 690; x1 := 1341; y1 := 711 |};
                raw_confidence := 95 |} ] |} ] |} ] |} ]).

(** A frame with "Continue" and "Keep" both in the chat panel, and a
    state in which "Keep" was clicked twice in a row. *)
Definition keepWord : Ghost.Word :=
  {| Ghost.word_text := "Keep"; Ghost.word_x := 1400; Ghost.word_y := 700;
     Ghost.word_confidence := 90 |}.

Definition twoButtonFrame : Ghost.OcrResult :=
  {| Ghost.ocr_text := "Continue Keep";
     Ghost.ocr_words := [Ghost.continueWord; keepWord] |}.

Definition stuckOnKeep : Ghost.State :=
  Ghost.setLastClicked (Ghost.initialState 0) (Some "Keep") (Some (1400, 700)) 2.

(** An ASCII letter. *)
Definition isLetter (c : ascii) : bool :=
  let n := N_of_ascii c in
  (((65 <=? n) && (n <=? 90)) || ((97 <=? n) && (n <=? 122)))%N.

Fixpoint lettersOnly (s : string) : bool :=
  match s with
  | EmptyString => true
  | String c s' => isLetter c && lettersOnly s'
  end.

(** What the expression [^"?pattern"?[,.]?$] allows behind the pattern:
    nothing, a quote, a comma, a period, a quote and a comma, a quote and a
    period. *)
Definition afterPattern : list string :=
  [EmptyString; String Ghost.dquote EmptyString; ","; ".";
   String Ghost.dquote ","; String Ghost.dquote "."].

(** What holds of [state] whenever the loop is between two cycles. *)
Definition healthy (cfg : Ghost.Config) (st : Ghost.State) : Prop :=
  0 <= Ghost.actionsThisMinute st /\
  Ghost.failedAttempts st = 0 /\
  0 <= Ghost.pendingCount st < Ghost.confirmScans cfg /\
  (Ghost.pendingButton st = None -> Ghost.pendingCount st = 0) /\
  (Ghost.lastClickedButton st = None -> Ghost.sameButtonCount st = 0) /\
  (Ghost.lastClickedButton st <> None -> 1 <= Ghost.sameButtonCount st) /\
  (Ghost.lastClickedButton st = None <-> Ghost.lastClickedPos st = None).

End GhostOcr.

(** ** agent.js: the text [type] hands to the shell *)

Module AgentText.

(** The characters of [/[+^%~(){}[\]]/]. *)
Definition isSpecial (c : ascii) : bool :=
  existsb (Ascii.eqb c)
    ["+"; "^"; "%"; "~"; "("; ")"; "{"; "}"; "["; "]"]%char.

(** [text.replace(/[+^%~(){}[\]]/g, '{$&}')]: every special character
    is put in braces. *)
Fixpoint escapeSendKeys (text : string) : string :=
  match text with
  | EmptyString => EmptyString
  | String c rest =>
      if isSpecial c
      then String "{" (String c (String "}" (escapeSendKeys rest)))
      else String c (escapeSendKeys rest)
  end.

(** The single quote. *)
Definition squote : ascii := ascii_of_nat 39.

(** [escaped.replace(/'/g, "''")]: every single quote is doubled. *)
Fixpoint quotePS (escaped : string) : string :=
  match escaped with
  | EmptyString => EmptyString
  | String c rest =>
      if Ascii.eqb c squote
      then String squote (String squote (quotePS rest))
      else String c (quotePS rest)
  end.

(** The argument [type] splices between the quotes of [SendWait('...')]
    in its script, before [runPS] cleans the script (see [AgentShell]). *)
Definition sendWaitArgument (text : string) : string := quotePS (escapeSendKeys text).

(** Reading back: a brace group [{c}] stands for [c], a doubled quote
    for one quote.  These undo the two replacements. *)
Fixpoint unescapeSendKeys (s : string) : string :=
  match s with
  | EmptyString => EmptyString
  | String open rest =>
      match rest with
      | String c (String close rest') =>
          if Ascii.eqb open "{" && isSpecial c && Ascii.eqb close "}"
          then String c (unescapeSendKeys rest')
          else String open (unescapeSendKeys rest)
      | _ => String open (unescapeSendKeys rest)
      end
  end.

Fixpoint unquotePS (s : string) : string :=
  match s with
  | EmptyString => EmptyString
  | String a rest =>
      match rest with
      | String b rest' =>
          if Ascii.eqb a squote && Ascii.eqb b squote
          then String squote (unquotePS rest')
          else String a (unquotePS rest)
      | EmptyString => String a EmptyString
      end
  end.

(** Actions that ask nothing fallible of the outside world. *)
Definition harmless (a : Agent.Action) : bool :=
  match Agent.act_type a with
  | Agent.AWait _ | Agent.ALog _ | Agent.AOther _ => true
  | _ => false
  end.

Definition isWaitRequest (p : Agent.Prim) : bool :=
  match p with Agent.PWait _ => true | _ => false end.

End AgentText.

(** ** gateway.js: counting what was sent *)

Module GatewayTally.

(** What a reply stands for in [stats]: the replies sent after
    [totalActions++], [totalClicks++] and [totalTypes++]. *)
Definition actionsOf (m : Gateway.ServerMsg) : Z :=
  match m with
  | Gateway.ClickResult _ _ | Gateway.TypeResult _
  | Gateway.HotkeyResult _ | Gateway.UrlBarResult _ => 1
  | Gateway.ClickOnResult _ success _ _ => if success then 1 else 0
  | Gateway.AutonomousEventMsg type _ _ _ => if String.eqb type "clicked" then 1 else 0
  | _ => 0
  end.

Definition clicksOf (m : Gateway.ServerMsg) : Z :=
  match m with
  | Gateway.ClickResult _ _ => 1
  | Gateway.ClickOnResult _ success _ _ => if success then 1 else 0
  | Gateway.AutonomousEventMsg type _ _ _ => if String.eqb type "clicked" then 1 else 0
  | _ => 0
  end.

Definition typesOf (m : Gateway.ServerMsg) : Z :=
  match m with
  | Gateway.TypeResult _ => 1
  | _ => 0
  end.

Definition tally (f : Gateway.ServerMsg -> Z) (sent : list Gateway.ServerMsg) : Z :=
  fold_right (fun m n => f m + n) 0 sent.




Definition count (p : Gateway.ServerMsg -> bool) (sent : list Gateway.ServerMsg) : nat :=
  length (List.filter p sent).


(** What [stats] and the messages sent have to do with each other. *)
Definition statsMatch (now0 : Z) (st : Gateway.State) : Prop :=
  Gateway.totalActions (Gateway.stats st) = tally actionsOf (Gateway.outbox st) /\
  Gateway.totalClicks (Gateway.stats st) = tally clicksOf (Gateway.outbox st) /\
  Gateway.totalTypes (Gateway.stats st) = tally typesOf (Gateway.outbox st) /\
  Gateway.uptime (Gateway.stats st) = now0.




(** A world whose second request fails with an error that carries an
    empty message. *)
Definition secondThrowsEmpty : Agent.World :=
  fun n =>
    match n with
    | 1%nat => Agent.Throws EmptyString
    | _ => Agent.Done []
    end.

(** A task that clicks, reads the screen and clicks again. *)
Definition lookSteps : list Agent.Action :=
  [Gateway.plain (Agent.AClick 10 10); Gateway.plain Agent.ASee;
   Gateway.plain (Agent.AClick 20 20)].

Definition lookScenario : list Gateway.Event :=
  [Gateway.Message (Gateway.someTime + 10) (Gateway.TaskMsg "look" lookSteps None)].

(** A world in which every request fails. *)
Definition allFails : Agent.World := fun _ => Agent.Throws "Command failed".

(** [log]: the entry joins [state.history], which drops its oldest entry
    once it holds more than 1000. *)
Definition pushHistory {A} (history : list A) (entry : A) : list A :=
  let pushed := (history ++ [entry])%list in
  if 1000 <? Z.of_nat (length pushed) then tl pushed else pushed.

End GatewayTally.

(** ** smart-auto.js: scans one after another *)

Module SmartRun.

(** [state.loopsAvoided] raised by [k]. *)
Definition addLoops (st : SmartAuto.State) (k : Z) : SmartAuto.State :=
  {| SmartAuto.lastClickTime := SmartAuto.lastClickTime st;
     SmartAuto.recentClicks := SmartAuto.recentClicks st;
     SmartAuto.learned := SmartAuto.learned st;
     SmartAuto.totalClicks := SmartAuto.totalClicks st;
     SmartAuto.loopsAvoided := SmartAuto.loopsAvoided st + k;
     SmartAuto.stateFile := SmartAuto.stateFile st |}.

(** The three guards of the loop of [smartScan], for one button: it is
    off cooldown, it is on screen, and its place is no loop position. *)
Definition eligible (cfg : SmartAuto.Config) (st : SmartAuto.State) (now : Z)
    (lastWords : list Agent.Word) (button : string) : bool :=
  negb (SmartAuto.isOnCooldown cfg st now button) &&
  match Agent.find lastWords button Agent.defaultOptions with
  | [] => false
  | target :: _ =>
      negb (SmartAuto.isLoopPosition cfg st now (Agent.word_x target) (Agent.word_y target))
  end.

(** The button passes the first two guards and fails the third. *)
Definition loopSkipped (cfg : SmartAuto.Config) (st : SmartAuto.State) (now : Z)
    (lastWords : list Agent.Word) (button : string) : bool :=
  negb (SmartAuto.isOnCooldown cfg st now button) &&
  match Agent.find lastWords button Agent.defaultOptions with
  | [] => false
  | target :: _ =>
      SmartAuto.isLoopPosition cfg st now (Agent.word_x target) (Agent.word_y target)
  end.

(** What one run of [smartScan] meets: the outcome of [agent.see()], the
    clock at the guards, the outcome of [agent.click] and the clock at
    [recordClick]. *)
Record Tick := mkTick {
  tick_seen : Agent.Outcome;
  tick_now : Z;
  tick_clicked : Agent.Outcome;
  tick_clickedAt : Z
}.

Definition scan (cfg : SmartAuto.Config) (st : SmartAuto.State) (t : Tick)
  : SmartAuto.State * SmartAuto.ScanResult :=
  SmartAuto.smartScan cfg st (tick_seen t) (tick_now t) (tick_clicked t)
    (tick_clickedAt t).

(** The scans [setTimeout(smartScan, ...)] runs one after another. *)
Definition runScans (cfg : SmartAuto.Config) (st : SmartAuto.State) (ticks : list Tick)
  : SmartAuto.State :=
  fold_left (fun st t => fst (scan cfg st t)) ticks st.

(** The clicks these scans make, as [recordClick] records them. *)
Fixpoint clicksDone (cfg : SmartAuto.Config) (st : SmartAuto.State) (ticks : list Tick)
  : list SmartAuto.ClickRecord :=
  match ticks with
  | [] => []
  | t :: ticks' =>
      (match snd (scan cfg st t) with
       | SmartAuto.Clicked button x y =>
           [ {| SmartAuto.click_x := x; SmartAuto.click_y := y;
                SmartAuto.click_time := tick_clickedAt t;
                SmartAuto.click_button := button |} ]
       | _ => []
       end ++ clicksDone cfg (fst (scan cfg st t)) ticks')%list
  end.

(** The maps that result from writing the clicks in order. *)
Definition replayLearned (m : gmap string SmartAuto.Learned)
    (done : list SmartAuto.ClickRecord) : gmap string SmartAuto.Learned :=
  fold_left (fun m c =>
    <[ SmartAuto.click_button c :=
         {| SmartAuto.learned_x := SmartAuto.click_x c;
            SmartAuto.learned_y := SmartAuto.click_y c;
            SmartAuto.learned_lastSeen := SmartAuto.click_time c |} ]> m) done m.

Definition replayTimes (m : gmap string Z) (done : list SmartAuto.ClickRecord)
  : gmap string Z :=
  fold_left (fun m c => <[ SmartAuto.click_button c := SmartAuto.click_time c ]> m) done m.

(** What the state has to do with the clicks made so far. *)
Definition follows (file : option (gmap string SmartAuto.Learned * Z))
    (st : SmartAuto.State) (done : list SmartAuto.ClickRecord) : Prop :=
  SmartAuto.totalClicks st = Z.of_nat (length done) /\
  0 <= SmartAuto.loopsAvoided st /\
  SmartAuto.learned st = replayLearned (SmartAuto.loadState file) done /\
  SmartAuto.lastClickTime st = replayTimes ∅ done /\
  (length (SmartAuto.recentClicks st) <= 20)%nat /\
  (Nat.min 10 (length done) <= length (SmartAuto.recentClicks st))%nat /\
  exists dropped, done = (dropped ++ SmartAuto.recentClicks st)%list.

(** "Continue" shown at (1300, 700) all along: the scans of the first
    25 seconds, three to four seconds apart, of which the first, the fourth
    and the seventh click, each 200 ms after its guards. *)
Definition sameButtonTicks : list Tick :=
  map (fun t =>
         {| tick_seen := Agent.Done (SmartAuto.screenWith "Continue" 1300 700);
            tick_now := SmartAuto.someTime + t;
            tick_clicked := Agent.Done [];
            tick_clickedAt := SmartAuto.someTime + t + 200 |})
      [0; 4200; 7400; 10600; 14800; 18000; 21200].

(** A screen that shows "Allow" and "Continue". *)
Definition twoButtons : list Agent.Word :=
  [ {| Agent.word_text := "Allow"; Agent.word_x := 640; Agent.word_y := 480;
       Agent.word_lineIdx := 14 |};
    {| Agent.word_text := "Continue"; Agent.word_x := 1300; Agent.word_y := 700;
       Agent.word_lineIdx := 21 |} ].

End SmartRun.

(** ** agent.js: how [see] places the words it reads *)

Module AgentSee.

(** The ASCII characters of the class [\s]: tab, line feed, vertical tab,
    form feed, carriage return and space.  The text read is taken to be
    ASCII, as for [toLowerCase]. *)
Definition isSpace (c : ascii) : bool :=
  let n := N_of_ascii c in
  (((9 <=? n) && (n <=? 13)) || (n =? 32))%N.

Definition newline : ascii := ascii_of_nat 10.

Definition isNewline (c : ascii) : bool := Ascii.eqb c newline.

(** [s.split(sep)] for a separator of one character, the piece being
    read carried in [acc]. *)
Fixpoint splitOn (sep : ascii -> bool) (acc s : string) : list string :=
  match s with
  | EmptyString => [acc]
  | String c s' =>
      if sep c then acc :: splitOn sep EmptyString s'
      else splitOn sep (acc ++ String c EmptyString) s'
  end.

Definition nonEmpty (w : string) : bool :=
  match w with EmptyString => false | String _ _ => true end.

(** [line.split(/\s+/).filter(w => w.length > 0)]: splitting at every
    white-space character gives the pieces of splitting at every run of
    them and empty pieces besides, which the filter drops in both cases. *)
Definition wordsOfLine (line : string) : list string :=
  List.filter nonEmpty (splitOn isSpace EmptyString line).

(** The inner [forEach]: [x] runs along the line. *)
Fixpoint placeWords (lineIdx x : Z) (words : list string) : list Agent.Word :=
  match words with
  | [] => []
  | word :: rest =>
      let len := Z.of_nat (String.length word) in
      {| Agent.word_text := word;
         Agent.word_x := x + (len * 8) / 2;
         Agent.word_y := 50 + lineIdx * 30;
         Agent.word_lineIdx := lineIdx |}
      :: placeWords lineIdx (x + len * 8 + 10) rest
  end.

(** The outer [forEach], from line [lineIdx] on. *)
Fixpoint placeLines (lineIdx : Z) (lines : list string) : list Agent.Word :=
  match lines with
  | [] => []
  | line :: rest =>
      (placeWords lineIdx 50 (wordsOfLine line) ++ placeLines (lineIdx + 1) rest)%list
  end.

(** [lastWords] as [see] builds it from the text read. *)
Definition layout (text : string) : list Agent.Word :=
  placeLines 0 (splitOn isNewline EmptyString text).

(** [a] comes before [b] in reading order: on a line above, or on the
    same line and to the left, centres at least 18 pixels apart. *)
Definition readsBefore (a b : Agent.Word) : Prop :=
  Agent.word_lineIdx a < Agent.word_lineIdx b \/
  (Agent.word_lineIdx a = Agent.word_lineIdx b /\ Agent.word_x a + 18 <= Agent.word_x b).

Definition noSpace (w : string) : bool :=
  forallb (fun c => negb (isSpace c)) (list_ascii_of_string w).

(** Two lines of text, "Continue" on both. *)
Definition twoLines : string :=
  "Press Continue" ++ String newline "or Continue later".

(** The world after a screen read whose OCR text is [text]. *)
Definition shows (text : string) : Agent.World := fun _ => Agent.Done (layout text).

End AgentSee.

(** ** ghost.js: the loop on the clock *)

Module GhostClock.










End GhostClock.

(** ** agent.js: the script [type] hands to [runPS] *)

Module AgentShell.

Definition cr : ascii := ascii_of_nat 13.
Definition lf : ascii := ascii_of_nat 10.

(** [script.replace(/\r?\n/g, '\n')]: a carriage return that stands right
    before a line feed is dropped. *)
Fixpoint normalizeNewlines (s : string) : string :=
  match s with
  | EmptyString => EmptyString
  | String c rest =>
      match rest with
      | String d _ =>
          if Ascii.eqb c cr && Ascii.eqb d lf then normalizeNewlines rest
          else String c (normalizeNewlines rest)
      | EmptyString => String c EmptyString
      end
  end.

(** [s.trim()] on ASCII text: the white space at both ends is dropped. *)
Fixpoint trimStart (s : string) : string :=
  match s with
  | EmptyString => EmptyString
  | String c rest => if AgentSee.isSpace c then trimStart rest else s
  end.

Fixpoint trimEnd (s : string) : string :=
  match s with
  | EmptyString => EmptyString
  | String c rest =>
      match trimEnd rest with
      | EmptyString => if AgentSee.isSpace c then EmptyString else String c EmptyString
      | kept => String c kept
      end
  end.

Definition trim (s : string) : string := trimEnd (trimStart s).

(** [runPS]: the text of [cleaned], which is written to the temporary
    script file and run. *)
Definition cleaned (script : string) : string := trim (normalizeNewlines script).

(** The template literal of [type], with the argument spliced in. *)
Definition typeScript (text : string) : string :=
  String lf
    ("      Add-Type -AssemblyName System.Windows.Forms"
     ++ String lf
          ("      [System.Windows.Forms.SendKeys]::SendWait('"
           ++ AgentText.sendWaitArgument text
           ++ "')" ++ String lf "    ")).

(** The script file [type] runs for [text]. *)
Definition typeFile (text : string) : string := cleaned (typeScript text).

(** The script file without the argument: what stands before and after it. *)
Definition fileHead : string :=
  "Add-Type -AssemblyName System.Windows.Forms"
  ++ String lf "      [System.Windows.Forms.SendKeys]::SendWait('".

Definition fileTail : string := "')".

Definition noCR (s : string) : bool :=
  forallb (fun c => negb (Ascii.eqb c cr)) (list_ascii_of_string s).

(** A text with no special character, no single quote and no carriage
    return. *)
Definition plainText (s : string) : bool :=
  forallb (fun c => negb (AgentText.isSpecial c) && negb (Ascii.eqb c AgentText.squote)
                    && negb (Ascii.eqb c cr))
    (list_ascii_of_string s).

End AgentShell.

(** * Properties *)

(** ** The confirming loop of ghost.js *)

Section GhostFacts.
Variable cfg : Ghost.Config.

Lemma candidate_sameSelection (st st' : Ghost.State) (scan : Ghost.OcrResult) :
  Ghost.sameSelection st st' ->
  Ghost.candidate cfg st' scan = Ghost.candidate cfg st scan.
Proof.
  intros [Hcount Hlast]. unfold Ghost.candidate, Ghost.candidateIndex.
  now rewrite Hcount, Hlast.
Qed.

Lemma sameSelection_setPending (st st' : Ghost.State) b c :
  Ghost.sameSelection st st' -> Ghost.sameSelection st (Ghost.setPending st' b c).
Proof. intros [H1 H2]. split; assumption. Qed.

(** What [confirm] does while the count stays below the threshold. *)
Lemma confirm_below (st : Ghost.State) (best : Ghost.Button) :
  Ghost.sightings st (Ghost.buttonKey best) + 1 < Ghost.confirmScans cfg ->
  Ghost.confirm cfg st best =
    (Ghost.setPending st (Some (Ghost.buttonKey best))
       (Ghost.sightings st (Ghost.buttonKey best) + 1),
     Ghost.Wait "Confirming button is real").
Proof.
  intros Hlt. unfold Ghost.confirm, Ghost.sightings in *.
  destruct (bool_decide_reflect
              (Ghost.pendingButton st = Some (Ghost.buttonKey best))) as [Heq | Hne];
    cbn [Ghost.pendingCount Ghost.setPending].
  - destruct (Z.ltb_spec (Ghost.pendingCount st + 1) (Ghost.confirmScans cfg)); [| lia].
    now rewrite Heq.
  - destruct (Z.ltb_spec 1 (Ghost.confirmScans cfg)); [reflexivity | lia].
Qed.

(** What [confirm] does once the count reaches the threshold. *)
Lemma confirm_reached (st : Ghost.State) (best : Ghost.Button) :
  Ghost.confirmScans cfg <= Ghost.sightings st (Ghost.buttonKey best) + 1 ->
  exists st', Ghost.confirm cfg st best =
    (st', Ghost.Click (Ghost.btn_x best) (Ghost.btn_y best)
            ("Confirmed: " ++ String Ghost.dquote
               (Ghost.btn_match best ++ String Ghost.dquote EmptyString)))
    /\ Ghost.pendingButton st' = None /\ Ghost.pendingCount st' = 0
    /\ Ghost.actionsThisMinute st' = Ghost.actionsThisMinute st.
Proof.
  intros Hge. unfold Ghost.confirm, Ghost.sightings in *.
  destruct (bool_decide_reflect
              (Ghost.pendingButton st = Some (Ghost.buttonKey best))) as [Heq | Hne];
    cbn [Ghost.pendingCount Ghost.setPending].
  - destruct (Z.ltb_spec (Ghost.pendingCount st + 1) (Ghost.confirmScans cfg)); [lia |].
    eexists; split; [reflexivity |].
    destruct (bool_decide _); cbn; auto.
  - destruct (Z.ltb_spec 1 (Ghost.confirmScans cfg)); [lia |].
    eexists; split; [reflexivity |].
    destruct (bool_decide _); cbn; auto.
Qed.

Lemma sightings_setPending (st : Ghost.State) (key : string) (c : Z) :
  Ghost.sightings (Ghost.setPending st (Some key) c) key = c.
Proof.
  unfold Ghost.sightings. cbn. now rewrite bool_decide_eq_true_2.
Qed.

(** Repeated sightings of one key stay waits below the threshold. *)
Lemma sightings_below_wait (st0 : Ghost.State) (key : string)
    (scans : list Ghost.OcrResult) :
  Forall (Ghost.sights cfg st0 key) scans ->
  forall st, Ghost.sameSelection st0 st ->
    Ghost.sightings st key + Z.of_nat (length scans) < Ghost.confirmScans cfg ->
    Forall (fun d => Ghost.isWait d = true) (snd (Ghost.decideAll cfg st scans)).
Proof.
  induction 1 as [| scan scans [best [Hcand Hkey]] _ IH]; intros st Hsel Hlt.
  - constructor.
  - cbn [Ghost.decideAll length] in *.
    unfold Ghost.decide at 1.
    destruct (Ghost.maxActionsPerMinute cfg <=? Ghost.actionsThisMinute st).
    + specialize (IH st Hsel ltac:(lia)).
      destruct (Ghost.decideAll cfg st scans) as [st2 ds]. cbn in *.
      constructor; [reflexivity | assumption].
    + rewrite (candidate_sameSelection st0 st scan Hsel), Hcand.
      subst key. rewrite confirm_below by lia.
      match goal with |- context [Ghost.decideAll cfg ?s scans] =>
        specialize (IH s) end.
      rewrite sightings_setPending in IH.
      specialize (IH (sameSelection_setPending _ _ _ _ Hsel) ltac:(lia)).
      destruct (Ghost.decideAll cfg _ scans) as [st2 ds]. cbn in *.
      constructor; [reflexivity | assumption].
Qed.

(** The second of two sightings of a fresh candidate is the click. *)
Lemma second_sighting_clicks (st : Ghost.State) (scan : Ghost.OcrResult)
    (best : Ghost.Button) :
  Ghost.confirmScans cfg = 2 ->
  Ghost.candidate cfg st scan = inr best ->
  Ghost.actionsThisMinute st < Ghost.maxActionsPerMinute cfg ->
  Ghost.sightings st (Ghost.buttonKey best) = 0 ->
  snd (Ghost.decideAll cfg st [scan; scan]) =
    [Ghost.Wait "Confirming button is real";
     Ghost.Click (Ghost.btn_x best) (Ghost.btn_y best)
       ("Confirmed: " ++ String Ghost.dquote
          (Ghost.btn_match best ++ String Ghost.dquote EmptyString))].
Proof.
  intros Hcfg Hcand Hrate Hfresh.
  cbn [Ghost.decideAll]. unfold Ghost.decide at 1.
  destruct (Z.leb_spec (Ghost.maxActionsPerMinute cfg) (Ghost.actionsThisMinute st));
    [lia |].
  rewrite Hcand, confirm_below by lia. rewrite Hfresh.
  unfold Ghost.decide.
  cbn [Ghost.actionsThisMinute Ghost.setPending].
  destruct (Z.leb_spec (Ghost.maxActionsPerMinute cfg) (Ghost.actionsThisMinute st));
    [lia |].
  rewrite (candidate_sameSelection st _ scan) by (split; reflexivity).
  rewrite Hcand.
  destruct (confirm_reached (Ghost.setPending st (Some (Ghost.buttonKey best)) (0 + 1)) best)
    as (st' & Hc & _).
  { rewrite sightings_setPending. lia. }
  rewrite Hc. reflexivity.
Qed.

End GhostFacts.

(** C1.  Confirmation debounce.  Whatever the configuration and the
    state, scans that all sight the same candidate key are answered with
    waits as long as the sightings counted so far and these scans together
    stay below [confirmScans]; and with [confirmScans = 2], as configured, a
    candidate not sighted before that is seen on two consecutive cycles is
    waited on in the first and clicked, at its own position, in the second. *)
Theorem confirmation_debounce :
  (forall cfg st key scans,
     Forall (Ghost.sights cfg st key) scans ->
     Ghost.sightings st key + Z.of_nat (length scans) < Ghost.confirmScans cfg ->
     Forall (fun d => Ghost.isWait d = true) (snd (Ghost.decideAll cfg st scans)))
  /\
  (forall st scan best,
     Ghost.candidate Ghost.CONFIG st scan = inr best ->
     Ghost.actionsThisMinute st < Ghost.maxActionsPerMinute Ghost.CONFIG ->
     Ghost.sightings st (Ghost.buttonKey best) = 0 ->
     snd (Ghost.decideAll Ghost.CONFIG st [scan; scan]) =
       [Ghost.Wait "Confirming button is real";
        Ghost.Click (Ghost.btn_x best) (Ghost.btn_y best)
          ("Confirmed: " ++ String Ghost.dquote
             (Ghost.btn_match best ++ String Ghost.dquote EmptyString))]).
Proof.
  split.
  - intros cfg st key scans Hs Hlt.
    apply (sightings_below_wait cfg st key scans Hs st); [split; reflexivity | exact Hlt].
  - intros st scan best. now apply second_sighting_clicks.
Qed.

(** The witness of C1: the spec's candidate "Continue" at (1300, 700),
    confidence 95, from the initial state. *)
Lemma confirmation_debounce_witness :
  Forall (fun d => Ghost.isWait d = true)
    (snd (Ghost.decideAll Ghost.CONFIG (Ghost.initialState 0) [Ghost.continueFrame]))
  /\
  snd (Ghost.decideAll Ghost.CONFIG (Ghost.initialState 0)
         [Ghost.continueFrame; Ghost.continueFrame]) =
    [Ghost.Wait "Confirming button is real";
     Ghost.Click 1300 700
       ("Confirmed: " ++ String Ghost.dquote ("Continue" ++ String Ghost.dquote EmptyString))].
Proof.
  destruct confirmation_debounce as [below second].
  split.
  - apply (below Ghost.CONFIG (Ghost.initialState 0) "Continue@26x14"
             [Ghost.continueFrame]).
    + constructor; [| constructor].
      exists {| Ghost.btn_text := "Continue"; Ghost.btn_match := "Continue";
                Ghost.btn_x := 1300; Ghost.btn_y := 700; Ghost.btn_confidence := 95 |}.
      split; vm_compute; reflexivity.
    + vm_compute; reflexivity.
  - apply (second (Ghost.initialState 0) Ghost.continueFrame
             {| Ghost.btn_text := "Continue"; Ghost.btn_match := "Continue";
                Ghost.btn_x := 1300; Ghost.btn_y := 700; Ghost.btn_confidence := 95 |}).
    + vm_compute; reflexivity.
    + vm_compute; reflexivity.
    + vm_compute; reflexivity.
Defined.

(** ** The rate limit of ghost.js *)

Section RateFacts.
Variable cfg : Ghost.Config.

Lemma decide_rate_limited (st : Ghost.State) (scan : Ghost.OcrResult) :
  Ghost.maxActionsPerMinute cfg <= Ghost.actionsThisMinute st ->
  Ghost.decide cfg st scan = (st, Ghost.Wait "Rate limited").
Proof.
  intros Hge. unfold Ghost.decide.
  destruct (Z.leb_spec (Ghost.maxActionsPerMinute cfg) (Ghost.actionsThisMinute st));
    [reflexivity | lia].
Qed.

(** [decide] never touches the counter. *)
Lemma decide_actions (st : Ghost.State) (scan : Ghost.OcrResult) :
  Ghost.actionsThisMinute (fst (Ghost.decide cfg st scan)) = Ghost.actionsThisMinute st.
Proof.
  unfold Ghost.decide.
  destruct (_ <=? _); [reflexivity |].
  destruct (Ghost.candidate cfg st scan) as [reason | best]; [reflexivity |].
  unfold Ghost.confirm.
  repeat (match goal with |- context [if ?b then _ else _] => destruct b end;
          cbn; try reflexivity).
Qed.

(** A cycle adds one to the counter exactly when it commits a click. *)
Lemma ghostLoop_actions (st : Ghost.State) now scan clickOk :
  Ghost.actionsThisMinute (fst (Ghost.ghostLoop cfg st now scan clickOk)) =
  Ghost.actionsThisMinute st
  + (if negb (Ghost.isWait (snd (Ghost.ghostLoop cfg st now scan clickOk))) && clickOk
     then 1 else 0).
Proof.
  unfold Ghost.ghostLoop.
  pose proof (decide_actions st scan) as Hd.
  destruct (Ghost.decide cfg st scan) as [st1 d]. cbn in Hd.
  destruct d as [reason | x y reason]; cbn.
  - lia.
  - destruct clickOk; cbn; lia.
Qed.

(** Over any run the counter is at most the start value plus the
    clicks committed, and falls short of that by at most the number of
    timer events. *)
Lemma run_counter_bounds (events : list Ghost.Event) :
  forall l,
    0 <= Ghost.actionsThisMinute (Ghost.loop_state l) ->
    let counter := Ghost.actionsThisMinute (Ghost.loop_state (fst (Ghost.run cfg l events))) in
    Ghost.actionsThisMinute (Ghost.loop_state l) + Ghost.committed cfg l events
      - Ghost.timerEvents events <= counter
    /\ counter <= Ghost.actionsThisMinute (Ghost.loop_state l) + Ghost.committed cfg l events.
Proof.
  unfold Ghost.timerEvents.
  induction events as [| e events IH]; intros l Hpos; cbv zeta.
  - cbn. lia.
  - destruct e as [now scan clickOk | |];
      cbn [Ghost.run Ghost.committed List.filter length].
    + pose proof (ghostLoop_actions (Ghost.loop_state l) now scan clickOk) as Hstep.
      destruct (Ghost.ghostLoop cfg (Ghost.loop_state l) now scan clickOk) as [st1 d].
      cbn [fst snd] in Hstep.
      specialize (IH {| Ghost.loop_state := st1;
                        Ghost.loop_timers := S (Ghost.loop_timers l) |}).
      cbv zeta in IH. cbn [Ghost.loop_state] in IH.
      destruct (Ghost.run cfg _ events) as [l2 ds]. cbn [fst] in *.
      destruct (negb (Ghost.isWait d) && clickOk); lia.
    + specialize (IH l Hpos). cbv zeta in IH. lia.
    + destruct (Ghost.loop_timers l) as [| n].
      * specialize (IH l Hpos). cbv zeta in IH. lia.
      * specialize (IH {| Ghost.loop_state := Ghost.rateTimer (Ghost.loop_state l);
                          Ghost.loop_timers := n |}).
        cbv zeta in IH. cbn [Ghost.loop_state Ghost.rateTimer Ghost.actionsThisMinute
                             Ghost.setActions] in IH.
        lia.
Qed.

End RateFacts.


(** ** The pending confirmation of ghost.js across an empty scan *)

(** C10.  The pending confirmation is not cleared by a cycle that sights
    nothing.  From the initial state, "Continue" at (1300, 700) is sighted,
    then a scan reads no word at all, then "Continue" is sighted again:
    after the empty scan the pending record still holds the key with count
    1, and the third scan is answered with the click. *)
Theorem pending_survives_empty_scan :
  let st2 := fst (Ghost.decideAll Ghost.CONFIG (Ghost.initialState 0)
                    [Ghost.continueFrame; Ghost.emptyFrame]) in
  Ghost.pendingButton st2 = Some "Continue@26x14" /\
  Ghost.pendingCount st2 = 1 /\
  snd (Ghost.decideAll Ghost.CONFIG (Ghost.initialState 0)
         [Ghost.continueFrame; Ghost.emptyFrame; Ghost.continueFrame]) =
    [Ghost.Wait "Confirming button is real";
     Ghost.Wait "No buttons found";
     Ghost.Click 1300 700
       ("Confirmed: " ++ String Ghost.dquote ("Continue" ++ String Ghost.dquote EmptyString))].
Proof. vm_compute. repeat split; reflexivity. Qed.

(** ** Cooldown and loop detection of smart-auto.js *)

Section SmartFacts.
Variable cfg : SmartAuto.Config.

(** The meaning of the filter of [isLoopPosition]. *)
Lemma nearAndRecent_spec (now x y : Z) (c : SmartAuto.ClickRecord) :
  SmartAuto.nearAndRecent now x y c = true <->
  Z.abs (SmartAuto.click_x c - x) < 50 /\
  Z.abs (SmartAuto.click_y c - y) < 50 /\
  now - SmartAuto.click_time c < 30000.
Proof.
  unfold SmartAuto.nearAndRecent.
  rewrite !andb_true_iff, !Z.ltb_lt. tauto.
Qed.

(** A scan clicks no button that is on cooldown and no position that is
    a loop position. *)
Lemma scanButtons_clicked now lastWords clicked clickedAt (todo : list string) :
  forall st st' button x y,
    SmartAuto.scanButtons cfg now lastWords clicked clickedAt todo st =
      (st', SmartAuto.Clicked button x y) ->
    SmartAuto.isOnCooldown cfg st now button = false /\
    SmartAuto.isLoopPosition cfg st now x y = false /\
    In button todo.
Proof.
  induction todo as [| b rest IH]; intros st st' button x y Hscan;
    cbn [SmartAuto.scanButtons] in Hscan.
  - discriminate.
  - destruct (SmartAuto.isOnCooldown cfg st now b) eqn:Hcool.
    { destruct (IH _ _ _ _ _ Hscan) as (? & ? & ?). auto with datatypes. }
    destruct (Agent.find lastWords b Agent.defaultOptions) as [| target more].
    { destruct (IH _ _ _ _ _ Hscan) as (? & ? & ?). auto with datatypes. }
    destruct (SmartAuto.isLoopPosition cfg st now (Agent.word_x target)
                (Agent.word_y target)) eqn:Hloop.
    { destruct (IH _ _ _ _ _ Hscan) as (? & ? & ?). auto with datatypes. }
    destruct clicked as [ws | e]; inversion Hscan; subst.
    auto with datatypes.
Qed.

(** Buttons that are not on screen are passed over. *)
Lemma scanButtons_none now lastWords clicked clickedAt (todo : list string) :
  Forall (fun b => Agent.find lastWords b Agent.defaultOptions = []) todo ->
  forall st,
    SmartAuto.scanButtons cfg now lastWords clicked clickedAt todo st =
      (st, SmartAuto.NoClick).
Proof.
  induction 1 as [| b rest Hb _ IH]; intros st; cbn [SmartAuto.scanButtons].
  - reflexivity.
  - rewrite Hb. destruct (SmartAuto.isOnCooldown cfg st now b); apply IH.
Qed.

(** The iteration for a candidate at a loop position. *)
Lemma scanButtons_loop now lastWords clicked clickedAt button rest st target more :
  SmartAuto.isOnCooldown cfg st now button = false ->
  Agent.find lastWords button Agent.defaultOptions = target :: more ->
  SmartAuto.loopThreshold cfg <=
    Z.of_nat (length (List.filter
      (SmartAuto.nearAndRecent now (Agent.word_x target) (Agent.word_y target))
      (SmartAuto.recentClicks st))) ->
  SmartAuto.scanButtons cfg now lastWords clicked clickedAt (button :: rest) st =
    SmartAuto.scanButtons cfg now lastWords clicked clickedAt rest
      (SmartAuto.countLoopAvoided st).
Proof.
  intros Hcool Hfind Hcount. cbn [SmartAuto.scanButtons]. rewrite Hcool, Hfind.
  unfold SmartAuto.isLoopPosition.
  destruct (Z.leb_spec (SmartAuto.loopThreshold cfg)
    (Z.of_nat (length (List.filter
      (SmartAuto.nearAndRecent now (Agent.word_x target) (Agent.word_y target))
      (SmartAuto.recentClicks st))))); [reflexivity | lia].
Qed.

(** The iteration for a candidate that passes both guards. *)
Lemma scanButtons_click now lastWords ws clickedAt button rest st target more :
  SmartAuto.isOnCooldown cfg st now button = false ->
  Agent.find lastWords button Agent.defaultOptions = target :: more ->
  SmartAuto.isLoopPosition cfg st now (Agent.word_x target) (Agent.word_y target) = false ->
  SmartAuto.scanButtons cfg now lastWords (Agent.Done ws) clickedAt (button :: rest) st =
    (SmartAuto.recordClick st clickedAt button (Agent.word_x target) (Agent.word_y target),
     SmartAuto.Clicked button (Agent.word_x target) (Agent.word_y target)).
Proof. intros Hcool Hfind Hloop. cbn [SmartAuto.scanButtons].
  now rewrite Hcool, Hfind, Hloop. Qed.

Lemma isOnCooldown_within st now button t0 :
  SmartAuto.lastClickTime st !! button = Some t0 -> t0 <> 0 ->
  now - t0 < SmartAuto.buttonCooldown cfg ->
  SmartAuto.isOnCooldown cfg st now button = true.
Proof.
  intros Hlast Hnz Hlt. unfold SmartAuto.isOnCooldown. rewrite Hlast.
  destruct (Z.eqb_spec t0 0); [contradiction |].
  now apply Z.ltb_lt.
Qed.

Lemma isOnCooldown_elapsed st now button t0 :
  SmartAuto.lastClickTime st !! button = Some t0 ->
  SmartAuto.buttonCooldown cfg <= now - t0 ->
  SmartAuto.isOnCooldown cfg st now button = false.
Proof.
  intros Hlast Hge. unfold SmartAuto.isOnCooldown. rewrite Hlast.
  destruct (t0 =? 0); [reflexivity |].
  now apply Z.ltb_ge.
Qed.

End SmartFacts.

(** C3, as the code has it.  Loop detection.  The cooldown is checked
    first: a button still on cooldown is passed over before the loop check,
    and the scan goes on in the same state, [loopsAvoided] included.  When
    the candidate found for a button that is not on cooldown has at least
    [loopThreshold] recorded clicks within 50 pixels on each axis and less
    than 30 seconds old, its iteration clicks nothing: the scan goes on to
    the remaining buttons in the same state but for [loopsAvoided], which is
    one more; if no remaining button is on screen the scan ends there
    without a click.  And no scan ever clicks a position that
    [isLoopPosition] holds of. *)
Theorem loop_detection :
  (forall cfg st now lastWords clicked clickedAt button rest target more,
     SmartAuto.isOnCooldown cfg st now button = false ->
     Agent.find lastWords button Agent.defaultOptions = target :: more ->
     SmartAuto.loopThreshold cfg <=
       Z.of_nat (length (List.filter
         (SmartAuto.nearAndRecent now (Agent.word_x target) (Agent.word_y target))
         (SmartAuto.recentClicks st))) ->
     SmartAuto.scanButtons cfg now lastWords clicked clickedAt (button :: rest) st =
       SmartAuto.scanButtons cfg now lastWords clicked clickedAt rest
         (SmartAuto.countLoopAvoided st)
     /\ SmartAuto.loopsAvoided (SmartAuto.countLoopAvoided st) =
          SmartAuto.loopsAvoided st + 1
     /\ (Forall (fun b => Agent.find lastWords b Agent.defaultOptions = []) rest ->
          SmartAuto.scanButtons cfg now lastWords clicked clickedAt (button :: rest) st =
            (SmartAuto.countLoopAvoided st, SmartAuto.NoClick)))
  /\
  (forall cfg st seen now clicked clickedAt st' button x y,
     SmartAuto.smartScan cfg st seen now clicked clickedAt =
       (st', SmartAuto.Clicked button x y) ->
     SmartAuto.isLoopPosition cfg st now x y = false)
  /\
  (forall cfg st now lastWords clicked clickedAt button rest,
     SmartAuto.isOnCooldown cfg st now button = true ->
     SmartAuto.scanButtons cfg now lastWords clicked clickedAt (button :: rest) st =
       SmartAuto.scanButtons cfg now lastWords clicked clickedAt rest st
     /\ (Forall (fun b => Agent.find lastWords b Agent.defaultOptions = []) rest ->
          SmartAuto.scanButtons cfg now lastWords clicked clickedAt (button :: rest) st =
            (st, SmartAuto.NoClick))).
Proof.
  split; [| split].
  - intros cfg st now lastWords clicked clickedAt button rest target more
           Hcool Hfind Hcount.
    pose proof (scanButtons_loop cfg now lastWords clicked clickedAt button rest st
                  target more Hcool Hfind Hcount) as Hstep.
    split; [exact Hstep |]. split; [reflexivity |].
    intros Hnone. rewrite Hstep. now apply scanButtons_none.
  - intros cfg st seen now clicked clickedAt st' button x y Hscan.
    unfold SmartAuto.smartScan in Hscan.
    destruct seen as [lastWords | e]; [| discriminate].
    now destruct (scanButtons_clicked cfg _ _ _ _ _ _ _ _ _ _ Hscan) as (_ & Hloop & _).
  - intros cfg st now lastWords clicked clickedAt button rest Hcool.
    assert (Hstep : SmartAuto.scanButtons cfg now lastWords clicked clickedAt
                      (button :: rest) st
                    = SmartAuto.scanButtons cfg now lastWords clicked clickedAt rest st)
      by (cbn [SmartAuto.scanButtons]; now rewrite Hcool).
    split; [exact Hstep |].
    intros Hnone. rewrite Hstep. now apply scanButtons_none.
Qed.

(** The counterexample of C3: "Continue" is clicked three times at
    (1300, 700), as soon as its cooldown allows, the last time at 21.4 s.
    At 25.4 s it is read at (1310, 705): three clicks less than 30 seconds
    old lie within 50 pixels, so the position is a loop position, but the
    button is still on cooldown: the scan clicks nothing and [loopsAvoided]
    stays 0. *)
Lemma cooldown_hides_loop :
  let st := SmartRun.runScans SmartAuto.CONFIG (SmartAuto.initialState None)
              SmartRun.sameButtonTicks in
  let now := SmartAuto.someTime + 25400 in
  let screen := SmartAuto.screenWith "Continue" 1310 705 in
  map (fun c => (SmartAuto.click_x c, SmartAuto.click_y c,
                 SmartAuto.click_time c - SmartAuto.someTime, SmartAuto.click_button c))
      (SmartAuto.recentClicks st)
  = [(1300, 700, 200, "Continue"); (1300, 700, 10800, "Continue");
     (1300, 700, 21400, "Continue")] /\
  Agent.find screen "Continue" Agent.defaultOptions = screen /\
  SmartAuto.isLoopPosition SmartAuto.CONFIG st now 1310 705 = true /\
  SmartAuto.isOnCooldown SmartAuto.CONFIG st now "Continue" = true /\
  SmartAuto.smartScan SmartAuto.CONFIG st (Agent.Done screen) now (Agent.Done [])
    (now + 200) = (st, SmartAuto.NoClick) /\
  SmartAuto.loopsAvoided st = 0 /\
  SmartAuto.loopsAvoided
    (fst (SmartAuto.smartScan SmartAuto.CONFIG st (Agent.Done screen) now (Agent.Done [])
            (now + 200)))
  <> SmartAuto.loopsAvoided st + 1.
Proof. vm_compute. repeat split; try reflexivity. discriminate. Qed.

(** The witness of C3: three clicks at (1300, 700) at 1, 5 and 9 seconds,
    then at 14 seconds "Allow" is read at (1310, 705). *)
Lemma loop_detection_witness :
  let st := SmartAuto.afterThreeClicks SmartAuto.someTime in
  SmartAuto.smartScan SmartAuto.CONFIG st
    (Agent.Done (SmartAuto.screenWith "Allow" 1310 705))
    (SmartAuto.someTime + 14000) (Agent.Done []) (SmartAuto.someTime + 14100) =
    (SmartAuto.countLoopAvoided st, SmartAuto.NoClick)
  /\ SmartAuto.loopsAvoided (SmartAuto.countLoopAvoided st) = SmartAuto.loopsAvoided st + 1.
Proof.
  cbv zeta.
  destruct loop_detection as [suppressed _].
  destruct (suppressed SmartAuto.CONFIG
              (SmartAuto.afterThreeClicks SmartAuto.someTime)
              (SmartAuto.someTime + 14000)
              (SmartAuto.screenWith "Allow" 1310 705)
              (Agent.Done []) (SmartAuto.someTime + 14100)
              "Allow" ["Continue"; "Keep"; "Yes"; "OK"; "Run"; "Proceed"; "Accept"]
              {| Agent.word_text := "Allow"; Agent.word_x := 1310; Agent.word_y := 705;
                 Agent.word_lineIdx := 0 |} [])
    as (_ & Hone & Hsole).
  - vm_compute; reflexivity.
  - vm_compute; reflexivity.
  - vm_compute; discriminate.
  - split; [| exact Hone].
    apply Hsole. repeat constructor.
Defined.

(** C4.  Per-pattern cooldown.  [recordClick] stores the time of the
    click under the button.  While less than [buttonCooldown] has passed
    since a recorded (non-zero) click time, [isOnCooldown] holds and no
    scan, whatever the screen shows and wherever, ends in a click of that
    button.  Once [buttonCooldown] has passed, [isOnCooldown] fails, and
    the button, found at a position that is no loop position, is clicked
    there. *)
Theorem pattern_cooldown :
  (forall st button x y t0,
     SmartAuto.lastClickTime (SmartAuto.recordClick st t0 button x y) !! button = Some t0)
  /\
  (forall cfg st button t0 now,
     SmartAuto.lastClickTime st !! button = Some t0 -> t0 <> 0 ->
     now - t0 < SmartAuto.buttonCooldown cfg ->
     SmartAuto.isOnCooldown cfg st now button = true /\
     forall seen clicked clickedAt st' x y,
       SmartAuto.smartScan cfg st seen now clicked clickedAt <>
         (st', SmartAuto.Clicked button x y))
  /\
  (forall cfg st button t0 now,
     SmartAuto.lastClickTime st !! button = Some t0 ->
     SmartAuto.buttonCooldown cfg <= now - t0 ->
     SmartAuto.isOnCooldown cfg st now button = false /\
     forall lastWords ws clickedAt rest target more,
       Agent.find lastWords button Agent.defaultOptions = target :: more ->
       SmartAuto.isLoopPosition cfg st now (Agent.word_x target) (Agent.word_y target)
         = false ->
       SmartAuto.scanButtons cfg now lastWords (Agent.Done ws) clickedAt
         (button :: rest) st =
         (SmartAuto.recordClick st clickedAt button
            (Agent.word_x target) (Agent.word_y target),
          SmartAuto.Clicked button (Agent.word_x target) (Agent.word_y target))).
Proof.
  split; [| split].
  - intros st button x y t0. cbn. apply lookup_insert_eq.
  - intros cfg st button t0 now Hlast Hnz Hlt.
    pose proof (isOnCooldown_within cfg st now button t0 Hlast Hnz Hlt) as Hcool.
    split; [exact Hcool |].
    intros seen clicked clickedAt st' x y Hscan.
    unfold SmartAuto.smartScan in Hscan.
    destruct seen as [lastWords | e]; [| discriminate].
    destruct (scanButtons_clicked cfg _ _ _ _ _ _ _ _ _ _ Hscan) as (Hfree & _).
    congruence.
  - intros cfg st button t0 now Hlast Hge.
    pose proof (isOnCooldown_elapsed cfg st now button t0 Hlast Hge) as Hfree.
    split; [exact Hfree |].
    intros lastWords ws clickedAt rest target more Hfind Hloop.
    now apply scanButtons_click with (more := more).
Qed.

(** The witness of C4: "Allow" clicked at [someTime]; five seconds later
    it is read 60 pixels off and passed over; eleven seconds later it is
    clicked where it is read. *)
Lemma pattern_cooldown_witness :
  SmartAuto.smartScan SmartAuto.CONFIG SmartAuto.afterAllowClick
    (Agent.Done (SmartAuto.screenWith "Allow" 700 500))
    (SmartAuto.someTime + 5000) (Agent.Done []) (SmartAuto.someTime + 5100) =
    (SmartAuto.afterAllowClick, SmartAuto.NoClick)
  /\
  snd (SmartAuto.smartScan SmartAuto.CONFIG SmartAuto.afterAllowClick
         (Agent.Done (SmartAuto.screenWith "Allow" 700 500))
         (SmartAuto.someTime + 11000) (Agent.Done []) (SmartAuto.someTime + 11100)) =
    SmartAuto.Clicked "Allow" 700 500.
Proof.
  destruct pattern_cooldown as (recorded & within & elapsed).
  pose proof (recorded (SmartAuto.initialState None) "Allow" 640 480 SmartAuto.someTime)
    as Hlast.
  split.
  - destruct (within SmartAuto.CONFIG SmartAuto.afterAllowClick "Allow"
                SmartAuto.someTime (SmartAuto.someTime + 5000) Hlast
                ltac:(vm_compute; discriminate) ltac:(vm_compute; reflexivity))
      as [_ Hnever].
    specialize (Hnever (Agent.Done (SmartAuto.screenWith "Allow" 700 500))
                  (Agent.Done []) (SmartAuto.someTime + 5100)).
    vm_compute. reflexivity.
  - destruct (elapsed SmartAuto.CONFIG SmartAuto.afterAllowClick "Allow"
                SmartAuto.someTime (SmartAuto.someTime + 11000) Hlast
                ltac:(vm_compute; discriminate))
      as [_ Hclick].
    unfold SmartAuto.smartScan. cbn [SmartAuto.buttons SmartAuto.CONFIG].
    rewrite (Hclick (SmartAuto.screenWith "Allow" 700 500) [] (SmartAuto.someTime + 11100)
               ["Continue"; "Keep"; "Yes"; "OK"; "Run"; "Proceed"; "Accept"]
               {| Agent.word_text := "Allow"; Agent.word_x := 700; Agent.word_y := 500;
                  Agent.word_lineIdx := 0 |} []
               ltac:(vm_compute; reflexivity) ltac:(vm_compute; reflexivity)).
    reflexivity.
Defined.

(** ** The agent's requests *)

Section AgentFacts.
Variable world : Agent.World.

Lemma see_done (a : Agent.State) (ws : list Agent.Word) :
  world (length (Agent.requests a)) = Agent.Done ws ->
  Agent.see world a =
    (Agent.Return ws,
     {| Agent.lastWords := ws;
        Agent.requests := (Agent.requests a ++ [Agent.PSee])%list;
        Agent.begun := Agent.begun a |}).
Proof.
  intros Hw. unfold Agent.see, Agent.bind, Agent.request. now rewrite Hw.
Qed.

Lemma see_throws (a : Agent.State) (e : string) :
  world (length (Agent.requests a)) = Agent.Throws e ->
  Agent.see world a =
    (Agent.Throw e,
     {| Agent.lastWords := Agent.lastWords a;
        Agent.requests := (Agent.requests a ++ [Agent.PSee])%list;
        Agent.begun := Agent.begun a |}).
Proof.
  intros Hw. unfold Agent.see, Agent.bind, Agent.request. now rewrite Hw.
Qed.

Lemma click_done (a : Agent.State) (x y : Z) (ws : list Agent.Word) :
  world (length (Agent.requests a)) = Agent.Done ws ->
  Agent.click world x y a =
    (Agent.Return tt,
     {| Agent.lastWords := Agent.lastWords a;
        Agent.requests := (Agent.requests a ++ [Agent.PClick x y])%list;
        Agent.begun := Agent.begun a |}).
Proof.
  intros Hw. unfold Agent.click, Agent.bind, Agent.request, Agent.ret. now rewrite Hw.
Qed.

Lemma click_throws (a : Agent.State) (x y : Z) (e : string) :
  world (length (Agent.requests a)) = Agent.Throws e ->
  Agent.click world x y a =
    (Agent.Throw e,
     {| Agent.lastWords := Agent.lastWords a;
        Agent.requests := (Agent.requests a ++ [Agent.PClick x y])%list;
        Agent.begun := Agent.begun a |}).
Proof.
  intros Hw. unfold Agent.click, Agent.bind, Agent.request, Agent.ret. now rewrite Hw.
Qed.

(** Whatever [see] returns, it made one request. *)
Lemma see_requests (a : Agent.State) :
  Agent.requests (snd (Agent.see world a)) = (Agent.requests a ++ [Agent.PSee])%list.
Proof.
  unfold Agent.see, Agent.bind, Agent.request.
  destruct (world (length (Agent.requests a))); reflexivity.
Qed.

End AgentFacts.

(** ** Learned positions in the gateway *)

Section ClickOnFacts.
Variable world : Agent.World.

(** [handleClickOn] when the text is read on screen and the click on it
    succeeds. *)
Lemma handleClickOn_live (st : Gateway.State) (now : Z) (text : string)
    (options : Agent.FindOptions) ws target more wsc :
  world (length (Agent.requests (Gateway.agent st))) = Agent.Done ws ->
  Agent.find ws text options = target :: more ->
  world (S (length (Agent.requests (Gateway.agent st)))) = Agent.Done wsc ->
  let st' := Gateway.handleClickOn world st now text options in
  let pos := {| Gateway.pos_x := Agent.word_x target;
                Gateway.pos_y := Agent.word_y target;
                Gateway.pos_seenAt := now |} in
  Gateway.learnedPositions (Gateway.session st') =
    <[ text := pos ]> (Gateway.learnedPositions (Gateway.session st)) /\
  (Gateway.writable (Gateway.disk st) = true ->
   Gateway.sessionFile (Gateway.disk st') = Some (Gateway.Json (Gateway.session st'))) /\
  Agent.requests (Gateway.agent st') =
    (Agent.requests (Gateway.agent st)
       ++ [Agent.PSee; Agent.PClick (Agent.word_x target) (Agent.word_y target)])%list /\
  Gateway.outbox st' =
    (Gateway.outbox st
       ++ [Gateway.ClickOnResult text true false
             (Some (Agent.word_x target, Agent.word_y target))])%list.
Proof.
  intros Hsee Hfind Hclick. cbv zeta.
  unfold Gateway.handleClickOn.
  rewrite (see_done world _ ws Hsee). cbn [Agent.lastWords].
  rewrite Hfind.
  rewrite (click_done world _ _ _ wsc)
    by (cbn [Agent.requests]; rewrite length_app; cbn [length];
        rewrite Nat.add_1_r; exact Hclick).
  cbn [Agent.requests Agent.lastWords].
  unfold Gateway.saveSession.
  cbn [Gateway.disk Gateway.setSession Gateway.setAgent].
  destruct (Gateway.writable (Gateway.disk st)) eqn:Hw; cbn;
    rewrite <- app_assoc; cbn; repeat split; try reflexivity; discriminate.
Qed.

(** [handleClickOn] when the text is not read on screen, a position is
    on record for it, and the click there succeeds. *)
Lemma handleClickOn_fallback (st : Gateway.State) (now : Z) (text : string)
    (options : Agent.FindOptions) learned ws wsc :
  Gateway.learnedPositions (Gateway.session st) !! text = Some learned ->
  world (length (Agent.requests (Gateway.agent st))) = Agent.Done ws ->
  Agent.find ws text options = [] ->
  world (S (length (Agent.requests (Gateway.agent st)))) = Agent.Done wsc ->
  let st' := Gateway.handleClickOn world st now text options in
  Agent.requests (Gateway.agent st') =
    (Agent.requests (Gateway.agent st)
       ++ [Agent.PSee; Agent.PClick (Gateway.pos_x learned) (Gateway.pos_y learned)])%list /\
  Gateway.session st' = Gateway.session st /\
  Gateway.outbox st' =
    (Gateway.outbox st
       ++ [Gateway.ClickOnResult text true true
             (Some (Gateway.pos_x learned, Gateway.pos_y learned))])%list.
Proof.
  intros Hlearned Hsee Hfind Hclick. cbv zeta.
  unfold Gateway.handleClickOn.
  rewrite (see_done world _ ws Hsee). cbn [Agent.lastWords].
  rewrite Hfind. cbn [Gateway.session Gateway.setAgent]. rewrite Hlearned.
  rewrite (click_done world _ _ _ wsc)
    by (cbn [Agent.requests]; rewrite length_app; cbn [length];
        rewrite Nat.add_1_r; exact Hclick).
  cbn. rewrite <- app_assoc. repeat split; reflexivity.
Qed.

End ClickOnFacts.

(** C5.  Learned-position round trip and fallback.  A click-by-text
    that reads the text on screen and clicks it stores the clicked position
    under the text and saves the session.  On any later click-by-text for
    the same text, in a state that still holds that entry, the screen is
    read first: if the text is read again the click goes to where it is
    read now; if it is not, the click goes to the stored position and the
    reply says the learned position was used. *)
Theorem learned_position_round_trip
    (world : Agent.World) (st : Gateway.State) (now : Z) (text : string)
    (options : Agent.FindOptions) (ws : list Agent.Word)
    (target : Agent.Word) (more wsc : list Agent.Word) :
  world (length (Agent.requests (Gateway.agent st))) = Agent.Done ws ->
  Agent.find ws text options = target :: more ->
  world (S (length (Agent.requests (Gateway.agent st)))) = Agent.Done wsc ->
  let st1 := Gateway.handleClickOn world st now text options in
  let pos := {| Gateway.pos_x := Agent.word_x target;
                Gateway.pos_y := Agent.word_y target;
                Gateway.pos_seenAt := now |} in
  Gateway.learnedPositions (Gateway.session st1) !! text = Some pos /\
  (Gateway.writable (Gateway.disk st) = true ->
   Gateway.sessionFile (Gateway.disk st1) = Some (Gateway.Json (Gateway.session st1))) /\
  forall st2 now' options' ws' wsc',
    Gateway.learnedPositions (Gateway.session st2) !! text = Some pos ->
    world (length (Agent.requests (Gateway.agent st2))) = Agent.Done ws' ->
    world (S (length (Agent.requests (Gateway.agent st2)))) = Agent.Done wsc' ->
    let st3 := Gateway.handleClickOn world st2 now' text options' in
    (Agent.find ws' text options' = [] ->
     Agent.requests (Gateway.agent st3) =
       (Agent.requests (Gateway.agent st2)
          ++ [Agent.PSee; Agent.PClick (Agent.word_x target) (Agent.word_y target)])%list /\
     Gateway.outbox st3 =
       (Gateway.outbox st2
          ++ [Gateway.ClickOnResult text true true
                (Some (Agent.word_x target, Agent.word_y target))])%list) /\
    (forall target' more',
       Agent.find ws' text options' = target' :: more' ->
       Agent.requests (Gateway.agent st3) =
         (Agent.requests (Gateway.agent st2)
            ++ [Agent.PSee; Agent.PClick (Agent.word_x target') (Agent.word_y target')])%list).
Proof.
  intros Hsee Hfind Hclick. cbv zeta.
  destruct (handleClickOn_live world st now text options ws target more wsc
              Hsee Hfind Hclick) as (Hlearned & Hsaved & _ & _).
  split; [| split].
  - rewrite Hlearned. apply lookup_insert_eq.
  - exact Hsaved.
  - intros st2 now' options' ws' wsc' Hkept Hsee' Hclick'. split.
    + intros Hnone.
      destruct (handleClickOn_fallback world st2 now' text options' _ ws' wsc'
                  Hkept Hsee' Hnone Hclick') as (Hreq & _ & Hout).
      split; assumption.
    + intros target' more' Hfind'.
      now destruct (handleClickOn_live world st2 now' text options' ws' target' more' wsc'
                      Hsee' Hfind' Hclick') as (_ & _ & Hreq & _).
Qed.

(** The witness of C5: "Submit" is read and clicked at (400, 300); the
    next click-by-text reads an empty screen and clicks (400, 300). *)
Lemma learned_position_round_trip_witness :
  let st0 := Gateway.startup Gateway.emptyDisk Gateway.someTime in
  let st1 := Gateway.handleClickOn Gateway.submitOnce st0 (Gateway.someTime + 5)
               "Submit" Agent.defaultOptions in
  let st2 := Gateway.handleClickOn Gateway.submitOnce st1 (Gateway.someTime + 9000)
               "Submit" Agent.defaultOptions in
  Gateway.learnedPositions (Gateway.session st1) !! "Submit" =
    Some {| Gateway.pos_x := 400; Gateway.pos_y := 300;
            Gateway.pos_seenAt := Gateway.someTime + 5 |} /\
  Gateway.sessionFile (Gateway.disk st1) = Some (Gateway.Json (Gateway.session st1)) /\
  Agent.requests (Gateway.agent st2) =
    [Agent.PSee; Agent.PClick 400 300; Agent.PSee; Agent.PClick 400 300].
Proof.
  cbv zeta.
  destruct (learned_position_round_trip Gateway.submitOnce
              (Gateway.startup Gateway.emptyDisk Gateway.someTime)
              (Gateway.someTime + 5) "Submit" Agent.defaultOptions
              [ {| Agent.word_text := "Submit"; Agent.word_x := 400;
                   Agent.word_y := 300; Agent.word_lineIdx := 8 |} ]
              {| Agent.word_text := "Submit"; Agent.word_x := 400;
                 Agent.word_y := 300; Agent.word_lineIdx := 8 |} [] []
              ltac:(reflexivity) ltac:(vm_compute; reflexivity) ltac:(reflexivity))
    as (Hlearned & Hsaved & Hlater).
  split; [exact Hlearned |]. split; [apply Hsaved; reflexivity |].
  destruct (Hlater _ (Gateway.someTime + 9000) Agent.defaultOptions [] []
              Hlearned ltac:(reflexivity) ltac:(reflexivity)) as [Hfallback _].
  destruct (Hfallback ltac:(reflexivity)) as [Hreq _].
  rewrite Hreq. reflexivity.
Defined.

(** ** Which operations write learned positions *)

Section LearnedFacts.
Variable world : Agent.World.

(** The sweep of [handleSee] over its patterns, entry by entry. *)
Lemma rememberSeen_lookup (lastWords : list Agent.Word) (now : Z)
    (patterns : list string) :
  forall (learned : gmap string Gateway.LearnedPosition) (k : string),
    fold_left (Gateway.rememberSeen lastWords now) patterns learned !! k =
    match (if bool_decide (k ∈ patterns) then Gateway.sighted lastWords now k else None) with
    | Some p => Some p
    | None => learned !! k
    end.
Proof.
  induction patterns as [| p patterns IH]; intros learned k; cbn [fold_left].
  - rewrite bool_decide_eq_false_2 by (apply not_elem_of_nil). reflexivity.
  - rewrite IH.
    destruct (bool_decide_reflect (k ∈ patterns)) as [Hin | Hnotin].
    + rewrite bool_decide_eq_true_2 by (apply elem_of_cons; now right).
      destruct (Gateway.sighted lastWords now k) eqn:Hs; [reflexivity |].
      unfold Gateway.rememberSeen, Gateway.sighted in *.
      destruct (Agent.find lastWords p Agent.defaultOptions) as [| m ms] eqn:Hp;
        [reflexivity |].
      destruct (decide (p = k)) as [-> | Hne].
      * rewrite Hp in Hs. discriminate.
      * now rewrite lookup_insert_ne.
    + destruct (decide (p = k)) as [-> | Hne].
      * rewrite bool_decide_eq_true_2 by (apply elem_of_cons; now left).
        unfold Gateway.rememberSeen, Gateway.sighted.
        destruct (Agent.find lastWords k Agent.defaultOptions) as [| m ms];
          [reflexivity |].
        apply lookup_insert_eq.
      * rewrite bool_decide_eq_false_2
          by (intros Hin; apply elem_of_cons in Hin as [Heq | Hin]; [congruence | contradiction]).
        unfold Gateway.rememberSeen.
        destruct (Agent.find lastWords p Agent.defaultOptions) as [| m ms];
          [reflexivity |].
        now rewrite lookup_insert_ne.
Qed.

Lemma handleSee_learned (st : Gateway.State) (now : Z) :
  Gateway.learnedPositions (Gateway.session (Gateway.handleSee world st now)) =
    Gateway.learnedPositions (Gateway.session st)
  \/
  exists ws,
    fst (Agent.see world (Gateway.agent st)) = Agent.Return ws /\
    forall k,
      Gateway.learnedPositions (Gateway.session (Gateway.handleSee world st now)) !! k =
      match (if bool_decide (k ∈ Gateway.seePatterns)
             then Gateway.sighted ws now k else None) with
      | Some p => Some p
      | None => Gateway.learnedPositions (Gateway.session st) !! k
      end.
Proof.
  unfold Gateway.handleSee.
  destruct (world (length (Agent.requests (Gateway.agent st)))) as [ws | e] eqn:Hw.
  - right. exists ws. rewrite (see_done world _ ws Hw). split; [reflexivity |].
    intros k. cbn [Agent.lastWords].
    unfold Gateway.saveSession.
    destruct (Gateway.writable _);
      exact (rememberSeen_lookup ws now Gateway.seePatterns _ k).
  - left. rewrite (see_throws world _ e Hw). reflexivity.
Qed.

Lemma handleClickOn_learned (st : Gateway.State) (now : Z) (text : string)
    (options : Agent.FindOptions) :
  Gateway.session (Gateway.handleClickOn world st now text options) = Gateway.session st
  \/
  exists target,
    Gateway.clickedLive world st text options target /\
    Gateway.learnedPositions
      (Gateway.session (Gateway.handleClickOn world st now text options)) =
      <[ text := {| Gateway.pos_x := Agent.word_x target;
                    Gateway.pos_y := Agent.word_y target;
                    Gateway.pos_seenAt := now |} ]>
        (Gateway.learnedPositions (Gateway.session st)).
Proof.
  destruct (world (length (Agent.requests (Gateway.agent st)))) as [ws | e] eqn:Hsee.
  2:{ left. unfold Gateway.handleClickOn. now rewrite (see_throws world _ e Hsee). }
  destruct (Agent.find ws text options) as [| target more] eqn:Hfind.
  - left. unfold Gateway.handleClickOn.
    rewrite (see_done world _ ws Hsee). cbn [Agent.lastWords]. rewrite Hfind.
    destruct (Gateway.learnedPositions _ !! text) as [learned |]; [| reflexivity].
    destruct (Agent.click world _ _ _) as [[[] | e] a2]; reflexivity.
  - destruct (world (S (length (Agent.requests (Gateway.agent st))))) as [wsc | e]
      eqn:Hclick.
    + right. exists target. split; [now exists ws, more, wsc |].
      now destruct (handleClickOn_live world st now text options ws target more wsc
                      Hsee Hfind Hclick) as (Hl & _).
    + left. unfold Gateway.handleClickOn.
      rewrite (see_done world _ ws Hsee). cbn [Agent.lastWords]. rewrite Hfind.
      rewrite (click_throws world _ _ _ e)
        by (cbn [Agent.requests]; rewrite length_app; cbn [length];
            rewrite Nat.add_1_r; exact Hclick).
      reflexivity.
Qed.

(** Every other message, and every other event, leaves the learned
    positions as they are. *)
Lemma handleMessage_other_learned (st : Gateway.State) (now : Z) (msg : Gateway.ClientMsg) :
  msg <> Gateway.See ->
  (forall text options, msg <> Gateway.ClickOnText text options) ->
  Gateway.learnedPositions (Gateway.session (Gateway.handleMessage world st now msg)) =
  Gateway.learnedPositions (Gateway.session st).
Proof.
  intros Hsee Hclick.
  destruct msg; cbn [Gateway.handleMessage]; try reflexivity; try contradiction.
  - unfold Gateway.handleClick. destruct (Agent.click _ _ _ _) as [[[] | e] a]; reflexivity.
  - now specialize (Hclick text options).
  - unfold Gateway.handleType. destruct (Agent.type _ _ _) as [[[] | e] a]; reflexivity.
  - unfold Gateway.handleHotkey. destruct (Agent.hotkey _ _ _) as [[[] | e] a]; reflexivity.
  - unfold Gateway.handleUrlBar. destruct (Agent.urlBar _ _ _) as [[[] | e] a]; reflexivity.
  - unfold Gateway.handleTask. cbv zeta.
    cbn [Gateway.currentTask Gateway.send Gateway.setTasks].
    destruct (Gateway.currentTask st); [reflexivity |].
    unfold Gateway.processTaskQueue. cbn [Gateway.taskQueue Gateway.send Gateway.setTasks].
    destruct (Gateway.byPriority _); reflexivity.
  - destruct (String.eqb type "clicked"); reflexivity.
  - destruct (Gateway.autonomousProcess st); reflexivity.
  - destruct (Gateway.autonomousProcess st); reflexivity.
  - unfold Gateway.saveSession. destruct (Gateway.writable _); reflexivity.
Qed.

Lemma completeTask_session (st : Gateway.State) (now : Z) :
  Gateway.session (Gateway.completeTask world st now) = Gateway.session st.
Proof.
  unfold Gateway.completeTask.
  destruct (Gateway.currentTask st) as [t |]; [| reflexivity].
  destruct (Gateway.task_status t); try reflexivity.
  destruct (Agent.execute world (Gateway.task_actions t) (Gateway.agent st)) as [r a].
  reflexivity.
Qed.

Lemma processTaskQueue_session (st : Gateway.State) (now : Z) :
  Gateway.session (Gateway.processTaskQueue st now) = Gateway.session st.
Proof.
  unfold Gateway.processTaskQueue. destruct (Gateway.taskQueue st); reflexivity.
Qed.

End LearnedFacts.

Section SmartLearnedFacts.
Variable cfg : SmartAuto.Config.

(** A scan changes [learned] only by the [recordClick] of its click. *)
Lemma scanButtons_learned now lastWords clicked clickedAt (todo : list string) :
  forall st st' r,
    SmartAuto.scanButtons cfg now lastWords clicked clickedAt todo st = (st', r) ->
    match r with
    | SmartAuto.Clicked button x y =>
        SmartAuto.learned st' =
          <[ button := {| SmartAuto.learned_x := x; SmartAuto.learned_y := y;
                          SmartAuto.learned_lastSeen := clickedAt |} ]>
            (SmartAuto.learned st)
    | _ => SmartAuto.learned st' = SmartAuto.learned st
    end.
Proof.
  induction todo as [| b rest IH]; intros st st' r Hscan;
    cbn [SmartAuto.scanButtons] in Hscan.
  - now inversion Hscan.
  - destruct (SmartAuto.isOnCooldown cfg st now b); [now apply IH |].
    destruct (Agent.find lastWords b Agent.defaultOptions) as [| target more];
      [now apply IH |].
    destruct (SmartAuto.isLoopPosition cfg st now _ _).
    + apply IH in Hscan. exact Hscan.
    + destruct clicked as [ws | e]; inversion Hscan; subst; reflexivity.
Qed.

End SmartLearnedFacts.

(** C9, as the code has it.  In the gateway every event leaves the
    learned positions as they are, except a click-by-text that reads the
    text on screen and clicks it successfully, which writes that text's
    entry and no other, and an observation ([see]) that succeeds, which
    writes the entry of each of its patterns that it sights and no other.
    A click-by-text whose click throws leaves the session as it is.  In
    smart-auto.js a scan changes [learned] only when it ends in a
    successful click, and then at the clicked button's entry only. *)
Theorem learned_positions_frame :
  (forall world st e,
     let st' := Gateway.step world st e in
     Gateway.learnedPositions (Gateway.session st') =
       Gateway.learnedPositions (Gateway.session st)
     \/
     (exists now text options target,
        e = Gateway.Message now (Gateway.ClickOnText text options) /\
        Gateway.clickedLive world st text options target /\
        Gateway.learnedPositions (Gateway.session st') =
          <[ text := {| Gateway.pos_x := Agent.word_x target;
                        Gateway.pos_y := Agent.word_y target;
                        Gateway.pos_seenAt := now |} ]>
            (Gateway.learnedPositions (Gateway.session st)))
     \/
     (exists now ws,
        e = Gateway.Message now Gateway.See /\
        fst (Agent.see world (Gateway.agent st)) = Agent.Return ws /\
        forall k,
          Gateway.learnedPositions (Gateway.session st') !! k =
          match (if bool_decide (k ∈ Gateway.seePatterns)
                 then Gateway.sighted ws now k else None) with
          | Some p => Some p
          | None => Gateway.learnedPositions (Gateway.session st) !! k
          end))
  /\
  (forall world st now text options ws target more e,
     world (length (Agent.requests (Gateway.agent st))) = Agent.Done ws ->
     Agent.find ws text options = target :: more ->
     world (S (length (Agent.requests (Gateway.agent st)))) = Agent.Throws e ->
     Gateway.session (Gateway.handleClickOn world st now text options) =
       Gateway.session st)
  /\
  (forall cfg st seen now clicked clickedAt st' r,
     SmartAuto.smartScan cfg st seen now clicked clickedAt = (st', r) ->
     match r with
     | SmartAuto.Clicked button x y =>
         SmartAuto.learned st' =
           <[ button := {| SmartAuto.learned_x := x; SmartAuto.learned_y := y;
                           SmartAuto.learned_lastSeen := clickedAt |} ]>
             (SmartAuto.learned st)
     | _ => SmartAuto.learned st' = SmartAuto.learned st
     end).
Proof.
  split; [| split].
  - intros world st e. cbv zeta.
    destruct e as [now msg | now | now |]; cbn [Gateway.step].
    + destruct msg;
        try (left; apply handleMessage_other_learned;
             [discriminate | intros; discriminate]).
      * cbn [Gateway.handleMessage].
        destruct (handleSee_learned world st now) as [Hsame | (ws & Hsee & Hk)].
        -- left. exact Hsame.
        -- right. right. exists now, ws. auto.
      * cbn [Gateway.handleMessage].
        destruct (handleClickOn_learned world st now text options)
          as [Hsame | (target & Hlive & Hl)].
        -- left. now rewrite Hsame.
        -- right. left. exists now, text, options, target. auto.
    + left. now rewrite completeTask_session.
    + left. destruct (Gateway.timers st); [reflexivity |].
      now rewrite processTaskQueue_session.
    + left. destruct (Gateway.autonomousProcess st); reflexivity.
  - intros world st now text options ws target more e Hsee Hfind Hclick.
    unfold Gateway.handleClickOn.
    rewrite (see_done world _ ws Hsee). cbn [Agent.lastWords]. rewrite Hfind.
    rewrite (click_throws world _ _ _ e)
      by (cbn [Agent.requests]; rewrite length_app; cbn [length];
          rewrite Nat.add_1_r; exact Hclick).
    reflexivity.
  - intros cfg st seen now clicked clickedAt st' r Hscan.
    unfold SmartAuto.smartScan in Hscan.
    destruct seen as [lastWords | e].
    + now apply scanButtons_learned in Hscan.
    + now inversion Hscan.
Qed.

(** The counterexample of C9: an observation that merely sights
    "Continue", no click requested, writes its learned position. *)
Lemma observation_writes_learned_position :
  let st0 := Gateway.startup Gateway.emptyDisk Gateway.someTime in
  let st1 := Gateway.step Gateway.continueShown st0
               (Gateway.Message (Gateway.someTime + 5) Gateway.See) in
  Gateway.learnedPositions (Gateway.session st0) !! "Continue" = None /\
  Gateway.learnedPositions (Gateway.session st1) !! "Continue" =
    Some {| Gateway.pos_x := 1300; Gateway.pos_y := 700;
            Gateway.pos_seenAt := Gateway.someTime + 5 |} /\
  Agent.requests (Gateway.agent st1) = [Agent.PSee].
Proof. vm_compute. repeat split; reflexivity. Qed.

(** The witness of C9: "Continue" is on screen but the click on it
    throws; the session is as before. *)
Lemma learned_positions_frame_witness :
  let world : Agent.World :=
    fun n => match n with
             | O => Gateway.continueShown O
             | _ => Agent.Throws "Command failed: powershell"
             end in
  let st0 := Gateway.startup Gateway.emptyDisk Gateway.someTime in
  Gateway.session (Gateway.handleClickOn world st0 (Gateway.someTime + 5)
                     "Continue" Agent.defaultOptions) = Gateway.session st0.
Proof.
  cbv zeta.
  destruct learned_positions_frame as (_ & failedClick & _).
  apply (failedClick _ _ _ _ _
           [ {| Agent.word_text := "Continue"; Agent.word_x := 1300;
                Agent.word_y := 700; Agent.word_lineIdx := 21 |} ]
           {| Agent.word_text := "Continue"; Agent.word_x := 1300;
              Agent.word_y := 700; Agent.word_lineIdx := 21 |} []
           "Command failed: powershell").
  - reflexivity.
  - vm_compute; reflexivity.
  - reflexivity.
Defined.

(** ** The session file *)

Section SessionFacts.
Variable world : Agent.World.

Lemma saveSession_inSync (st : Gateway.State) :
  Gateway.writable (Gateway.disk st) = true -> Gateway.inSync (Gateway.saveSession st).
Proof.
  intros Hw. unfold Gateway.saveSession, Gateway.inSync. rewrite Hw. split; reflexivity.
Qed.

Lemma inSync_frame (st st' : Gateway.State) :
  Gateway.session st' = Gateway.session st ->
  Gateway.disk st' = Gateway.disk st ->
  Gateway.inSync st -> Gateway.inSync st'.
Proof. unfold Gateway.inSync. intros -> ->. auto. Qed.

Lemma handleSee_inSync (st : Gateway.State) (now : Z) :
  Gateway.inSync st -> Gateway.inSync (Gateway.handleSee world st now).
Proof.
  intros Hs. unfold Gateway.handleSee.
  destruct (Agent.see world (Gateway.agent st)) as [[ws | e] a].
  - destruct Hs as [Hw _]. unfold Gateway.inSync, Gateway.saveSession.
    cbn [Gateway.disk Gateway.setSession Gateway.setAgent]. rewrite Hw.
    split; reflexivity.
  - now apply (inSync_frame st).
Qed.

Lemma handleClickOn_inSync (st : Gateway.State) (now : Z) text options :
  Gateway.inSync st -> Gateway.inSync (Gateway.handleClickOn world st now text options).
Proof.
  intros Hs. unfold Gateway.handleClickOn.
  destruct (Agent.see world (Gateway.agent st)) as [[ws | e] a];
    [| now apply (inSync_frame st)].
  destruct (Agent.find (Agent.lastWords a) text options) as [| target more].
  - cbn [Gateway.session Gateway.setAgent].
    destruct (Gateway.learnedPositions (Gateway.session st) !! text) as [learned |];
      [| now apply (inSync_frame st)].
    destruct (Agent.click world _ _ a) as [[[] | e] a2]; now apply (inSync_frame st).
  - destruct (Agent.click world _ _ a) as [[[] | e] a2];
      [| now apply (inSync_frame st)].
    destruct Hs as [Hw _]. unfold Gateway.inSync, Gateway.saveSession.
    cbn [Gateway.disk Gateway.setSession Gateway.setAgent]. rewrite Hw.
    split; reflexivity.
Qed.

Lemma step_inSync (st : Gateway.State) (e : Gateway.Event) :
  Gateway.inSync st -> Gateway.inSync (Gateway.step world st e).
Proof.
  intros Hs. destruct e as [now msg | now | now |]; cbn [Gateway.step].
  - destruct msg; cbn [Gateway.handleMessage];
      try (now apply (inSync_frame st)).
    + now apply handleSee_inSync.
    + unfold Gateway.handleClick.
      destruct (Agent.click _ _ _ _) as [[[] | e] a]; now apply (inSync_frame st).
    + now apply handleClickOn_inSync.
    + unfold Gateway.handleType.
      destruct (Agent.type _ _ _) as [[[] | e] a]; now apply (inSync_frame st).
    + unfold Gateway.handleHotkey.
      destruct (Agent.hotkey _ _ _) as [[[] | e] a]; now apply (inSync_frame st).
    + unfold Gateway.handleUrlBar.
      destruct (Agent.urlBar _ _ _) as [[[] | e] a]; now apply (inSync_frame st).
    + unfold Gateway.handleTask. cbv zeta.
      cbn [Gateway.currentTask Gateway.send Gateway.setTasks].
      destruct (Gateway.currentTask st); [now apply (inSync_frame st) |].
      unfold Gateway.processTaskQueue.
      cbn [Gateway.taskQueue Gateway.send Gateway.setTasks].
      destruct (Gateway.byPriority _); now apply (inSync_frame st).
    + destruct (String.eqb type "clicked"); now apply (inSync_frame st).
    + destruct (Gateway.autonomousProcess st); now apply (inSync_frame st).
    + destruct (Gateway.autonomousProcess st); now apply (inSync_frame st).
    + apply saveSession_inSync. apply Hs.
  - unfold Gateway.completeTask.
    destruct (Gateway.currentTask st) as [t |]; [| exact Hs].
    destruct (Gateway.task_status t); try exact Hs.
    destruct (Agent.execute world (Gateway.task_actions t) (Gateway.agent st)) as [r a].
    now apply (inSync_frame st).
  - destruct (Gateway.timers st); [exact Hs |].
    unfold Gateway.processTaskQueue. cbn [Gateway.taskQueue Gateway.setTasks].
    destruct (Gateway.taskQueue st); now apply (inSync_frame st).
  - destruct (Gateway.autonomousProcess st); now apply (inSync_frame st).
Qed.

Lemma run_inSync (events : list Gateway.Event) :
  forall st, Gateway.inSync st -> Gateway.inSync (Gateway.run world st events).
Proof.
  induction events as [| e events IH]; intros st Hs; cbn.
  - exact Hs.
  - apply IH. now apply step_inSync.
Qed.

End SessionFacts.

(** C8, as the code has it.  The session saved at shutdown is the
    session the next start loads, field by field, the learned positions
    among them; and once the session file holds the session in memory,
    every event keeps it so, so that a restart after any run reloads the
    session of that run.  The statistics are no part of the session: every
    start sets them to zero with a new [uptime].  With no session file, or
    one that does not parse, the start builds the default session. *)
Theorem session_persistence :
  (forall st now',
     Gateway.writable (Gateway.disk st) = true ->
     Gateway.session (Gateway.startup (Gateway.shutdown st) now') = Gateway.session st)
  /\
  (forall world st events now',
     Gateway.inSync st ->
     Gateway.session (Gateway.startup (Gateway.disk (Gateway.run world st events)) now') =
       Gateway.session (Gateway.run world st events))
  /\
  (forall d now',
     Gateway.stats (Gateway.startup d now') =
       {| Gateway.totalActions := 0; Gateway.totalClicks := 0;
          Gateway.totalTypes := 0; Gateway.uptime := now' |})
  /\
  (forall d now,
     Gateway.sessionFile d = None \/ Gateway.sessionFile d = Some Gateway.Unparsable ->
     Gateway.session (Gateway.startup d now) = Gateway.defaultSession now /\
     Gateway.learnedPositions (Gateway.defaultSession now) = ∅).
Proof.
  split; [| split; [| split]].
  - intros st now' Hw. unfold Gateway.shutdown, Gateway.saveSession. rewrite Hw.
    reflexivity.
  - intros world st events now' Hs.
    destruct (run_inSync world events st Hs) as [_ Hfile].
    cbn [Gateway.startup Gateway.session]. unfold Gateway.loadSession.
    now rewrite Hfile.
  - reflexivity.
  - intros d now [Hnone | Hbad]; cbn [Gateway.startup Gateway.session];
      unfold Gateway.loadSession; rewrite ?Hnone, ?Hbad; split; reflexivity.
Qed.

(** The counterexample of C8: one click is counted, the session is saved
    at shutdown, and the next start counts no click. *)
Lemma stats_lost_on_restart :
  let st := Gateway.step Gateway.continueShown
              (Gateway.startup Gateway.emptyDisk Gateway.someTime)
              (Gateway.Message (Gateway.someTime + 5) (Gateway.ClickAt 10 20)) in
  let st' := Gateway.startup (Gateway.shutdown st) (Gateway.someTime + 60000) in
  Gateway.totalClicks (Gateway.stats st) = 1 /\
  Gateway.totalClicks (Gateway.stats st') = 0 /\
  Gateway.session st' = Gateway.session st.
Proof. vm_compute. repeat split; reflexivity. Qed.

(** The witness of C8: "Submit" is learned at (400, 300), the gateway
    shuts down, and the next start has it. *)
Lemma session_persistence_witness :
  let st := Gateway.handleClickOn Gateway.submitOnce
              (Gateway.startup Gateway.emptyDisk Gateway.someTime)
              (Gateway.someTime + 5) "Submit" Agent.defaultOptions in
  let st' := Gateway.startup (Gateway.shutdown st) (Gateway.someTime + 60000) in
  Gateway.session st' = Gateway.session st /\
  Gateway.learnedPositions (Gateway.session st') !! "Submit" =
    Some {| Gateway.pos_x := 400; Gateway.pos_y := 300;
            Gateway.pos_seenAt := Gateway.someTime + 5 |}.
Proof.
  cbv zeta.
  destruct session_persistence as (saved & _).
  pose proof (saved (Gateway.handleClickOn Gateway.submitOnce
                       (Gateway.startup Gateway.emptyDisk Gateway.someTime)
                       (Gateway.someTime + 5) "Submit" Agent.defaultOptions)
                (Gateway.someTime + 60000)) as Hsaved.
  rewrite Hsaved by (vm_compute; reflexivity).
  split; [reflexivity |]. vm_compute. reflexivity.
Defined.

(** ** The task queue *)

Section QueueFacts.

Lemma Forall_insertSorted (P : Gateway.Task -> Prop) (a : Gateway.Task)
    (l : list Gateway.Task) :
  P a -> Forall P l -> Forall P (JS.insertSorted Gateway.comparePriority a l).
Proof.
  intros Ha. induction 1 as [| b l Hb Hl IH]; cbn.
  - now constructor.
  - destruct (Gateway.comparePriority a b <=? 0); repeat constructor; assumption.
Qed.

Lemma Forall_sort (P : Gateway.Task -> Prop) (l : list Gateway.Task) :
  Forall P l -> Forall P (JS.sort Gateway.comparePriority l).
Proof.
  induction 1 as [| a l Ha Hl IH]; cbn.
  - constructor.
  - now apply Forall_insertSorted.
Qed.

(** A task at least as urgent as all of a queue goes in front of it. *)
Lemma insertSorted_front (a : Gateway.Task) (l : list Gateway.Task) :
  Forall (fun b => Gateway.task_priority b <= Gateway.task_priority a) l ->
  JS.insertSorted Gateway.comparePriority a l = a :: l.
Proof.
  destruct 1 as [| b l Hb Hl]; cbn; [reflexivity |].
  unfold Gateway.comparePriority. destruct (Z.leb_spec (Gateway.task_priority b - Gateway.task_priority a) 0);
    [reflexivity | lia].
Qed.

Lemma insertSorted_descending (a : Gateway.Task) (l : list Gateway.Task) :
  Gateway.descending l -> Gateway.descending (JS.insertSorted Gateway.comparePriority a l).
Proof.
  unfold Gateway.descending.
  induction 1 as [| b l Hl IH Hb]; cbn.
  - repeat constructor.
  - unfold Gateway.comparePriority at 1.
    destruct (Z.leb_spec (Gateway.task_priority b - Gateway.task_priority a) 0).
    + constructor; [now constructor |].
      constructor; [lia |].
      eapply Forall_impl; [exact Hb |]. cbn. intros; lia.
    + constructor; [exact IH |].
      apply Forall_insertSorted; [lia | exact Hb].
Qed.

Lemma sort_descending (l : list Gateway.Task) : Gateway.descending (JS.sort Gateway.comparePriority l).
Proof.
  induction l as [| a l IH]; cbn.
  - constructor.
  - now apply insertSorted_descending.
Qed.

Lemma filter_all {A} (f : A -> bool) (l : list A) :
  Forall (fun x => f x = true) l -> List.filter f l = l.
Proof. induction 1 as [| x l Hx _ IH]; cbn; [| rewrite Hx, IH]; reflexivity. Qed.

Lemma filter_none {A} (f : A -> bool) (l : list A) :
  Forall (fun x => f x = false) l -> List.filter f l = [].
Proof. induction 1 as [| x l Hx _ IH]; cbn; [| rewrite Hx, IH]; reflexivity. Qed.

Lemma Forall_filter_keep {A} (P : A -> Prop) (f : A -> bool) (l : list A) :
  Forall P l -> Forall P (List.filter f l).
Proof.
  induction 1 as [| x l Hx _ IH]; cbn; [constructor |].
  destruct (f x); [now constructor | exact IH].
Qed.

(** Where the stable sort puts a task pushed at the end of a sorted
    queue: behind every task of its own or a higher priority, in front of
    every task of a lower one, the others keeping their order. *)
Lemma enqueue_position (t : Gateway.Task) (q : list Gateway.Task) :
  Gateway.descending q ->
  Gateway.byPriority (q ++ [t]) =
    (List.filter (fun a => Gateway.task_priority t <=? Gateway.task_priority a) q
     ++ t :: List.filter (fun a => Gateway.task_priority a <? Gateway.task_priority t) q)%list.
Proof.
  unfold Gateway.byPriority, JS.sort, Gateway.descending.
  rewrite foldr_app. cbn [foldr JS.insertSorted].
  induction 1 as [| a q Hq IH Ha]; cbn [foldr List.filter].
  - reflexivity.
  - rewrite IH.
    destruct (Z.leb_spec (Gateway.task_priority t) (Gateway.task_priority a)) as [Hge | Hlt].
    + destruct (Z.ltb_spec (Gateway.task_priority a) (Gateway.task_priority t)); [lia |].
      apply insertSorted_front.
      apply Forall_app. split.
      * now apply Forall_filter_keep.
      * constructor; [exact Hge |]. now apply Forall_filter_keep.
    + destruct (Z.ltb_spec (Gateway.task_priority a) (Gateway.task_priority t)); [| lia].
      rewrite filter_none, filter_all.
      * cbn [app JS.insertSorted]. unfold Gateway.comparePriority at 1.
        destruct (Z.leb_spec (Gateway.task_priority t - Gateway.task_priority a) 0); [lia |].
        now rewrite insertSorted_front.
      * eapply Forall_impl; [exact Ha |]. cbn. intros b Hb. apply Z.ltb_lt. lia.
      * eapply Forall_impl; [exact Ha |]. cbn. intros b Hb. apply Z.leb_gt. lia.
Qed.

End QueueFacts.

Section QueueInvariant.
Variable world : Agent.World.

Lemma wellFormed_frame (st st' : Gateway.State) :
  Gateway.taskQueue st' = Gateway.taskQueue st ->
  Gateway.currentTask st' = Gateway.currentTask st ->
  Gateway.timers st' = Gateway.timers st ->
  Gateway.tasksWellFormed st -> Gateway.tasksWellFormed st'.
Proof. unfold Gateway.tasksWellFormed. intros -> -> ->. auto. Qed.

Lemma startup_wellFormed (d : Gateway.Disk) (now : Z) :
  Gateway.tasksWellFormed (Gateway.startup d now).
Proof. repeat split; constructor. Qed.

(** What [handleTask] does to the task fields of a well-formed state. *)
Lemma handleTask_tasks (st : Gateway.State) now name actions priority :
  Gateway.tasksWellFormed st ->
  let t := Gateway.newTask now name actions priority in
  let st' := Gateway.handleTask st now name actions priority in
  Gateway.timers st' = Gateway.timers st /\
  match Gateway.currentTask st with
  | Some c =>
      Gateway.currentTask st' = Some c /\
      Gateway.taskQueue st' =
        (List.filter (fun a => Gateway.task_priority t <=? Gateway.task_priority a)
           (Gateway.taskQueue st)
         ++ t :: List.filter (fun a => Gateway.task_priority a <? Gateway.task_priority t)
                   (Gateway.taskQueue st))%list
  | None =>
      Gateway.currentTask st' =
        Some (Gateway.setStatus t Gateway.running (Some now) None None) /\
      Gateway.taskQueue st' = []
  end.
Proof.
  intros (Hsorted & Hqueued & Hcur). cbv zeta.
  unfold Gateway.handleTask. cbv zeta.
  cbn [Gateway.currentTask Gateway.send Gateway.setTasks].
  destruct (Gateway.currentTask st) as [c |].
  - cbn [Gateway.timers Gateway.currentTask Gateway.taskQueue Gateway.send Gateway.setTasks].
    rewrite enqueue_position by exact Hsorted. auto.
  - destruct Hcur as [Hempty Htimers]. rewrite Hempty.
    unfold Gateway.processTaskQueue. cbn. auto.
Qed.

Lemma handleTask_wellFormed (st : Gateway.State) now name actions priority :
  Gateway.tasksWellFormed st ->
  Gateway.tasksWellFormed (Gateway.handleTask st now name actions priority).
Proof.
  intros Hwf.
  pose proof (handleTask_tasks st now name actions priority Hwf) as Htasks.
  cbv zeta in Htasks. destruct Htasks as [Htimers Htasks].
  destruct Hwf as (Hsorted & Hqueued & Hcur).
  unfold Gateway.tasksWellFormed. rewrite Htimers.
  destruct (Gateway.currentTask st) as [c |].
  - destruct Htasks as [Hc Hq]. rewrite Hc, Hq.
    rewrite <- enqueue_position by exact Hsorted.
    split; [apply sort_descending |]. split; [| exact Hcur].
    apply Forall_sort. apply Forall_app. split; [exact Hqueued |].
    now repeat constructor.
  - destruct Htasks as [Hc Hq]. rewrite Hc, Hq.
    split; [constructor |]. split; [constructor |].
    left. split; [reflexivity | apply Hcur].
Qed.

Lemma completeTask_wellFormed (st : Gateway.State) (now : Z) :
  Gateway.tasksWellFormed st -> Gateway.tasksWellFormed (Gateway.completeTask world st now).
Proof.
  intros Hwf. unfold Gateway.completeTask.
  destruct (Gateway.currentTask st) as [t |] eqn:Hcur; [| exact Hwf].
  destruct (Gateway.task_status t) eqn:Hstatus; try exact Hwf.
  destruct (Agent.execute world (Gateway.task_actions t) (Gateway.agent st)) as [r a].
  destruct Hwf as (Hsorted & Hqueued & Hc). rewrite Hcur in Hc.
  destruct Hc as [[_ Htimers] | [[Hbad | Hbad] _]]; [| congruence | congruence].
  unfold Gateway.tasksWellFormed.
  cbn [Gateway.taskQueue Gateway.currentTask Gateway.timers Gateway.send Gateway.setTasks].
  split; [exact Hsorted |]. split; [exact Hqueued |].
  right. rewrite Htimers. split; [| reflexivity].
  destruct r; cbn; auto.
Qed.

Lemma timer_wellFormed (st : Gateway.State) (now : Z) :
  Gateway.tasksWellFormed st ->
  Gateway.tasksWellFormed (Gateway.step world st (Gateway.TimerFired now)).
Proof.
  intros Hwf. cbn [Gateway.step].
  destruct (Gateway.timers st) as [| n] eqn:Htimers; [exact Hwf |].
  destruct Hwf as (Hsorted & Hqueued & Hc).
  assert (Hn : n = O).
  { destruct (Gateway.currentTask st); [| destruct Hc; congruence].
    destruct Hc as [[_ H] | [_ H]]; congruence. }
  subst n. unfold Gateway.processTaskQueue, Gateway.tasksWellFormed.
  cbn [Gateway.taskQueue Gateway.setTasks].
  destruct (Gateway.taskQueue st) as [| t rest].
  - cbn. repeat split; constructor.
  - cbn [Gateway.taskQueue Gateway.currentTask Gateway.timers Gateway.send Gateway.setTasks].
    inversion Hsorted; subst. inversion Hqueued; subst.
    split; [assumption |]. split; [assumption |].
    left. split; reflexivity.
Qed.

Lemma step_wellFormed (st : Gateway.State) (e : Gateway.Event) :
  Gateway.tasksWellFormed st -> Gateway.tasksWellFormed (Gateway.step world st e).
Proof.
  intros Hwf. destruct e as [now msg | now | now |].
  - cbn [Gateway.step].
    destruct msg; cbn [Gateway.handleMessage];
      try (now apply (wellFormed_frame st)).
    + unfold Gateway.handleSee.
      destruct (Agent.see world (Gateway.agent st)) as [[ws | e] a];
        [| now apply (wellFormed_frame st)].
      unfold Gateway.saveSession.
      cbn [Gateway.disk Gateway.setSession Gateway.setAgent].
      destruct (Gateway.writable (Gateway.disk st)); now apply (wellFormed_frame st).
    + unfold Gateway.handleClick.
      destruct (Agent.click _ _ _ _) as [[[] | e] a]; now apply (wellFormed_frame st).
    + unfold Gateway.handleClickOn.
      destruct (Agent.see world (Gateway.agent st)) as [[ws | e] a];
        [| now apply (wellFormed_frame st)].
      destruct (Agent.find (Agent.lastWords a) text options) as [| target more].
      * cbn [Gateway.session Gateway.setAgent].
        destruct (Gateway.learnedPositions (Gateway.session st) !! text) as [learned |];
          [| now apply (wellFormed_frame st)].
        destruct (Agent.click world _ _ a) as [[[] | e] a2];
          now apply (wellFormed_frame st).
      * destruct (Agent.click world _ _ a) as [[[] | e] a2];
          [| now apply (wellFormed_frame st)].
        unfold Gateway.saveSession.
        cbn [Gateway.disk Gateway.setSession Gateway.setAgent].
        destruct (Gateway.writable (Gateway.disk st)); now apply (wellFormed_frame st).
    + unfold Gateway.handleType.
      destruct (Agent.type _ _ _) as [[[] | e] a]; now apply (wellFormed_frame st).
    + unfold Gateway.handleHotkey.
      destruct (Agent.hotkey _ _ _) as [[[] | e] a]; now apply (wellFormed_frame st).
    + unfold Gateway.handleUrlBar.
      destruct (Agent.urlBar _ _ _) as [[[] | e] a]; now apply (wellFormed_frame st).
    + now apply handleTask_wellFormed.
    + destruct (String.eqb type "clicked"); now apply (wellFormed_frame st).
    + destruct (Gateway.autonomousProcess st); now apply (wellFormed_frame st).
    + destruct (Gateway.autonomousProcess st); now apply (wellFormed_frame st).
    + unfold Gateway.saveSession.
      cbn [Gateway.disk Gateway.setSession].
      destruct (Gateway.writable (Gateway.disk st)); now apply (wellFormed_frame st).
  - now apply completeTask_wellFormed.
  - now apply timer_wellFormed.
  - cbn [Gateway.step].
    destruct (Gateway.autonomousProcess st); now apply (wellFormed_frame st).
Qed.

Lemma run_wellFormed (events : list Gateway.Event) :
  forall st, Gateway.tasksWellFormed st ->
             Gateway.tasksWellFormed (Gateway.run world st events).
Proof.
  induction events as [| e events IH]; intros st Hwf; cbn.
  - exact Hwf.
  - apply IH. now apply step_wellFormed.
Qed.


End QueueInvariant.




(** ** A task whose action throws *)

Create HintDb begun discriminated.

Section ExecuteFacts.
Variable world : Agent.World.

Lemma keeps_ret {A} (a : A) : Agent.keepsBegun (Agent.ret a).
Proof. intros s. reflexivity. Qed.

Lemma keeps_bind {A B} (m : Agent.M A) (k : A -> Agent.M B) :
  Agent.keepsBegun m -> (forall a, Agent.keepsBegun (k a)) ->
  Agent.keepsBegun (Agent.bind m k).
Proof.
  intros Hm Hk s. unfold Agent.bind.
  specialize (Hm s). destruct (m s) as [[a | e] s1]; cbn [snd] in *.
  - now rewrite Hk.
  - exact Hm.
Qed.

Lemma keeps_request (p : Agent.Prim) : Agent.keepsBegun (Agent.request world p).
Proof.
  intros s. unfold Agent.request.
  destruct (world (length (Agent.requests s))); reflexivity.
Qed.

Lemma keeps_wait (ms : Z) : Agent.keepsBegun (Agent.wait ms).
Proof. intros s. reflexivity. Qed.

Hint Resolve keeps_ret keeps_request keeps_wait : begun.

Ltac keeps :=
  repeat match goal with
         | |- Agent.keepsBegun (Agent.bind _ _) => apply keeps_bind; [| intros ?]
         end;
  auto with begun.

Lemma keeps_see : Agent.keepsBegun (Agent.see world).
Proof.
  unfold Agent.see. apply keeps_bind; [apply keeps_request |].
  intros ws s. reflexivity.
Qed.

Lemma keeps_click (x y : Z) : Agent.keepsBegun (Agent.click world x y).
Proof. unfold Agent.click. keeps. Qed.

Lemma keeps_type (text : string) : Agent.keepsBegun (Agent.type world text).
Proof. unfold Agent.type. keeps. Qed.

Lemma keeps_press (key : string) : Agent.keepsBegun (Agent.press world key).
Proof. unfold Agent.press. keeps. Qed.

Hint Resolve keeps_see keeps_click keeps_type keeps_press : begun.

Lemma keeps_clickOn text options : Agent.keepsBegun (Agent.clickOn world text options).
Proof.
  intros s. unfold Agent.clickOn.
  destruct (Agent.find (Agent.lastWords s) text options) as [| target more];
    [reflexivity |].
  apply (keeps_bind _ _ (keeps_click _ _) (fun _ => keeps_ret true)).
Qed.

Lemma keeps_hotkey (keys : string) : Agent.keepsBegun (Agent.hotkey world keys).
Proof. unfold Agent.hotkey. auto with begun. Qed.

Hint Resolve keeps_clickOn keeps_hotkey : begun.

Lemma keeps_dispatch (t : Agent.ActionType) : Agent.keepsBegun (Agent.dispatch world t).
Proof.
  destruct t; cbn [Agent.dispatch];
    unfold Agent.urlBar, Agent.searchAndOpen, Agent.search; keeps.
Qed.

(** One turn of the loop records its action, return or throw. *)
Lemma step_begun (action : Agent.Action) (s : Agent.State) :
  Agent.begun (snd (Agent.step world action s)) = (Agent.begun s ++ [action])%list.
Proof.
  unfold Agent.step. unfold Agent.bind at 1.
  match goal with |- context [Agent.bind ?m ?k] =>
    assert (Hk : Agent.keepsBegun (Agent.bind m k)) end.
  { apply keeps_bind; [apply keeps_dispatch |]. intros _.
    destruct (Agent.act_wait action) as [ms |]; [| apply keeps_ret].
    destruct (ms =? 0); auto with begun. }
  now rewrite Hk.
Qed.

(** A list of actions that runs to its end has begun exactly these. *)
Lemma execute_begun (actions : list Agent.Action) :
  forall s s',
    Agent.execute world actions s = (Agent.Return tt, s') ->
    Agent.begun s' = (Agent.begun s ++ actions)%list.
Proof.
  induction actions as [| a rest IH]; intros s s' Hrun; cbn [Agent.execute] in Hrun.
  - inversion Hrun. now rewrite app_nil_r.
  - unfold Agent.bind in Hrun.
    pose proof (step_begun a s) as Ha.
    destruct (Agent.step world a s) as [[[] | e] s1]; [| discriminate].
    cbn [snd] in Ha. apply IH in Hrun. rewrite Hrun, Ha.
    now rewrite <- app_assoc.
Qed.

(** An action that throws ends the list there. *)
Lemma execute_throw (before after : list Agent.Action) (a : Agent.Action) :
  forall s s1 s2 e,
    Agent.execute world before s = (Agent.Return tt, s1) ->
    Agent.step world a s1 = (Agent.Throw e, s2) ->
    Agent.execute world (before ++ a :: after) s = (Agent.Throw e, s2).
Proof.
  induction before as [| b before IH]; intros s s1 s2 e Hbefore Hstep;
    cbn [Agent.execute app] in *.
  - inversion Hbefore; subst. unfold Agent.bind. now rewrite Hstep.
  - unfold Agent.bind in *.
    destruct (Agent.step world b s) as [[[] | e'] s'].
    + now apply IH with (s1 := s1).
    + discriminate.
Qed.

End ExecuteFacts.

(** C7, as the code has it.  Task step failure.  In a state the gateway
    reaches with a task running whose actions run normally up to one that
    throws, the end of its execution leaves the task as the current one with
    status failed and the thrown message, whatever it is, as its error; the
    actions begun are those before the
    throwing one and that one, none after it; the task is announced as
    completed; and the event loop goes on: the timer that follows starts
    the head of the queue, or clears the current task when nothing is
    queued. *)
Theorem task_step_failure (world : Agent.World) (d : Gateway.Disk) (now0 : Z)
    (events : list Gateway.Event) (now : Z) (t : Gateway.Task)
    (before : list Agent.Action) (a : Agent.Action) (after : list Agent.Action)
    (a1 a2 : Agent.State) (msg : string) :
  let st := Gateway.run world (Gateway.startup d now0) events in
  Gateway.currentTask st = Some t ->
  Gateway.task_status t = Gateway.running ->
  Gateway.task_actions t = (before ++ a :: after)%list ->
  Agent.execute world before (Gateway.agent st) = (Agent.Return tt, a1) ->
  Agent.step world a a1 = (Agent.Throw msg, a2) ->
  let st' := Gateway.step world st (Gateway.TaskExecuted now) in
  let done := Gateway.setStatus t Gateway.failed (Gateway.task_startedAt t) None (Some msg) in
  Gateway.currentTask st' = Some done /\
  Gateway.task_status done = Gateway.failed /\
  Gateway.task_error done = Some msg /\
  Agent.begun (Gateway.agent st') = (Agent.begun (Gateway.agent st) ++ before ++ [a])%list /\
  Gateway.outbox st' = (Gateway.outbox st ++ [Gateway.TaskCompleted done])%list /\
  forall now',
    let st'' := Gateway.step world st' (Gateway.TimerFired now') in
    match Gateway.taskQueue st with
    | next :: rest =>
        Gateway.currentTask st'' =
          Some (Gateway.setStatus next Gateway.running (Some now') None None) /\
        Gateway.taskQueue st'' = rest
    | [] => Gateway.currentTask st'' = None
    end.
Proof.
  cbv zeta. intros Hcur Hstatus Hactions Hbefore Hthrow.
  pose proof (run_wellFormed world events _ (startup_wellFormed d now0)) as Hwf.
  set (st := Gateway.run world (Gateway.startup d now0) events) in *.
  assert (Htimers : Gateway.timers st = O).
  { destruct Hwf as (_ & _ & Hc). rewrite Hcur in Hc.
    destruct Hc as [[_ H] | [[H | H] _]]; [exact H | congruence | congruence]. }
  pose proof (execute_throw world before after a _ _ _ _ Hbefore Hthrow) as Hrun.
  assert (Hbegun : Agent.begun a2 = (Agent.begun (Gateway.agent st) ++ before ++ [a])%list).
  { pose proof (step_begun world a a1) as Hstep. rewrite Hthrow in Hstep.
    cbn [snd] in Hstep. rewrite Hstep.
    rewrite (execute_begun world before _ _ Hbefore). now rewrite <- app_assoc. }
  cbn [Gateway.step]. unfold Gateway.completeTask.
  rewrite Hcur, Hstatus, Hactions, Hrun.
  cbn [Gateway.currentTask Gateway.agent Gateway.outbox Gateway.send Gateway.setTasks
       Gateway.setAgent Gateway.timers Gateway.taskQueue].
  repeat (split; [first [reflexivity | exact Hbegun] |]).
  intros now'. rewrite Htimers. unfold Gateway.processTaskQueue.
  cbn [Gateway.taskQueue Gateway.setTasks Gateway.send Gateway.setAgent].
  destruct (Gateway.taskQueue st) as [| next rest]; cbn; auto.
Qed.

(** The counterexample of C7: the second of three actions, the screen
    read, is rejected with an error whose message is empty.  The task
    fails, the third action is not begun, and the error captured is the
    empty text. *)
Lemma empty_message_failure :
  let st := Gateway.run GatewayTally.secondThrowsEmpty
              (Gateway.startup Gateway.emptyDisk Gateway.someTime)
              GatewayTally.lookScenario in
  let st' := Gateway.step GatewayTally.secondThrowsEmpty st
               (Gateway.TaskExecuted (Gateway.someTime + 600)) in
  Gateway.task_status <$> Gateway.currentTask st = Some Gateway.running /\
  Gateway.task_actions <$> Gateway.currentTask st = Some GatewayTally.lookSteps /\
  Gateway.task_status <$> Gateway.currentTask st' = Some Gateway.failed /\
  Gateway.currentTask st' ≫= Gateway.task_error = Some EmptyString /\
  Agent.requests (Gateway.agent st') = [Agent.PClick 10 10; Agent.PSee] /\
  Agent.begun (Gateway.agent st') =
    [Gateway.plain (Agent.AClick 10 10); Gateway.plain Agent.ASee].
Proof. vm_compute. repeat split; reflexivity. Qed.

(** The witness of C7: a task of three actions whose second fails in
    the shell.  The task fails with that message, the third action is not
    begun and its click is never requested, and the next task starts. *)
Lemma task_step_failure_witness :
  let st := Gateway.run Gateway.secondFails
              (Gateway.startup Gateway.emptyDisk Gateway.someTime)
              Gateway.failingScenario in
  let st' := Gateway.step Gateway.secondFails st
               (Gateway.TaskExecuted (Gateway.someTime + 600)) in
  let st'' := Gateway.step Gateway.secondFails st'
                (Gateway.TimerFired (Gateway.someTime + 700)) in
  Gateway.task_status <$> Gateway.currentTask st' = Some Gateway.failed /\
  Gateway.currentTask st' ≫= Gateway.task_error =
    Some "Command failed: powershell -ExecutionPolicy Bypass" /\
  Agent.begun (Gateway.agent st') =
    [Gateway.plain (Agent.AClick 10 10); Gateway.plain (Agent.AType "hello")] /\
  Agent.requests (Gateway.agent st') = [Agent.PClick 10 10; Agent.PType "hello"] /\
  Gateway.task_name <$> Gateway.currentTask st'' = Some "next" /\
  Gateway.task_status <$> Gateway.currentTask st'' = Some Gateway.running.
Proof.
  cbv zeta.
  edestruct (task_step_failure Gateway.secondFails Gateway.emptyDisk Gateway.someTime
               Gateway.failingScenario (Gateway.someTime + 600)
               (Gateway.setStatus
                  (Gateway.newTask (Gateway.someTime + 10) "three steps"
                     Gateway.threeSteps None)
                  Gateway.running (Some (Gateway.someTime + 10)) None None)
               [Gateway.plain (Agent.AClick 10 10)]
               (Gateway.plain (Agent.AType "hello"))
               [Gateway.plain (Agent.AClick 20 20)])
    as (Hcur & Hfailed & Herror & Hbegun & _ & Hnext).
  - vm_compute. reflexivity.
  - reflexivity.
  - reflexivity.
  - vm_compute. reflexivity.
  - vm_compute. reflexivity.
  - rewrite Hcur. cbn [fmap option_fmap option_map mbind option_bind].
    rewrite Hfailed, Herror, Hbegun.
    split; [reflexivity |]. split; [reflexivity |].
    split; [vm_compute; reflexivity |].
    split; [vm_compute; reflexivity |].
    split; vm_compute; reflexivity.
Defined.


(** * Further properties of the code *)

(** ** The stable sort *)

Section SortFacts.
Context {A : Type} (cmp : A -> A -> Z) (key : A -> Z).
Hypothesis cmp_key : forall a b, cmp a b = key a - key b.

Lemma insertSorted_perm (a : A) (l : list A) :
  Permutation (JS.insertSorted cmp a l) (a :: l).
Proof.
  induction l as [| b l IH]; cbn; [reflexivity |].
  destruct (cmp a b <=? 0); [reflexivity |].
  rewrite IH. apply perm_swap.
Qed.

Lemma sort_perm (l : list A) : Permutation (JS.sort cmp l) l.
Proof.
  induction l as [| a l IH]; cbn; [reflexivity |].
  rewrite insertSorted_perm. now constructor.
Qed.

Lemma sort_In (x : A) (l : list A) : In x (JS.sort cmp l) <-> In x l.
Proof.
  split; apply Permutation_in; [apply sort_perm | symmetry; apply sort_perm].
Qed.

Lemma insertSorted_ascending (a : A) (l : list A) :
  StronglySorted (fun x y => key x <= key y) l ->
  StronglySorted (fun x y => key x <= key y) (JS.insertSorted cmp a l).
Proof.
  induction 1 as [| b l Hl IH Hb]; cbn.
  - repeat constructor.
  - rewrite cmp_key. destruct (Z.leb_spec (key a - key b) 0).
    + constructor; [now constructor |].
      constructor; [lia |].
      eapply List.Forall_impl; [| exact Hb]. cbn. intros; lia.
    + constructor; [exact IH |].
      eapply Permutation_Forall; [symmetry; apply insertSorted_perm |].
      constructor; [lia | exact Hb].
Qed.

Lemma sort_ascending (l : list A) :
  StronglySorted (fun x y => key x <= key y) (JS.sort cmp l).
Proof.
  induction l as [| a l IH]; cbn; [constructor |].
  now apply insertSorted_ascending.
Qed.

Lemma insertSorted_stable (a : A) (l : list A) (d : Z) :
  List.filter (fun x => key x =? d) (JS.insertSorted cmp a l)
  = List.filter (fun x => key x =? d) (a :: l).
Proof.
  induction l as [| b l IH]; [reflexivity |].
  cbn [JS.insertSorted]. rewrite cmp_key.
  destruct (Z.leb_spec (key a - key b) 0); [reflexivity |].
  cbn [List.filter] in *. rewrite IH.
  destruct (Z.eqb_spec (key a) d), (Z.eqb_spec (key b) d); try reflexivity. lia.
Qed.

Lemma sort_stable (l : list A) (d : Z) :
  List.filter (fun x => key x =? d) (JS.sort cmp l)
  = List.filter (fun x => key x =? d) l.
Proof.
  induction l as [| a l IH]; [reflexivity |].
  cbn [JS.sort foldr]. rewrite insertSorted_stable. cbn [List.filter].
  fold (JS.sort cmp l). now rewrite IH.
Qed.

End SortFacts.

Lemma StronglySorted_weaken {A} (R S : A -> A -> Prop) (l : list A) :
  (forall a b, R a b -> S a b) -> StronglySorted R l -> StronglySorted S l.
Proof.
  intros HRS. induction 1 as [| a l Hl IH Ha]; constructor; [exact IH |].
  eapply List.Forall_impl; [| exact Ha]. intros b. apply HRS.
Qed.

(** ** ghost.js: which buttons are found and which may be clicked *)

Section GhostButtons.
Variable cfg : Ghost.Config.

Lemma findButtons_In (words : list Ghost.Word) (b : Ghost.Button) :
  In b (Ghost.findButtons cfg words) <->
  exists pattern word,
    In pattern (Ghost.watchPatterns cfg) /\ In word words /\
    Ghost.regexTest pattern (Ghost.word_text word) = true /\
    50 < Ghost.word_confidence word /\
    b = GhostOcr.buttonOf pattern word.
Proof.
  unfold Ghost.findButtons. rewrite sort_In. rewrite in_flat_map. split.
  - intros (pattern & Hp & Hb). apply in_flat_map in Hb as (word & Hw & Hb).
    destruct (Ghost.regexTest pattern (Ghost.word_text word)) eqn:Hre; [| contradiction].
    destruct (Z.ltb_spec 50 (Ghost.word_confidence word)); [| contradiction].
    destruct Hb as [<- | []]. now exists pattern, word.
  - intros (pattern & word & Hp & Hw & Hre & Hconf & ->).
    exists pattern. split; [exact Hp |]. apply in_flat_map. exists word.
    split; [exact Hw |]. rewrite Hre.
    destruct (Z.ltb_spec 50 (Ghost.word_confidence word)); [now left | lia].
Qed.

Lemma regionFilter_In (buttons : list Ghost.Button) (b : Ghost.Button) :
  In b (Ghost.regionFilter buttons) ->
  In b buttons /\ (Ghost.inBottomRight b = true \/ Ghost.isDialogButton b = true).
Proof.
  unfold Ghost.regionFilter.
  destruct (List.filter Ghost.inBottomRight buttons) as [| r rs] eqn:Hf.
  - intros Hin. apply filter_In in Hin as [Hin Hd]. auto.
  - rewrite <- Hf. intros Hin. apply filter_In in Hin as [Hin Hd]. auto.
Qed.

Lemma byPriority_In (buttons : list Ghost.Button) (b : Ghost.Button) :
  In b (Ghost.byPriority buttons) <-> In b buttons.
Proof. apply sort_In. Qed.

(** The candidate of a scan is one of the buttons found that passed the
    region filters. *)
Lemma candidate_In (st : Ghost.State) (scan : Ghost.OcrResult) (best : Ghost.Button) :
  Ghost.candidate cfg st scan = inr best ->
  In best (Ghost.regionFilter (Ghost.findButtons cfg (Ghost.ocr_words scan))).
Proof.
  unfold Ghost.candidate.
  destruct (Ghost.findButtons cfg (Ghost.ocr_words scan)) as [| b0 found]; [discriminate |].
  destruct (Ghost.regionFilter (b0 :: found)) as [| r0 region]; [discriminate |].
  intros Hbest.
  remember (Ghost.byPriority (r0 :: region)) as buttons eqn:Hbuttons.
  assert (Hnth : best = nth (Ghost.candidateIndex st buttons) buttons r0)
    by (cbv zeta in Hbest; congruence).
  rewrite Hnth.
  destruct (nth_in_or_default (Ghost.candidateIndex st buttons) buttons r0)
    as [Hin | Hdef].
  - apply (proj1 (byPriority_In (r0 :: region) _)). rewrite <- Hbuttons. exact Hin.
  - rewrite Hdef. now left.
Qed.

(** A click is decided only for the candidate of the scan. *)
Lemma decide_click_candidate (st st' : Ghost.State) (scan : Ghost.OcrResult) x y reason :
  Ghost.decide cfg st scan = (st', Ghost.Click x y reason) ->
  exists best,
    Ghost.candidate cfg st scan = inr best /\
    x = Ghost.btn_x best /\ y = Ghost.btn_y best /\
    Ghost.confirmScans cfg <= Ghost.sightings st (Ghost.buttonKey best) + 1.
Proof.
  unfold Ghost.decide.
  destruct (Ghost.maxActionsPerMinute cfg <=? Ghost.actionsThisMinute st); [discriminate |].
  destruct (Ghost.candidate cfg st scan) as [why | best]; [discriminate |].
  intros Hconfirm. exists best. split; [reflexivity |].
  destruct (Z.lt_ge_cases (Ghost.sightings st (Ghost.buttonKey best) + 1)
              (Ghost.confirmScans cfg)) as [Hlt | Hge].
  - rewrite confirm_below in Hconfirm by exact Hlt. discriminate.
  - destruct (confirm_reached cfg st best Hge) as (st2 & Hc & _).
    rewrite Hc in Hconfirm. inversion Hconfirm. auto.
Qed.

End GhostButtons.

Lemma found_pairs (patterns : list string) (words : list Ghost.Word) :
  flat_map (fun pattern =>
    flat_map (fun word =>
      if Ghost.regexTest pattern (Ghost.word_text word)
         && (50 <? Ghost.word_confidence word)
      then [GhostOcr.buttonOf pattern word] else []) words) patterns
  = map (fun pw => GhostOcr.buttonOf (fst pw) (snd pw))
      (List.filter
         (fun pw => Ghost.regexTest (fst pw) (Ghost.word_text (snd pw))
                    && (50 <? Ghost.word_confidence (snd pw)))
         (list_prod patterns words)).
Proof.
  induction patterns as [| pattern patterns IH]; [reflexivity |].
  cbn [flat_map list_prod]. rewrite List.filter_app, List.map_app, <- IH. f_equal.
  clear IH. induction words as [| word words IHw]; [reflexivity |].
  cbn [flat_map map List.filter fst snd]. rewrite IHw.
  now destruct (Ghost.regexTest pattern (Ghost.word_text word)
                && (50 <? Ghost.word_confidence word)).
Qed.

(** X1.  What [findButtons] returns: exactly one button for every pair
    of a watch pattern and a word whose text the pattern's expression
    accepts and whose confidence is above 50, carrying the pattern, the
    word's text, position and confidence: the result is a rearrangement of
    the list of these pairs, as long as it, and a button is in it only for
    such a pair.  The buttons are returned in descending order of
    confidence, and buttons of the same confidence stay in the order of
    their pairs: by pattern, then by word. *)
Theorem findButtons_sound_complete_sorted :
  forall cfg words,
    let buttons :=
      map (fun pw => GhostOcr.buttonOf (fst pw) (snd pw))
        (GhostOcr.acceptedPairs cfg words) in
    Permutation (Ghost.findButtons cfg words) buttons /\
    length (Ghost.findButtons cfg words) = length (GhostOcr.acceptedPairs cfg words) /\
    (forall b,
       In b (Ghost.findButtons cfg words) <->
       exists pattern word,
         In pattern (Ghost.watchPatterns cfg) /\ In word words /\
         Ghost.regexTest pattern (Ghost.word_text word) = true /\
         50 < Ghost.word_confidence word /\
         b = GhostOcr.buttonOf pattern word) /\
    StronglySorted (fun a b => Ghost.btn_confidence b <= Ghost.btn_confidence a)
      (Ghost.findButtons cfg words) /\
    (forall confidence,
       List.filter (fun b => Ghost.btn_confidence b =? confidence)
         (Ghost.findButtons cfg words)
       = List.filter (fun b => Ghost.btn_confidence b =? confidence) buttons).
Proof.
  intros cfg words. cbv zeta.
  assert (Hfound : Ghost.findButtons cfg words
                   = JS.sort (fun a b => Ghost.btn_confidence b - Ghost.btn_confidence a)
                       (map (fun pw => GhostOcr.buttonOf (fst pw) (snd pw))
                          (GhostOcr.acceptedPairs cfg words))).
  { unfold Ghost.findButtons, GhostOcr.acceptedPairs. cbv zeta.
    now rewrite <- found_pairs. }
  split; [rewrite Hfound; apply sort_perm |].
  split; [rewrite Hfound, (Permutation_length (sort_perm _ _)); apply List.length_map |].
  split; [intros b; apply findButtons_In |].
  split.
  - unfold Ghost.findButtons.
    eapply StronglySorted_weaken;
      [| apply (sort_ascending _ (fun b => - Ghost.btn_confidence b)); intros; lia].
    cbn. intros a b Hab. lia.
  - intros confidence. rewrite Hfound.
    pose proof (sort_stable (fun a b => Ghost.btn_confidence b - Ghost.btn_confidence a)
                  (fun b => - Ghost.btn_confidence b) ltac:(intros; cbn; lia)
                  (map (fun pw => GhostOcr.buttonOf (fst pw) (snd pw))
                     (GhostOcr.acceptedPairs cfg words)) (- confidence)) as Hstable.
    assert (Hsame : forall l : list Ghost.Button,
              List.filter (fun b => - Ghost.btn_confidence b =? - confidence) l
              = List.filter (fun b => Ghost.btn_confidence b =? confidence) l).
    { intros l. apply List.filter_ext. intros b.
      destruct (Z.eqb_spec (- Ghost.btn_confidence b) (- confidence)),
               (Z.eqb_spec (Ghost.btn_confidence b) confidence); try reflexivity; lia. }
    now rewrite !Hsame in Hstable.
Qed.

Lemma isDialogButton_spec (b : Ghost.Button) :
  Ghost.isDialogButton b = true ->
  In (Ghost.btn_text b) ["Allow"; "Yes"; "OK"; "Keep"] /\
  90 < Ghost.btn_confidence b /\
  400 < Ghost.btn_x b < 900 /\ 350 < Ghost.btn_y b < 650.
Proof.
  unfold Ghost.isDialogButton. rewrite !andb_true_iff, !Z.ltb_lt.
  intros [[[[[Htext ?] ?] ?] ?] ?]. split; [| lia].
  apply existsb_exists in Htext as (t & Hin & Heq).
  apply String.eqb_eq in Heq. now subst t.
Qed.

(** X2.  Every click [decide] returns is a click on a word of the scan:
    a word the expression of some watch pattern accepts, read with a
    confidence above 50, at that word's position; and that position lies in
    the chat panel (x above 1200 and y above 500) or the word is one of
    Allow, Yes, OK, Keep read with a confidence above 90 inside the dialog
    band (x between 400 and 900, y between 350 and 650).  No click is
    decided at or above the rate ceiling. *)
Theorem decide_click_sound (cfg : Ghost.Config) (st st' : Ghost.State)
    (scan : Ghost.OcrResult) (x y : Z) (reason : string) :
  Ghost.decide cfg st scan = (st', Ghost.Click x y reason) ->
  Ghost.actionsThisMinute st < Ghost.maxActionsPerMinute cfg /\
  exists pattern word,
    In pattern (Ghost.watchPatterns cfg) /\ In word (Ghost.ocr_words scan) /\
    Ghost.regexTest pattern (Ghost.word_text word) = true /\
    50 < Ghost.word_confidence word /\
    x = Ghost.word_x word /\ y = Ghost.word_y word /\
    ((1200 < x /\ 500 < y) \/
     (In pattern ["Allow"; "Yes"; "OK"; "Keep"] /\ 90 < Ghost.word_confidence word /\
      400 < x < 900 /\ 350 < y < 650)).
Proof.
  intros Hdecide. split.
  - unfold Ghost.decide in Hdecide.
    destruct (Z.leb_spec (Ghost.maxActionsPerMinute cfg) (Ghost.actionsThisMinute st));
      [discriminate | assumption].
  - destruct (decide_click_candidate cfg _ _ _ _ _ _ Hdecide) as (best & Hcand & -> & -> & _).
    apply candidate_In in Hcand. apply regionFilter_In in Hcand as [Hfound Hregion].
    apply findButtons_In in Hfound
      as (pattern & word & Hpattern & Hword & Hre & Hconf & ->).
    exists pattern, word. repeat (split; [assumption || reflexivity |]).
    destruct Hregion as [Hbr | Hdialog].
    + left. unfold Ghost.inBottomRight in Hbr. cbn in Hbr.
      apply andb_true_iff in Hbr as [Hx Hy]. apply Z.ltb_lt in Hx, Hy. auto.
    + right. apply isDialogButton_spec in Hdialog. exact Hdialog.
Qed.

(** The witness of X2: the second sighting of the stable candidate. *)
Lemma decide_click_sound_witness :
  exists pattern word,
    In pattern (Ghost.watchPatterns Ghost.CONFIG) /\
    In word (Ghost.ocr_words Ghost.continueFrame) /\
    Ghost.regexTest pattern (Ghost.word_text word) = true /\
    50 < Ghost.word_confidence word /\
    1300 = Ghost.word_x word /\ 700 = Ghost.word_y word.
Proof.
  destruct (decide_click_sound Ghost.CONFIG
              (Ghost.setPending (Ghost.initialState 0) (Some "Continue@26x14") 1)
              (Ghost.setLastClicked (Ghost.initialState 0) (Some "Continue")
                 (Some (1300, 700)) 1)
              Ghost.continueFrame 1300 700
              ("Confirmed: " ++ String Ghost.dquote
                 ("Continue" ++ String Ghost.dquote EmptyString))
              ltac:(vm_compute; reflexivity))
    as (_ & pattern & word & H1 & H2 & H3 & H4 & H5 & H6 & _).
  exists pattern, word. repeat split; assumption.
Defined.

(** ** ghost.js: from the recognition result to the click *)

Lemma centre_inside (a b : Z) :
  a <= b -> a <= GhostOcr.centre a b <= b.
Proof.
  intros Hab. unfold GhostOcr.centre, JS.roundDiv.
  change (2 / 2) with 1. split.
  - apply Z.div_le_lower_bound; lia.
  - apply Z.lt_succ_r. apply Z.div_lt_upper_bound; lia.
Qed.

Lemma wordsOf_In (blocks : option (list GhostOcr.Block)) (w : Ghost.Word) :
  In w (GhostOcr.wordsOf blocks) <->
  exists raw, In raw (GhostOcr.rawWords blocks) /\ In w (GhostOcr.toWord raw).
Proof.
  unfold GhostOcr.wordsOf, GhostOcr.rawWords. split.
  - intros H. apply in_flat_map in H as (block & Hb & H).
    apply in_flat_map in H as (para & Hp & H).
    apply in_flat_map in H as (line & Hl & H).
    apply in_flat_map in H as (raw & Hr & H).
    exists raw. split; [| exact H].
    apply in_flat_map. exists block. split; [exact Hb |].
    apply in_flat_map. exists para. split; [exact Hp |].
    apply in_flat_map. exists line. auto.
  - intros (raw & H & Hw).
    apply in_flat_map in H as (block & Hb & H).
    apply in_flat_map in H as (para & Hp & H).
    apply in_flat_map in H as (line & Hl & H).
    apply in_flat_map. exists block. split; [exact Hb |].
    apply in_flat_map. exists para. split; [exact Hp |].
    apply in_flat_map. exists line. split; [exact Hl |].
    apply in_flat_map. exists raw. auto.
Qed.

Lemma toWord_In (raw : GhostOcr.RawWord) (w : Ghost.Word) :
  In w (GhostOcr.toWord raw) ->
  exists bbox,
    GhostOcr.raw_bbox raw = Some bbox /\
    GhostOcr.raw_text raw <> EmptyString /\
    w = {| Ghost.word_text := GhostOcr.raw_text raw;
           Ghost.word_x := GhostOcr.centre (GhostOcr.x0 bbox) (GhostOcr.x1 bbox);
           Ghost.word_y := GhostOcr.centre (GhostOcr.y0 bbox) (GhostOcr.y1 bbox);
           Ghost.word_confidence := GhostOcr.raw_confidence raw |}.
Proof.
  unfold GhostOcr.toWord.
  destruct (GhostOcr.raw_bbox raw) as [bbox |]; [| contradiction].
  destruct (GhostOcr.raw_text raw) as [| c s] eqn:Ht; [contradiction |].
  intros [<- | []]. exists bbox. repeat split; congruence.
Qed.

(** X3.  From the recognizer to the click.  A click that [decide]
    returns on what [ocr] makes of a recognition result is aimed at the
    centre of the bounding box of a recognized word with a non-empty text
    that a watch pattern accepts, and for a box with x0 <= x1 and y0 <= y1
    the click point lies inside the box.  A failed recognition, or a result
    without blocks, never leads to a click and leaves the state as it is. *)
Theorem ocr_click_inside_box :
  (forall cfg st st' r x y reason,
     Ghost.decide cfg st (GhostOcr.ocr r) = (st', Ghost.Click x y reason) ->
     exists text blocks raw bbox pattern,
       r = GhostOcr.Data text blocks /\
       In raw (GhostOcr.rawWords blocks) /\
       GhostOcr.raw_bbox raw = Some bbox /\
       GhostOcr.raw_text raw <> EmptyString /\
       In pattern (Ghost.watchPatterns cfg) /\
       Ghost.regexTest pattern (GhostOcr.raw_text raw) = true /\
       x = GhostOcr.centre (GhostOcr.x0 bbox) (GhostOcr.x1 bbox) /\
       y = GhostOcr.centre (GhostOcr.y0 bbox) (GhostOcr.y1 bbox) /\
       (GhostOcr.x0 bbox <= GhostOcr.x1 bbox ->
        GhostOcr.x0 bbox <= x <= GhostOcr.x1 bbox) /\
       (GhostOcr.y0 bbox <= GhostOcr.y1 bbox ->
        GhostOcr.y0 bbox <= y <= GhostOcr.y1 bbox))
  /\
  (forall cfg st r,
     (exists message, r = GhostOcr.RecognizeFailed message) \/
     (exists text, r = GhostOcr.Data text None) ->
     fst (Ghost.decide cfg st (GhostOcr.ocr r)) = st /\
     Ghost.isWait (snd (Ghost.decide cfg st (GhostOcr.ocr r))) = true).
Proof.
  split.
  - intros cfg st st' r x y reason Hdecide.
    destruct (decide_click_sound cfg _ _ _ _ _ _ Hdecide)
      as (_ & pattern & word & Hp & Hw & Hre & _ & Hx & Hy & _).
    destruct r as [text blocks | message]; [| destruct Hw].
    cbn [GhostOcr.ocr Ghost.ocr_words] in Hw.
    apply wordsOf_In in Hw as (raw & Hraw & Hw).
    apply toWord_In in Hw as (bbox & Hbbox & Htext & ->).
    cbn in Hre, Hx, Hy. subst x y.
    exists text, blocks, raw, bbox, pattern.
    repeat (split; [assumption || reflexivity |]).
    split; apply centre_inside.
  - intros cfg st r Hr.
    assert (Hwords : Ghost.ocr_words (GhostOcr.ocr r) = []).
    { destruct Hr as [[message ->] | [text ->]]; reflexivity. }
    unfold Ghost.decide, Ghost.candidate. rewrite Hwords.
    destruct (Ghost.maxActionsPerMinute cfg <=? Ghost.actionsThisMinute st).
    + split; reflexivity.
    + replace (Ghost.findButtons cfg []) with (@nil Ghost.Button).
      * split; reflexivity.
      * unfold Ghost.findButtons.
        induction (Ghost.watchPatterns cfg) as [| p ps IH]; [reflexivity |].
        cbn in *. exact IH.
Qed.

(** The witness of X3: "Continue" in the box (1260, 690) to (1341, 711)
    is clicked at (1301, 701), inside the box. *)
Lemma ocr_click_inside_box_witness :
  snd (Ghost.decideAll Ghost.CONFIG (Ghost.initialState 0)
         [GhostOcr.ocr GhostOcr.continueData; GhostOcr.ocr GhostOcr.continueData]) =
    [Ghost.Wait "Confirming button is real";
     Ghost.Click 1301 701
       ("Confirmed: " ++ String Ghost.dquote ("Continue" ++ String Ghost.dquote EmptyString))]
  /\ 1260 <= 1301 <= 1341 /\ 690 <= 701 <= 711.
Proof.
  destruct ocr_click_inside_box as [inside _].
  destruct (inside Ghost.CONFIG
              (Ghost.setPending (Ghost.initialState 0) (Some "Continue@26x14") 1)
              (Ghost.setLastClicked (Ghost.initialState 0) (Some "Continue")
                 (Some (1301, 701)) 1)
              GhostOcr.continueData 1301 701
              ("Confirmed: " ++ String Ghost.dquote
                 ("Continue" ++ String Ghost.dquote EmptyString))
              ltac:(vm_compute; reflexivity))
    as (text & blocks & raw & bbox & pattern & _).
  split; [vm_compute; reflexivity | lia].
Defined.

(** ** ghost.js: priority order and the stuck-button override *)

Lemma firstOther_spec (last : option string) (buttons : list Ghost.Button)
    (d : Ghost.Button) :
  forall i,
    Exists (fun b => Some (Ghost.btn_text b) <> last) buttons ->
    (i <= Ghost.firstOther last i buttons)%nat /\
    Some (Ghost.btn_text (nth (Ghost.firstOther last i buttons - i) buttons d)) <> last.
Proof.
  induction buttons as [| b rest IH]; intros i Hex.
  - inversion Hex.
  - cbn [Ghost.firstOther].
    destruct (bool_decide_reflect (Some (Ghost.btn_text b) = last)) as [Heq | Hne].
    + assert (Hrest : Exists (fun b => Some (Ghost.btn_text b) <> last) rest)
        by (inversion Hex; [contradiction | assumption]).
      destruct (IH (S i) Hrest) as [Hge Hnth]. split; [lia |].
      replace (Ghost.firstOther last (S i) rest - i)%nat
        with (S (Ghost.firstOther last (S i) rest - S i)) by lia.
      exact Hnth.
    + split; [lia |]. now rewrite Nat.sub_diag.
Qed.

(** X4.  Which button of a scan is the candidate.  While the same
    button has been clicked fewer than two times in a row, the candidate
    is a button of highest priority among those that passed the region
    filters.  Once it has been clicked two or more times in a row, the
    candidate is a button of another pattern whenever one passed the
    filters. *)
Theorem candidate_priority_and_override (cfg : Ghost.Config) (st : Ghost.State)
    (scan : Ghost.OcrResult) (best : Ghost.Button) :
  Ghost.candidate cfg st scan = inr best ->
  let region := Ghost.regionFilter (Ghost.findButtons cfg (Ghost.ocr_words scan)) in
  (Ghost.sameButtonCount st < 2 ->
   forall b, In b region ->
     JS.indexOf (Ghost.btn_text best) Ghost.priorityOrder
       <= JS.indexOf (Ghost.btn_text b) Ghost.priorityOrder) /\
  (2 <= Ghost.sameButtonCount st ->
   Exists (fun b => Some (Ghost.btn_text b) <> Ghost.lastClickedButton st) region ->
   Some (Ghost.btn_text best) <> Ghost.lastClickedButton st).
Proof.
  intros Hcand. cbv zeta. unfold Ghost.candidate in Hcand.
  destruct (Ghost.findButtons cfg (Ghost.ocr_words scan)) as [| b0 found];
    [discriminate |].
  destruct (Ghost.regionFilter (b0 :: found)) as [| r0 region]; [discriminate |].
  cbv zeta in Hcand.
  remember (Ghost.byPriority (r0 :: region)) as buttons eqn:Hbuttons.
  assert (Hbest : best = nth (Ghost.candidateIndex st buttons) buttons r0) by congruence.
  clear Hcand.
  assert (Hperm : Permutation buttons (r0 :: region))
    by (rewrite Hbuttons; apply sort_perm).
  assert (Hsorted : StronglySorted
            (fun a b => JS.indexOf (Ghost.btn_text a) Ghost.priorityOrder
                        <= JS.indexOf (Ghost.btn_text b) Ghost.priorityOrder) buttons).
  { rewrite Hbuttons. unfold Ghost.byPriority.
    apply (sort_ascending _
             (fun b => JS.indexOf (Ghost.btn_text b) Ghost.priorityOrder)).
    reflexivity. }
  split.
  - intros Hfew b Hb.
    assert (Hidx : Ghost.candidateIndex st buttons = O).
    { unfold Ghost.candidateIndex.
      destruct (Z.leb_spec 2 (Ghost.sameButtonCount st)); [lia | reflexivity]. }
    rewrite Hidx in Hbest.
    apply (Permutation_in _ (Permutation_sym Hperm)) in Hb.
    destruct buttons as [| h rest].
    + destruct Hb.
    + cbn in Hbest. subst best. inversion Hsorted as [| ? ? _ Hall]; subst.
      destruct Hb as [<- | Hb]; [lia |].
      rewrite List.Forall_forall in Hall. now apply Hall.
  - intros Hstuck Hex.
    assert (Hex' : Exists (fun b => Some (Ghost.btn_text b) <> Ghost.lastClickedButton st)
                     buttons).
    { apply List.Exists_exists in Hex as (b & Hb & Hne).
      apply List.Exists_exists. exists b. split; [| exact Hne].
      now apply (Permutation_in _ (Permutation_sym Hperm)). }
    unfold Ghost.candidateIndex in Hbest.
    destruct (Z.leb_spec 2 (Ghost.sameButtonCount st)); [| lia].
    cbn [andb] in Hbest.
    destruct (Z.ltb_spec 1 (Z.of_nat (length buttons))) as [Hmany | Hone].
    + destruct (firstOther_spec (Ghost.lastClickedButton st) buttons r0 O Hex')
        as [_ Hnth].
      rewrite Nat.sub_0_r in Hnth. now rewrite Hbest.
    + destruct buttons as [| h [| h2 rest]]; cbn in Hone; try lia.
      * inversion Hex'.
      * cbn in Hbest. subst best.
        inversion Hex' as [? ? Hh | ? ? Hrest]; [exact Hh | inversion Hrest].
Qed.

(** The witness of X4: after two clicks on "Continue", with "Continue"
    and "Keep" both in the chat panel, the candidate is "Keep"; before
    that, it is "Keep" too, by priority. *)
Lemma candidate_priority_and_override_witness :
  Ghost.candidate Ghost.CONFIG (Ghost.initialState 0) GhostOcr.twoButtonFrame =
    inr (GhostOcr.buttonOf "Keep" GhostOcr.keepWord) /\
  Ghost.candidate Ghost.CONFIG GhostOcr.stuckOnKeep GhostOcr.twoButtonFrame =
    inr (GhostOcr.buttonOf "Continue" Ghost.continueWord) /\
  Some "Continue" <> Ghost.lastClickedButton GhostOcr.stuckOnKeep.
Proof.
  assert (Hstuck : Ghost.candidate Ghost.CONFIG GhostOcr.stuckOnKeep
                     GhostOcr.twoButtonFrame =
                   inr (GhostOcr.buttonOf "Continue" Ghost.continueWord))
    by (vm_compute; reflexivity).
  split; [vm_compute; reflexivity |]. split; [exact Hstuck |].
  destruct (candidate_priority_and_override Ghost.CONFIG GhostOcr.stuckOnKeep
              GhostOcr.twoButtonFrame _ Hstuck) as [_ Hover].
  apply Hover.
  - vm_compute. discriminate.
  - apply List.Exists_exists.
    exists (GhostOcr.buttonOf "Continue" Ghost.continueWord). split.
    + vm_compute. auto.
    + vm_compute. discriminate.
Defined.

(** ** ghost.js: what the loop keeps true of its state *)

Section GhostInvariant.
Variable cfg : Ghost.Config.
Hypothesis threshold_positive : 1 <= Ghost.confirmScans cfg.

Lemma initialState_healthy (now : Z) : GhostOcr.healthy cfg (Ghost.initialState now).
Proof. unfold GhostOcr.healthy. cbn. repeat split; try lia; congruence. Qed.

Lemma confirm_healthy (st : Ghost.State) (best : Ghost.Button) :
  GhostOcr.healthy cfg st -> GhostOcr.healthy cfg (fst (Ghost.confirm cfg st best)).
Proof.
  intros (Hact & Hfail & Hpend & Hnone & Hzero & Hone & Hpos).
  assert (Hcases : Ghost.lastClickedButton st = None \/ Ghost.lastClickedButton st <> None)
    by (destruct (Ghost.lastClickedButton st); [right | left]; congruence).
  unfold Ghost.confirm.
  destruct (bool_decide_reflect
              (Ghost.pendingButton st = Some (Ghost.buttonKey best))) as [Heq | Hne];
    cbn [Ghost.pendingCount Ghost.setPending];
    match goal with
    | |- context [?a <? ?b] => destruct (Z.ltb_spec a b)
    end;
    cbn [fst Ghost.lastClickedButton Ghost.sameButtonCount Ghost.setPending];
    try match goal with
        | |- context [bool_decide ?P] =>
            destruct (bool_decide_reflect P) as [Hsame | Hother]
        end;
    unfold GhostOcr.healthy; cbn;
    intuition (try lia; try congruence).
Qed.

Lemma decide_healthy (st : Ghost.State) (scan : Ghost.OcrResult) :
  GhostOcr.healthy cfg st -> GhostOcr.healthy cfg (fst (Ghost.decide cfg st scan)).
Proof.
  intros Hst. unfold Ghost.decide.
  destruct (Ghost.maxActionsPerMinute cfg <=? Ghost.actionsThisMinute st); [exact Hst |].
  destruct (Ghost.candidate cfg st scan) as [why | best]; [exact Hst |].
  now apply confirm_healthy.
Qed.

Lemma ghostLoop_healthy (st : Ghost.State) now scan clickOk :
  GhostOcr.healthy cfg st ->
  GhostOcr.healthy cfg (fst (Ghost.ghostLoop cfg st now scan clickOk)).
Proof.
  intros Hst. unfold Ghost.ghostLoop.
  pose proof (decide_healthy st scan Hst) as Hd.
  destruct (Ghost.decide cfg st scan) as [st1 d]. cbn [fst] in Hd.
  destruct d as [why | x y why]; [exact Hd |].
  destruct clickOk; cbn; [| exact Hd].
  destruct Hd as (Hact & Hfail & Hrest). unfold GhostOcr.healthy. cbn.
  split; [lia |]. split; [reflexivity | exact Hrest].
Qed.

Lemma rateTimer_healthy (st : Ghost.State) :
  GhostOcr.healthy cfg st -> GhostOcr.healthy cfg (Ghost.rateTimer st).
Proof.
  intros (Hact & Hrest). unfold GhostOcr.healthy. cbn. split; [lia | exact Hrest].
Qed.

Lemma run_healthy (events : list Ghost.Event) :
  forall l, GhostOcr.healthy cfg (Ghost.loop_state l) ->
            GhostOcr.healthy cfg (Ghost.loop_state (fst (Ghost.run cfg l events))).
Proof.
  induction events as [| e events IH]; intros l Hl; [exact Hl |].
  destruct e as [now scan clickOk | |]; cbn [Ghost.run].
  - pose proof (ghostLoop_healthy (Ghost.loop_state l) now scan clickOk Hl) as Hstep.
    destruct (Ghost.ghostLoop cfg (Ghost.loop_state l) now scan clickOk) as [st1 d].
    specialize (IH {| Ghost.loop_state := st1;
                      Ghost.loop_timers := S (Ghost.loop_timers l) |} Hstep).
    destruct (Ghost.run cfg _ events) as [l2 ds]. exact IH.
  - now apply IH.
  - destruct (Ghost.loop_timers l) as [| n]; [now apply IH |].
    apply IH. now apply rateTimer_healthy.
Qed.

End GhostInvariant.

(** X5.  What the loop keeps true.  With a confirmation threshold of
    at least 1, after any sequence of poll cycles, failed screenshots and
    rate timers from the start: the action counter is not negative; the
    pending count is not negative and stays below the threshold, and is 0
    when no button is pending; [failedAttempts] is 0; [sameButtonCount] is 0
    as long as nothing was clicked and at least 1 afterwards; and a last
    clicked position is on record exactly when a last clicked button is. *)
Theorem ghost_loop_invariant (cfg : Ghost.Config) (now : Z) (events : list Ghost.Event) :
  1 <= Ghost.confirmScans cfg ->
  GhostOcr.healthy cfg (Ghost.loop_state (fst (Ghost.run cfg (Ghost.start now) events))).
Proof.
  intros Hpos. apply run_healthy; [exact Hpos |]. now apply initialState_healthy.
Qed.

(** The witness of X5: four cycles on the stable candidate. *)
Lemma ghost_loop_invariant_witness :
  GhostOcr.healthy Ghost.CONFIG
    (Ghost.loop_state (fst (Ghost.run Ghost.CONFIG (Ghost.start 0) Ghost.fourCycles))).
Proof. apply ghost_loop_invariant. vm_compute. discriminate. Defined.

(** X6.  A click that fails.  When [decide] returns a click and the
    injected click fails, the cycle leaves the action counter, [lastAction]
    and [failedAttempts] as they were, yet the button stays on record as the
    last one clicked, at the position aimed at, and no confirmation is
    pending: the same button must be sighted [confirmScans] times anew.
    When the click succeeds, the counter is one more, [lastAction] is the
    time of the click and [failedAttempts] is 0. *)
Theorem ghostLoop_click_outcome (cfg : Ghost.Config) (st st1 : Ghost.State) (now : Z)
    (scan : Ghost.OcrResult) (x y : Z) (reason : string) :
  Ghost.decide cfg st scan = (st1, Ghost.Click x y reason) ->
  let failed := fst (Ghost.ghostLoop cfg st now scan false) in
  let done := fst (Ghost.ghostLoop cfg st now scan true) in
  (failed = st1 /\
   Ghost.actionsThisMinute failed = Ghost.actionsThisMinute st /\
   Ghost.lastAction failed = Ghost.lastAction st /\
   Ghost.failedAttempts failed = Ghost.failedAttempts st /\
   Ghost.pendingButton failed = None /\ Ghost.pendingCount failed = 0 /\
   Ghost.lastClickedPos failed = Some (x, y) /\
   exists best, Ghost.candidate cfg st scan = inr best /\
                Ghost.lastClickedButton failed = Some (Ghost.btn_text best)) /\
  (Ghost.actionsThisMinute done = Ghost.actionsThisMinute st + 1 /\
   Ghost.lastAction done = now /\ Ghost.failedAttempts done = 0 /\
   Ghost.pendingButton done = None /\ Ghost.lastClickedPos done = Some (x, y)).
Proof.
  intros Hdecide. cbv zeta. unfold Ghost.ghostLoop. rewrite Hdecide.
  cbn [Ghost.click fst].
  unfold Ghost.decide in Hdecide.
  destruct (Ghost.maxActionsPerMinute cfg <=? Ghost.actionsThisMinute st); [discriminate |].
  destruct (Ghost.candidate cfg st scan) as [why | best]; [discriminate |].
  unfold Ghost.confirm in Hdecide.
  assert (Hst1 : exists button same,
             st1 = Ghost.setLastClicked
                     (Ghost.setPending st None 0) (Some (Ghost.btn_text best))
                     (Some (x, y)) same /\ button = Ghost.btn_text best).
  { destruct (bool_decide (Ghost.pendingButton st = Some (Ghost.buttonKey best)));
      cbn [Ghost.pendingCount Ghost.setPending] in Hdecide;
      match type of Hdecide with
      | (if ?c then _ else _) = _ => destruct c; [discriminate |]
      end;
      cbn [Ghost.lastClickedButton Ghost.sameButtonCount Ghost.setPending] in Hdecide;
      match type of Hdecide with
      | context [bool_decide ?P] => destruct (bool_decide_reflect P) as [Hsame | Hother]
      end;
      inversion Hdecide; subst; eexists; eexists; (split; [| reflexivity]);
      try rewrite <- Hsame; reflexivity. }
  destruct Hst1 as (button & same & -> & _). cbn.
  repeat split; try reflexivity.
  exists best. split; reflexivity.
Qed.

(** The witness of X6: the second sighting of the stable candidate, its
    click failing. *)
Lemma ghostLoop_click_outcome_witness :
  let st := Ghost.setPending (Ghost.initialState 0) (Some "Continue@26x14") 1 in
  let failed := fst (Ghost.ghostLoop Ghost.CONFIG st 5000 Ghost.continueFrame false) in
  Ghost.actionsThisMinute failed = 0 /\
  Ghost.pendingButton failed = None /\
  Ghost.lastClickedButton failed = Some "Continue" /\
  Ghost.lastClickedPos failed = Some (1300, 700).
Proof.
  cbv zeta.
  destruct (ghostLoop_click_outcome Ghost.CONFIG
              (Ghost.setPending (Ghost.initialState 0) (Some "Continue@26x14") 1)
              (Ghost.setLastClicked (Ghost.initialState 0) (Some "Continue")
                 (Some (1300, 700)) 1)
              5000 Ghost.continueFrame 1300 700
              ("Confirmed: " ++ String Ghost.dquote
                 ("Continue" ++ String Ghost.dquote EmptyString))
              ltac:(vm_compute; reflexivity))
    as [(Hst & Hact & _ & _ & Hpending & _ & Hpos & _) _].
  split; [exact Hact |]. split; [exact Hpending |].
  split; [vm_compute; reflexivity | exact Hpos].
Defined.

(** ** ghost.js: the texts a watch pattern accepts *)

Ltac unfold_append H := cbv [String.append] in H; fold String.append in H.

Lemma regexTail_spec (s : string) :
  Ghost.regexTail s = true <-> In s GhostOcr.afterPattern.
Proof.
  unfold GhostOcr.afterPattern. split.
  - unfold Ghost.regexTail.
    destruct s as [| c1 s]; [intros _; now left |].
    destruct (Ascii.eqb_spec c1 Ghost.dquote) as [-> | Hc1].
    + destruct s as [| c2 [| c3 s]]; [intros _; right; now left | | discriminate].
      intros H. apply orb_true_iff in H as [H | H]; apply Ascii.eqb_eq in H; subst c2.
      * do 4 right. now left.
      * do 5 right. now left.
    + destruct s as [| c2 s]; [| discriminate].
      intros H. apply orb_true_iff in H as [H | H]; apply Ascii.eqb_eq in H; subst c1.
      * do 2 right. now left.
      * do 3 right. now left.
  - intros H. repeat (destruct H as [<- | H]; [reflexivity |]). destruct H.
Qed.

Lemma letter_not_quote (p c : ascii) :
  GhostOcr.isLetter p = true -> JS.lowerAscii p = JS.lowerAscii c -> c <> Ghost.dquote.
Proof.
  intros Hp Heq ->.
  destruct p as [[] [] [] [] [] [] [] []]; vm_compute in Hp, Heq; congruence.
Qed.

Lemma toLowerCase_nil (s : string) : JS.toLowerCase s = EmptyString -> s = EmptyString.
Proof. destruct s; [reflexivity | discriminate]. Qed.

(** The pattern part: some prefix of the text equals the pattern up to
    case, and the rest is an allowed ending. *)
Lemma regexBody_spec (pattern : string) :
  forall s,
    Ghost.regexBody pattern s = true <->
    exists body tail,
      s = body ++ tail /\ JS.toLowerCase body = JS.toLowerCase pattern /\
      In tail GhostOcr.afterPattern.
Proof.
  induction pattern as [| p pattern IH]; intros s; cbn [Ghost.regexBody].
  - rewrite regexTail_spec. split.
    + intros H. exists EmptyString, s. auto.
    + intros (body & tail & -> & Hbody & Htail).
      apply toLowerCase_nil in Hbody. now subst body.
  - destruct s as [| c s].
    + split; [discriminate |].
      intros (body & tail & Hs & Hbody & _).
      destruct body as [| b body]; [discriminate | discriminate].
    + rewrite andb_true_iff, IH. split.
      * intros [Hc (body & tail & -> & Hbody & Htail)].
        apply Ascii.eqb_eq in Hc.
        exists (String c body), tail. cbn. rewrite Hbody, Hc. auto.
      * intros (body & tail & Hs & Hbody & Htail).
        destruct body as [| b body]; [discriminate |].
        unfold_append Hs. cbn in Hbody. inversion Hs; subst. inversion Hbody as [[Hb Hrest]].
        split; [apply Ascii.eqb_eq; congruence |].
        exists body, tail. auto.
Qed.

(** X7.  The texts a watch pattern accepts.  For a pattern made of
    letters, [regexTest] accepts exactly the texts that consist of an
    optional leading double quote, the pattern in any mix of upper and lower
    case, and one of the endings: nothing, a double quote, a comma, a
    period, a double quote and a comma, a double quote and a period. *)
Theorem regexTest_accepts (pattern s : string) :
  GhostOcr.lettersOnly pattern = true ->
  (Ghost.regexTest pattern s = true <->
   exists body tail,
     (s = body ++ tail \/ s = String Ghost.dquote (body ++ tail)) /\
     JS.toLowerCase body = JS.toLowerCase pattern /\
     In tail GhostOcr.afterPattern).
Proof.
  intros Hletters. unfold Ghost.regexTest.
  destruct s as [| c s].
  - rewrite regexBody_spec. split.
    + intros (body & tail & Hs & H). exists body, tail. auto.
    + intros (body & tail & [Hs | Hs] & H); [| discriminate]. exists body, tail. auto.
  - destruct (Ascii.eqb_spec c Ghost.dquote) as [-> | Hc]; rewrite regexBody_spec.
    + split.
      * intros (body & tail & -> & H). exists body, tail. auto.
      * intros (body & tail & [Hs | Hs] & Hbody & Htail).
        -- destruct body as [| b body].
           ++ symmetry in Hbody. apply toLowerCase_nil in Hbody. subst pattern.
              unfold_append Hs. subst tail.
              exists EmptyString, s. split; [reflexivity |]. split; [reflexivity |].
              unfold GhostOcr.afterPattern in *. cbn [In] in *.
              repeat (destruct Htail as [Ht | Htail];
                      [try discriminate Ht; inversion Ht; subst;
                       try (exfalso;
                            match goal with
                            | Hq : _ = Ghost.dquote |- _ =>
                                vm_compute in Hq; discriminate Hq
                            end);
                       tauto |]).
              destruct Htail.
           ++ exfalso. unfold_append Hs. inversion Hs; subst b.
              destruct pattern as [| p pattern]; [discriminate |].
              cbn in Hletters, Hbody. apply andb_true_iff in Hletters as [Hp _].
              inversion Hbody as [[Hb Hrest]].
              now apply (letter_not_quote p Ghost.dquote Hp).
        -- inversion Hs; subst. exists body, tail. auto.
    + split.
      * intros (body & tail & -> & H). exists body, tail. auto.
      * intros (body & tail & [Hs | Hs] & H); [| inversion Hs; congruence].
        exists body, tail. auto.
Qed.

(** The witness of X7: "Continue" accepts the quoted, lower-case text
    followed by a comma, and does not accept "Continued". *)
Lemma regexTest_accepts_witness :
  Ghost.regexTest "Continue"
    (String Ghost.dquote ("continue" ++ String Ghost.dquote ",")) = true /\
  Ghost.regexTest "Continue" "Continued" = false.
Proof.
  split.
  - apply (regexTest_accepts "Continue"); [reflexivity |].
    exists "continue", (String Ghost.dquote ","). split; [now right |].
    split; [reflexivity |]. unfold GhostOcr.afterPattern. cbn. tauto.
  - reflexivity.
Defined.

(** ** agent.js: which words [find] returns *)

Lemma startsWith_spec (p s : string) :
  JS.startsWith p s = true <-> exists rest, s = p ++ rest.
Proof.
  revert s. induction p as [| a p IH]; intros s; cbn.
  - split; [intros _; now exists s | reflexivity].
  - destruct s as [| b s].
    + split; [discriminate | intros (rest & H); discriminate H].
    + rewrite andb_true_iff, Ascii.eqb_eq, IH. split.
      * intros (-> & rest & ->). now exists rest.
      * intros (rest & H). unfold_append H. inversion H; subst.
        split; [reflexivity | now exists rest].
Qed.

Lemma includes_spec (p s : string) :
  JS.includes p s = true <-> exists before after, s = before ++ p ++ after.
Proof.
  induction s as [| c s IH].
  - cbn. rewrite orb_false_r, startsWith_spec. split.
    + intros (rest & H). now exists EmptyString, rest.
    + intros ([| b before] & after & H); [now exists after | discriminate H].
  - cbn [JS.includes]. rewrite orb_true_iff, startsWith_spec, IH. split.
    + intros [(rest & H) | (before & after & H)].
      * now exists EmptyString, rest.
      * exists (String c before), after. now rewrite H.
    + intros ([| b before] & after & H).
      * left. now exists after.
      * right. unfold_append H. inversion H; subst. now exists before, after.
Qed.

Lemma includes_empty (s : string) : JS.includes EmptyString s = true.
Proof. destruct s; reflexivity. Qed.

Lemma filter_true {A} (f : A -> bool) (l : list A) :
  (forall a, f a = true) -> List.filter f l = l.
Proof.
  intros Hf. induction l as [| a l IH]; cbn; [reflexivity |].
  now rewrite Hf, IH.
Qed.

Lemma find_perm (lastWords : list Agent.Word) (text : string)
    (options : Agent.FindOptions) :
  Permutation (Agent.find lastWords text options)
    (List.filter (Agent.textMatches (Agent.opt_exact options) (JS.toLowerCase text))
       lastWords).
Proof.
  unfold Agent.find.
  destruct (Agent.opt_near options) as [[| c near] |]; try reflexivity.
  destruct (List.filter _ lastWords) as [| m matches] eqn:Hm; [reflexivity |].
  destruct (List.filter (Agent.textMatches false _) lastWords); [reflexivity |].
  apply sort_perm.
Qed.

(** X8.  Which words [find] returns.  Whatever the options, a word is in
    the result exactly when it is one of [lastWords] and its text, in lower
    case, equals the search text in lower case (exact search) or contains it
    as a contiguous substring (otherwise).  Without [near] the result is
    these words as often and in the order they stand in [lastWords]; [near]
    changes the order only: the result with [near] is a rearrangement of the
    result without it.  An empty search text that is not exact therefore
    selects every word. *)
Theorem find_selects (lastWords : list Agent.Word) (text : string)
    (options : Agent.FindOptions) :
  let plain := {| Agent.opt_exact := Agent.opt_exact options; Agent.opt_near := None |} in
  (forall w, In w (Agent.find lastWords text options) <->
     In w lastWords /\
     if Agent.opt_exact options
     then JS.toLowerCase (Agent.word_text w) = JS.toLowerCase text
     else exists before after,
            JS.toLowerCase (Agent.word_text w) = before ++ JS.toLowerCase text ++ after) /\
  Permutation (Agent.find lastWords text options) (Agent.find lastWords text plain) /\
  Agent.find lastWords text plain
  = List.filter (fun w => if Agent.opt_exact options
                          then String.eqb (JS.toLowerCase (Agent.word_text w))
                                 (JS.toLowerCase text)
                          else JS.includes (JS.toLowerCase text)
                                 (JS.toLowerCase (Agent.word_text w)))
      lastWords /\
  (length (Agent.find lastWords text options) <= length lastWords)%nat /\
  Agent.find lastWords EmptyString Agent.defaultOptions = lastWords.
Proof.
  cbv zeta. split; [| split; [| split; [| split]]].
  - intros w. split.
    + intros Hin. apply (Permutation_in _ (find_perm _ _ _)) in Hin.
      apply filter_In in Hin as [Hin Hm]. split; [exact Hin |].
      unfold Agent.textMatches in Hm. destruct (Agent.opt_exact options).
      * now apply String.eqb_eq.
      * now apply includes_spec.
    + intros [Hin Hm]. apply (Permutation_in _ (Permutation_sym (find_perm _ _ _))).
      apply filter_In. split; [exact Hin |].
      unfold Agent.textMatches. destruct (Agent.opt_exact options).
      * now apply String.eqb_eq.
      * now apply includes_spec.
  - apply find_perm.
  - unfold Agent.find, Agent.textMatches. cbn [Agent.opt_near Agent.opt_exact].
    apply List.filter_ext. intros w. now destruct (Agent.opt_exact options).
  - rewrite (Permutation_length (find_perm _ _ _)).
    pose proof (List.filter_length_le
                  (Agent.textMatches (Agent.opt_exact options) (JS.toLowerCase text))
                  lastWords) as H.
    lia.
  - unfold Agent.find. cbn. apply filter_true. intros w.
    unfold Agent.textMatches. apply includes_empty.
Qed.


(** ** agent.js: the keys [hotkey] sends *)

Lemma lowerAscii_idempotent (c : ascii) :
  JS.lowerAscii (JS.lowerAscii c) = JS.lowerAscii c.
Proof. destruct c as [[] [] [] [] [] [] [] []]; reflexivity. Qed.

Lemma toLowerCase_idempotent (s : string) :
  JS.toLowerCase (JS.toLowerCase s) = JS.toLowerCase s.
Proof.
  induction s as [| c s IH]; cbn; [reflexivity |].
  now rewrite lowerAscii_idempotent, IH.
Qed.

Lemma toLowerCase_app (s t : string) :
  JS.toLowerCase (s ++ t) = JS.toLowerCase s ++ JS.toLowerCase t.
Proof.
  induction s as [| c s IH]; [reflexivity |].
  cbv [String.append]; fold String.append. cbn [JS.toLowerCase].
  cbv [String.append]; fold String.append. now rewrite IH.
Qed.

Lemma splitPlus_plus (acc s t : string) :
  Agent.splitPlus acc (s ++ String "+" t)
  = (Agent.splitPlus acc s ++ Agent.splitPlus EmptyString t)%list.
Proof.
  revert acc. induction s as [| c s IH]; intros acc.
  - reflexivity.
  - cbv [String.append]; fold String.append. cbn [Agent.splitPlus].
    destruct (Ascii.eqb c "+"); rewrite IH; reflexivity.
Qed.

Lemma append_assoc (s t u : string) : (s ++ t) ++ u = s ++ (t ++ u).
Proof.
  induction s as [| c s IH]; [reflexivity |].
  cbv [String.append]; fold String.append. now rewrite IH.
Qed.

Lemma append_nil_r (s : string) : s ++ EmptyString = s.
Proof.
  induction s as [| c s IH]; [reflexivity |].
  cbv [String.append]; fold String.append. now rewrite IH.
Qed.

Lemma translate_from (parts : list string) (init : string) :
  fold_left (fun sendKeys part => sendKeys ++ Agent.lookupKey part Agent.keyMap)
    parts init
  = init ++ fold_left (fun sendKeys part => sendKeys ++ Agent.lookupKey part Agent.keyMap)
              parts EmptyString.
Proof.
  revert init. induction parts as [| part parts IH]; intros init; cbn [fold_left].
  - now rewrite append_nil_r.
  - rewrite IH. rewrite (IH (EmptyString ++ _)). now rewrite append_assoc.
Qed.

Lemma splitPlus_no_plus (acc s : string) :
  JS.includes "+" s = false -> Agent.splitPlus acc s = [acc ++ s].
Proof.
  revert acc. induction s as [| c s IH]; intros acc Hs.
  - cbn. now rewrite append_nil_r.
  - cbn [JS.includes JS.startsWith] in Hs. cbn [Agent.splitPlus].
    apply orb_false_iff in Hs as [Hc Hs].
    destruct (Ascii.eqb_spec c "+") as [-> | Hne]; [discriminate Hc |].
    rewrite (IH _ Hs), append_assoc. reflexivity.
Qed.

(** X10.  The keys [hotkey] sends.  The translation works part by part:
    for keys joined by "+", the text sent is the text for the left side
    followed by the text for the right side; upper and lower case are the
    same; and keys without "+" are translated by one lookup of their
    lower-case form in [keyMap]. *)
Theorem sendKeysOf_parts (left right : string) :
  Agent.sendKeysOf (left ++ String "+" right)
  = Agent.sendKeysOf left ++ Agent.sendKeysOf right /\
  Agent.sendKeysOf (JS.toLowerCase left) = Agent.sendKeysOf left /\
  (JS.includes "+" left = false ->
   Agent.sendKeysOf left = Agent.lookupKey (JS.toLowerCase left) Agent.keyMap).
Proof.
  unfold Agent.sendKeysOf. split; [| split].
  - rewrite toLowerCase_app. cbn [JS.toLowerCase].
    change (JS.lowerAscii "+") with "+"%char.
    rewrite splitPlus_plus, fold_left_app, translate_from. reflexivity.
  - now rewrite toLowerCase_idempotent.
  - intros Hplus. rewrite splitPlus_no_plus.
    + reflexivity.
    + clear -Hplus. induction left as [| c s IH]; [reflexivity |].
      cbn [JS.includes JS.startsWith JS.toLowerCase] in Hplus |- *.
      apply orb_false_iff in Hplus as [Hc Hs].
      rewrite (IH Hs), orb_false_r.
      destruct c as [[] [] [] [] [] [] [] []]; try reflexivity; discriminate Hc.
Qed.

(** The witness of X10: "Enter" has no "+" and is sent as the table says. *)
Lemma sendKeysOf_parts_witness :
  JS.includes "+" "Enter" = false /\
  Agent.sendKeysOf "Enter" = Agent.lookupKey "enter" Agent.keyMap.
Proof.
  split; [reflexivity |].
  apply (proj2 (proj2 (sendKeysOf_parts "Enter" EmptyString))). reflexivity.
Defined.

(** ** agent.js: the text [type] sends *)

Lemma special_brace (c : ascii) :
  AgentText.isSpecial c = false -> Ascii.eqb c "{" = false.
Proof.
  destruct (Ascii.eqb_spec c "{") as [-> | H]; [discriminate | reflexivity].
Qed.

Lemma unescape_escape (text : string) :
  AgentText.unescapeSendKeys (AgentText.escapeSendKeys text) = text.
Proof.
  induction text as [| c text IH]; [reflexivity |].
  cbn [AgentText.escapeSendKeys].
  destruct (AgentText.isSpecial c) eqn:Hc.
  - cbn [AgentText.unescapeSendKeys]. rewrite Hc. cbn. now rewrite IH.
  - cbn [AgentText.unescapeSendKeys]. rewrite (special_brace c Hc). cbn [andb].
    rewrite IH. now destruct (AgentText.escapeSendKeys text) as [| ? [| ? ?]].
Qed.

Lemma unquote_quote (s : string) : AgentText.unquotePS (AgentText.quotePS s) = s.
Proof.
  induction s as [| c s IH]; [reflexivity |].
  cbn [AgentText.quotePS].
  destruct (Ascii.eqb_spec c AgentText.squote) as [-> | Hc].
  - cbn [AgentText.unquotePS]. cbn. now rewrite IH.
  - cbn [AgentText.unquotePS].
    destruct (AgentText.quotePS s) as [| b rest] eqn:Hq.
    + cbn in IH. now rewrite <- IH.
    + destruct (Ascii.eqb_spec c AgentText.squote); [contradiction |].
      cbn [andb]. now rewrite IH.
Qed.

Lemma escape_plain (text : string) :
  forallb (fun c => negb (AgentText.isSpecial c) && negb (Ascii.eqb c AgentText.squote))
    (list_ascii_of_string text) = true ->
  AgentText.sendWaitArgument text = text.
Proof.
  unfold AgentText.sendWaitArgument.
  induction text as [| c text IH]; [reflexivity |].
  cbn [list_ascii_of_string forallb]. intros H.
  apply andb_true_iff in H as [Hc Ht]. apply andb_true_iff in Hc as [Hs Hq].
  apply negb_true_iff in Hs, Hq.
  cbn [AgentText.escapeSendKeys]. rewrite Hs. cbn [AgentText.quotePS]. rewrite Hq.
  now rewrite (IH Ht).
Qed.

(** The two replacements of [type] lose nothing: undoing them gives the
    text back, so different texts give different arguments. *)
Lemma sendWaitArgument_injective (text other : string) :
  AgentText.sendWaitArgument other = AgentText.sendWaitArgument text -> other = text.
Proof.
  assert (Hback : forall s,
            AgentText.unescapeSendKeys
              (AgentText.unquotePS (AgentText.sendWaitArgument s)) = s).
  { intros s. unfold AgentText.sendWaitArgument.
    now rewrite unquote_quote, unescape_escape. }
  intros Heq. rewrite <- (Hback other), Heq. apply Hback.
Qed.

Lemma sendWaitArgument_app (s t : string) :
  AgentText.sendWaitArgument (s ++ t)
  = AgentText.sendWaitArgument s ++ AgentText.sendWaitArgument t.
Proof.
  unfold AgentText.sendWaitArgument.
  induction s as [| c s IH]; [reflexivity |].
  cbv [String.append]; fold String.append. cbn [AgentText.escapeSendKeys].
  destruct (AgentText.isSpecial c) eqn:Hc.
  - assert (Hq : Ascii.eqb c AgentText.squote = false)
      by (destruct (Ascii.eqb_spec c AgentText.squote) as [-> |]; [discriminate | reflexivity]).
    cbn [AgentText.quotePS]. rewrite Hq. cbn. rewrite IH.
    cbv [String.append]; fold String.append. reflexivity.
  - cbn [AgentText.quotePS].
    destruct (Ascii.eqb c AgentText.squote); rewrite IH;
      cbv [String.append]; fold String.append; reflexivity.
Qed.

Lemma noCR_cons (c : ascii) (s : string) :
  AgentShell.noCR (String c s)
  = negb (Ascii.eqb c AgentShell.cr) && AgentShell.noCR s.
Proof. reflexivity. Qed.

Lemma escape_noCR (s : string) :
  AgentShell.noCR s = true -> AgentShell.noCR (AgentText.escapeSendKeys s) = true.
Proof.
  induction s as [| c s IH]; [reflexivity |].
  rewrite noCR_cons. intros H. apply andb_true_iff in H as [Hc Hs].
  cbn [AgentText.escapeSendKeys].
  destruct (AgentText.isSpecial c); rewrite !noCR_cons, Hc, (IH Hs); reflexivity.
Qed.

Lemma quote_noCR (s : string) :
  AgentShell.noCR s = true -> AgentShell.noCR (AgentText.quotePS s) = true.
Proof.
  induction s as [| c s IH]; [reflexivity |].
  rewrite noCR_cons. intros H. apply andb_true_iff in H as [Hc Hs].
  cbn [AgentText.quotePS].
  destruct (Ascii.eqb c AgentText.squote); rewrite !noCR_cons, ?Hc, (IH Hs); reflexivity.
Qed.

Lemma sendWaitArgument_noCR (s : string) :
  AgentShell.noCR s = true -> AgentShell.noCR (AgentText.sendWaitArgument s) = true.
Proof. intros H. unfold AgentText.sendWaitArgument. now apply quote_noCR, escape_noCR. Qed.

Lemma normalize_keep (c : ascii) (s : string) :
  Ascii.eqb c AgentShell.cr = false ->
  AgentShell.normalizeNewlines (String c s) = String c (AgentShell.normalizeNewlines s).
Proof.
  intros Hc. cbn [AgentShell.normalizeNewlines]. rewrite Hc. now destruct s.
Qed.

Lemma normalize_noCR_app (s t : string) :
  AgentShell.noCR s = true ->
  AgentShell.normalizeNewlines (s ++ t) = s ++ AgentShell.normalizeNewlines t.
Proof.
  induction s as [| c s IH]; [reflexivity |].
  rewrite noCR_cons. intros H. apply andb_true_iff in H as [Hc Hs].
  apply negb_true_iff in Hc.
  cbv [String.append]; fold String.append.
  rewrite normalize_keep by exact Hc. now rewrite IH.
Qed.

Lemma normalize_noCR (s : string) :
  AgentShell.noCR s = true -> AgentShell.normalizeNewlines s = s.
Proof.
  intros H. rewrite <- (append_nil_r s) at 1.
  rewrite normalize_noCR_app by exact H. apply append_nil_r.
Qed.

(** Normalising stops at a character that is no line feed. *)
Lemma normalize_app_char (s : string) (q : ascii) (t : string) :
  Ascii.eqb q AgentShell.lf = false ->
  AgentShell.normalizeNewlines (s ++ String q t)
  = AgentShell.normalizeNewlines s ++ AgentShell.normalizeNewlines (String q t).
Proof.
  intros Hq. induction s as [| c s IH]; [reflexivity |].
  cbv [String.append]; fold String.append.
  destruct s as [| d s].
  - cbv [String.append]. cbn [AgentShell.normalizeNewlines].
    rewrite Hq, andb_false_r. reflexivity.
  - cbv [String.append] in IH |- *; fold String.append in IH |- *.
    cbn [AgentShell.normalizeNewlines] in IH |- *.
    destruct (Ascii.eqb c AgentShell.cr && Ascii.eqb d AgentShell.lf).
    + exact IH.
    + cbv [String.append]; fold String.append. now rewrite IH.
Qed.

Lemma trimEnd_app (s t : string) :
  AgentShell.trimEnd t <> EmptyString ->
  AgentShell.trimEnd (s ++ t) = s ++ AgentShell.trimEnd t.
Proof.
  intros Ht. induction s as [| c s IH]; [reflexivity |].
  cbv [String.append]; fold String.append. cbn [AgentShell.trimEnd]. rewrite IH.
  destruct (s ++ AgentShell.trimEnd t) as [| k kept] eqn:Hkept; [| reflexivity].
  exfalso. destruct s; [now apply Ht | discriminate Hkept].
Qed.

Lemma append_inv_head (s x y : string) : s ++ x = s ++ y -> x = y.
Proof.
  induction s as [| c s IH]; [trivial |].
  cbv [String.append]; fold String.append. intros H. inversion H. now apply IH.
Qed.

Lemma list_of_append (s t : string) :
  list_ascii_of_string (s ++ t) = (list_ascii_of_string s ++ list_ascii_of_string t)%list.
Proof.
  induction s as [| c s IH]; [reflexivity |].
  cbv [String.append]; fold String.append. cbn. now rewrite IH.
Qed.

Lemma append_inv_tail (s x y : string) : x ++ s = y ++ s -> x = y.
Proof.
  intros H. apply (f_equal list_ascii_of_string) in H.
  rewrite !list_of_append in H. apply List.app_inv_tail in H.
  rewrite <- (string_of_list_ascii_of_string x), <- (string_of_list_ascii_of_string y).
  now rewrite H.
Qed.

(** What [runPS] makes of the script of [type]: the white space around
    the script goes, the argument stays where it is, its line ends
    normalised. *)
Lemma typeFile_shape (text : string) :
  AgentShell.typeFile text
  = AgentShell.fileHead
    ++ AgentShell.normalizeNewlines (AgentText.sendWaitArgument text)
    ++ AgentShell.fileTail.
Proof.
  unfold AgentShell.typeFile, AgentShell.cleaned, AgentShell.typeScript.
  set (arg := AgentText.sendWaitArgument text).
  assert (Hnorm :
    AgentShell.normalizeNewlines
      (String AgentShell.lf
         ("      Add-Type -AssemblyName System.Windows.Forms"
          ++ String AgentShell.lf
               ("      [System.Windows.Forms.SendKeys]::SendWait('"
                ++ arg ++ "')" ++ String AgentShell.lf "    ")))
    = (String AgentShell.lf
         ("      Add-Type -AssemblyName System.Windows.Forms"
          ++ String AgentShell.lf "      [System.Windows.Forms.SendKeys]::SendWait("))
      ++ String AgentText.squote
           (AgentShell.normalizeNewlines arg ++ "')" ++ String AgentShell.lf "    ")).
  { change (String AgentShell.lf
              ("      Add-Type -AssemblyName System.Windows.Forms"
               ++ String AgentShell.lf
                    ("      [System.Windows.Forms.SendKeys]::SendWait('"
                     ++ arg ++ "')" ++ String AgentShell.lf "    ")))
      with ((String AgentShell.lf
               ("      Add-Type -AssemblyName System.Windows.Forms"
                ++ String AgentShell.lf "      [System.Windows.Forms.SendKeys]::SendWait("))
            ++ String AgentText.squote
                 (arg ++ String AgentText.squote (")" ++ String AgentShell.lf "    "))).
    rewrite (normalize_app_char
               (String AgentShell.lf
                  ("      Add-Type -AssemblyName System.Windows.Forms"
                   ++ String AgentShell.lf
                        "      [System.Windows.Forms.SendKeys]::SendWait("))
               AgentText.squote _ eq_refl).
    rewrite (normalize_keep AgentText.squote _ eq_refl).
    rewrite (normalize_app_char arg AgentText.squote _ eq_refl).
    reflexivity. }
  rewrite Hnorm. unfold AgentShell.trim.
  change (AgentShell.trimStart
            ((String AgentShell.lf
                ("      Add-Type -AssemblyName System.Windows.Forms"
                 ++ String AgentShell.lf "      [System.Windows.Forms.SendKeys]::SendWait("))
             ++ String AgentText.squote
                  (AgentShell.normalizeNewlines arg ++ "')" ++ String AgentShell.lf "    ")))
    with (AgentShell.fileHead
          ++ AgentShell.normalizeNewlines arg ++ "')" ++ String AgentShell.lf "    ").
  rewrite trimEnd_app.
  - f_equal. rewrite trimEnd_app by (vm_compute; discriminate). reflexivity.
  - rewrite trimEnd_app by (vm_compute; discriminate).
    destruct (AgentShell.normalizeNewlines arg); vm_compute; discriminate.
Qed.

(** X11.  The script file [type] runs.  [runPS] strips the white space
    around the script and turns every carriage return with line feed into a
    line feed, in the argument too: the file is the two fixed lines with the
    argument, its line ends normalised, between the quotes.  So a text with
    a carriage return and line feed and the same text with the line feed
    alone give the same file; for texts without carriage returns nothing is
    lost: two different texts give different files; and a text without
    special characters, single quotes and carriage returns stands in the
    file unchanged. *)
Theorem type_script_file (text : string) :
  AgentShell.typeFile text
  = AgentShell.fileHead
    ++ AgentShell.normalizeNewlines (AgentText.sendWaitArgument text)
    ++ AgentShell.fileTail /\
  (forall before after,
     AgentShell.noCR before = true ->
     AgentShell.typeFile (before ++ String AgentShell.cr (String AgentShell.lf after))
     = AgentShell.typeFile (before ++ String AgentShell.lf after)) /\
  (AgentShell.noCR text = true ->
   forall other,
     AgentShell.noCR other = true ->
     AgentShell.typeFile other = AgentShell.typeFile text -> other = text) /\
  (AgentShell.plainText text = true ->
   AgentShell.typeFile text = AgentShell.fileHead ++ text ++ AgentShell.fileTail).
Proof.
  split; [apply typeFile_shape |]. split; [| split].
  - intros before after Hbefore. rewrite !typeFile_shape. f_equal. f_equal.
    rewrite !sendWaitArgument_app.
    rewrite !normalize_noCR_app by now apply sendWaitArgument_noCR.
    f_equal.
  - intros Htext other Hother Hfile. rewrite !typeFile_shape in Hfile.
    apply append_inv_head, append_inv_tail in Hfile.
    rewrite !normalize_noCR in Hfile by now apply sendWaitArgument_noCR.
    now apply sendWaitArgument_injective.
  - intros Hplain. rewrite typeFile_shape.
    assert (Hparts : forallb (fun c => negb (AgentText.isSpecial c)
                                       && negb (Ascii.eqb c AgentText.squote))
                       (list_ascii_of_string text) = true
                     /\ AgentShell.noCR text = true).
    { unfold AgentShell.plainText, AgentShell.noCR in *.
      induction (list_ascii_of_string text) as [| c l IH]; [split; reflexivity |].
      cbn [forallb] in *. apply andb_true_iff in Hplain as [Hc Hl].
      apply andb_true_iff in Hc as [Hc Hcr].
      destruct (IH Hl) as [H1 H2]. now rewrite Hc, Hcr, H1, H2. }
    destruct Hparts as [Hsafe Hcr].
    rewrite (escape_plain text Hsafe). now rewrite normalize_noCR.
Qed.

(** The witness of X11: "hello world" has no special character, no
    quote and no carriage return. *)
Lemma type_script_file_witness :
  AgentShell.typeFile "hello world"
  = AgentShell.fileHead ++ "hello world" ++ AgentShell.fileTail.
Proof.
  apply (proj2 (proj2 (proj2 (type_script_file "hello world")))). reflexivity.
Defined.

(** ** agent.js: how [execute] ends *)

Section ExecuteOutcome.
Variable world : Agent.World.

Lemma execute_app (before after : list Agent.Action) :
  forall s s1,
    Agent.execute world before s = (Agent.Return tt, s1) ->
    Agent.execute world (before ++ after) s = Agent.execute world after s1.
Proof.
  induction before as [| b before IH]; intros s s1 Hbefore;
    cbn [Agent.execute app] in *.
  - now inversion Hbefore.
  - unfold Agent.bind in *.
    destruct (Agent.step world b s) as [[[] | e'] s']; [| discriminate].
    now apply IH.
Qed.

Lemma request_grows (p : Agent.Prim) (s : Agent.State) :
  exists more, Agent.requests (snd (Agent.request world p s))
               = (Agent.requests s ++ more)%list.
Proof.
  unfold Agent.request. exists [p].
  now destruct (world (length (Agent.requests s))).
Qed.

(** X12.  How [execute] ends.  A list of actions either runs to its end,
    and then every action was begun, in order; or it throws, and then it
    threw at the first action whose step throws: the actions before it ran
    normally, that action and those before it were begun, and none after
    it. *)
Theorem execute_outcome (actions : list Agent.Action) (s : Agent.State) :
  match Agent.execute world actions s with
  | (Agent.Return _, s') => Agent.begun s' = (Agent.begun s ++ actions)%list
  | (Agent.Throw e, s') =>
      exists before a after s1,
        actions = (before ++ a :: after)%list /\
        Agent.execute world before s = (Agent.Return tt, s1) /\
        Agent.step world a s1 = (Agent.Throw e, s') /\
        Agent.begun s' = (Agent.begun s ++ before ++ [a])%list
  end.
Proof.
  revert s. induction actions as [| a rest IH]; intros s.
  - cbn. now rewrite app_nil_r.
  - cbn [Agent.execute]. unfold Agent.bind.
    pose proof (step_begun world a s) as Ha.
    destruct (Agent.step world a s) as [[[] | e] s1] eqn:Hstep; cbn [snd] in Ha.
    + specialize (IH s1).
      destruct (Agent.execute world rest s1) as [[[] | e] s'] eqn:Hrest.
      * rewrite IH, Ha. now rewrite <- app_assoc.
      * destruct IH as (before & b & after & s2 & -> & Hbefore & Hthrow & Hbegun).
        exists (a :: before), b, after, s2. repeat split.
        -- cbn [Agent.execute]. unfold Agent.bind. now rewrite Hstep.
        -- exact Hthrow.
        -- rewrite Hbegun, Ha. now rewrite <- !app_assoc.
    + exists [], a, rest, s. repeat split; [exact Hstep | exact Ha].
Qed.

Lemma step_harmless (a : Agent.Action) (s : Agent.State) :
  AgentText.harmless a = true ->
  exists s' waits,
    Agent.step world a s = (Agent.Return tt, s') /\
    Agent.lastWords s' = Agent.lastWords s /\
    Agent.requests s' = (Agent.requests s ++ waits)%list /\
    forallb AgentText.isWaitRequest waits = true.
Proof.
  destruct a as [t w]. unfold AgentText.harmless. cbn [Agent.act_type].
  intros Ht. unfold Agent.step. cbn [Agent.act_type Agent.act_wait].
  destruct t; try discriminate Ht;
    (destruct w as [ms' |]; [destruct (ms' =? 0) |]);
    unfold Agent.ret, Agent.wait; cbn;
    eexists; eexists; (split; [reflexivity |]); cbn;
    (split; [reflexivity |]);
    (split; [first [ reflexivity | symmetry; apply app_nil_r
                   | rewrite <- app_assoc; reflexivity ] | reflexivity]).
Qed.

(** X13.  Actions that cannot fail.  A list made of [wait] and [log]
    actions, and of actions of a type [execute] does not know, runs to its
    end whatever the outside world does: every action is begun, the words of
    the last screen stay as they were, and nothing is asked of the outside
    world but timers. *)
Theorem harmless_actions_complete (actions : list Agent.Action) (s : Agent.State) :
  forallb AgentText.harmless actions = true ->
  exists s' waits,
    Agent.execute world actions s = (Agent.Return tt, s') /\
    Agent.begun s' = (Agent.begun s ++ actions)%list /\
    Agent.lastWords s' = Agent.lastWords s /\
    Agent.requests s' = (Agent.requests s ++ waits)%list /\
    forallb AgentText.isWaitRequest waits = true.
Proof.
  revert s. induction actions as [| a rest IH]; intros s Hall.
  - exists s, []. cbn. rewrite !app_nil_r. auto.
  - cbn [forallb] in Hall. apply andb_true_iff in Hall as [Ha Hrest].
    destruct (step_harmless a s Ha) as (s1 & w1 & Hstep & Hwords1 & Hreq1 & Hw1).
    destruct (IH s1 Hrest) as (s' & w2 & Hrun & Hbegun & Hwords & Hreq & Hw2).
    exists s', (w1 ++ w2)%list.
    assert (Hexec : Agent.execute world (a :: rest) s = (Agent.Return tt, s')).
    { cbn [Agent.execute]. unfold Agent.bind. now rewrite Hstep. }
    split; [exact Hexec |].
    split; [exact (execute_begun world _ _ _ Hexec) |].
    split; [congruence |].
    split; [rewrite Hreq, Hreq1; now rewrite <- app_assoc |].
    rewrite forallb_app. now rewrite Hw1, Hw2.
Qed.

End ExecuteOutcome.

(** The witness of X13: a wait and a log in a world where every request
    fails. *)
Lemma harmless_actions_complete_witness :
  forallb AgentText.harmless
    [Gateway.plain (Agent.AWait 500); Gateway.plain (Agent.ALog "done")] = true /\
  exists s' waits,
    Agent.execute GatewayTally.allFails
      [Gateway.plain (Agent.AWait 500); Gateway.plain (Agent.ALog "done")] Agent.fresh
    = (Agent.Return tt, s') /\
    Agent.begun s'
    = (Agent.begun Agent.fresh
       ++ [Gateway.plain (Agent.AWait 500); Gateway.plain (Agent.ALog "done")])%list /\
    Agent.lastWords s' = Agent.lastWords Agent.fresh /\
    Agent.requests s' = (Agent.requests Agent.fresh ++ waits)%list /\
    forallb AgentText.isWaitRequest waits = true.
Proof.
  split; [reflexivity |].
  apply (harmless_actions_complete GatewayTally.allFails). reflexivity.
Defined.

(** ** gateway.js: a task that runs to its end *)

(** X14.  Task success.  In a state the gateway reaches with a task
    running whose actions all run normally, the end of its execution leaves
    the task as the current one with status completed, the time of completion
    and no error; all its actions were begun; the task is announced as
    completed; the queue, the session and the statistics are as before; and
    the timer that follows starts the head of the queue, or clears the
    current task when nothing is queued. *)
Theorem task_success (world : Agent.World) (d : Gateway.Disk) (now0 : Z)
    (events : list Gateway.Event) (now : Z) (t : Gateway.Task) (a' : Agent.State) :
  let st := Gateway.run world (Gateway.startup d now0) events in
  Gateway.currentTask st = Some t ->
  Gateway.task_status t = Gateway.running ->
  Agent.execute world (Gateway.task_actions t) (Gateway.agent st) = (Agent.Return tt, a') ->
  let st' := Gateway.step world st (Gateway.TaskExecuted now) in
  let done := Gateway.setStatus t Gateway.completed (Gateway.task_startedAt t)
                (Some now) None in
  Gateway.currentTask st' = Some done /\
  Agent.begun (Gateway.agent st')
  = (Agent.begun (Gateway.agent st) ++ Gateway.task_actions t)%list /\
  Gateway.outbox st' = (Gateway.outbox st ++ [Gateway.TaskCompleted done])%list /\
  Gateway.taskQueue st' = Gateway.taskQueue st /\
  Gateway.session st' = Gateway.session st /\
  Gateway.stats st' = Gateway.stats st /\
  forall now',
    let st'' := Gateway.step world st' (Gateway.TimerFired now') in
    match Gateway.taskQueue st with
    | next :: rest =>
        Gateway.currentTask st'' =
          Some (Gateway.setStatus next Gateway.running (Some now') None None) /\
        Gateway.taskQueue st'' = rest
    | [] => Gateway.currentTask st'' = None
    end.
Proof.
  cbv zeta. intros Hcur Hstatus Hrun.
  pose proof (run_wellFormed world events _ (startup_wellFormed d now0)) as Hwf.
  set (st := Gateway.run world (Gateway.startup d now0) events) in *.
  assert (Htimers : Gateway.timers st = O).
  { destruct Hwf as (_ & _ & Hc). rewrite Hcur in Hc.
    destruct Hc as [[_ H] | [[H | H] _]]; [exact H | congruence | congruence]. }
  cbn [Gateway.step]. unfold Gateway.completeTask.
  rewrite Hcur, Hstatus, Hrun.
  cbn [Gateway.currentTask Gateway.agent Gateway.outbox Gateway.send Gateway.setTasks
       Gateway.setAgent Gateway.taskQueue Gateway.session Gateway.stats Gateway.timers].
  rewrite Htimers.
  repeat (split; [first [reflexivity | exact (execute_begun world _ _ _ Hrun)] |]).
  intros now'. unfold Gateway.processTaskQueue.
  cbn [Gateway.taskQueue Gateway.setTasks].
  destruct (Gateway.taskQueue st) as [| next rest]; cbn; auto.
Qed.

(** The witness of X14: one task of a half-second wait, submitted to an
    idle gateway, then the end of its execution. *)
Lemma task_success_witness :
  let st := Gateway.run GatewayTally.allFails (Gateway.startup Gateway.emptyDisk Gateway.someTime)
              [Gateway.enqueue (Gateway.someTime + 10) "pause" 0] in
  let st' := Gateway.step GatewayTally.allFails st
               (Gateway.TaskExecuted (Gateway.someTime + 510)) in
  exists done,
    Gateway.currentTask st' = Some done /\
    Gateway.task_status done = Gateway.completed /\
    Gateway.task_completedAt done = Some (Gateway.someTime + 510) /\
    Gateway.stats st' = Gateway.stats st.
Proof.
  cbv zeta.
  eexists.
  pose proof (task_success GatewayTally.allFails Gateway.emptyDisk Gateway.someTime
                [Gateway.enqueue (Gateway.someTime + 10) "pause" 0]
                (Gateway.someTime + 510) _ _ eq_refl eq_refl eq_refl) as H.
  cbv zeta in H. destruct H as (Hcur & _ & _ & _ & _ & Hstats & _).
  split; [exact Hcur |]. split; [reflexivity |]. split; [reflexivity | exact Hstats].
Defined.

(** ** gateway.js: the statistics *)

Lemma tally_app (f : Gateway.ServerMsg -> Z) (sent : list Gateway.ServerMsg)
    (m : Gateway.ServerMsg) :
  GatewayTally.tally f (sent ++ [m]) = GatewayTally.tally f sent + f m.
Proof.
  unfold GatewayTally.tally. induction sent as [| a sent IH]; cbn; [lia |].
  rewrite IH. lia.
Qed.

Lemma tally_nonneg (f : Gateway.ServerMsg -> Z) (sent : list Gateway.ServerMsg) :
  (forall m, 0 <= f m) -> 0 <= GatewayTally.tally f sent.
Proof.
  intros Hf. unfold GatewayTally.tally.
  induction sent as [| a sent IH]; cbn; [lia |]. specialize (Hf a). lia.
Qed.

Lemma tally_le (f g : Gateway.ServerMsg -> Z) (sent : list Gateway.ServerMsg) :
  (forall m, f m <= g m) -> GatewayTally.tally f sent <= GatewayTally.tally g sent.
Proof.
  intros Hfg. unfold GatewayTally.tally.
  induction sent as [| a sent IH]; cbn; [lia |]. specialize (Hfg a). lia.
Qed.

Lemma tally_plus (f g : Gateway.ServerMsg -> Z) (sent : list Gateway.ServerMsg) :
  GatewayTally.tally (fun m => f m + g m) sent
  = GatewayTally.tally f sent + GatewayTally.tally g sent.
Proof.
  unfold GatewayTally.tally. induction sent as [| a sent IH]; cbn; [lia |].
  rewrite IH. lia.
Qed.

Section StatsFacts.
Variable world : Agent.World.
Variable now0 : Z.

Lemma statsMatch_frame (st st' : Gateway.State) :
  Gateway.stats st' = Gateway.stats st ->
  Gateway.outbox st' = Gateway.outbox st ->
  GatewayTally.statsMatch now0 st -> GatewayTally.statsMatch now0 st'.
Proof. unfold GatewayTally.statsMatch. intros -> ->. auto. Qed.

Lemma statsMatch_send (st st' : Gateway.State) (m : Gateway.ServerMsg) :
  Gateway.stats st' = Gateway.stats st ->
  Gateway.outbox st' = Gateway.outbox st ->
  GatewayTally.actionsOf m = 0 ->
  GatewayTally.statsMatch now0 st ->
  GatewayTally.statsMatch now0 (Gateway.send st' m).
Proof.
  unfold GatewayTally.statsMatch. intros Hs Ho Hm (Ha & Hc & Ht & Hu).
  cbn [Gateway.send Gateway.stats Gateway.outbox]. rewrite Hs, Ho, !tally_app.
  assert (GatewayTally.clicksOf m = 0 /\ GatewayTally.typesOf m = 0) as [Hmc Hmt].
  { destruct m; cbn in Hm |- *; try discriminate Hm; try (split; reflexivity);
      match goal with
      | H : (if ?b then _ else _) = 0 |- _ =>
          destruct b; [discriminate H | split; reflexivity]
      end. }
  rewrite Hm, Hmc, Hmt. repeat split; lia.
Qed.

Lemma statsMatch_counted (st st' : Gateway.State) (m : Gateway.ServerMsg) (clicks types : Z) :
  Gateway.stats st' = Gateway.stats st ->
  Gateway.outbox st' = Gateway.outbox st ->
  GatewayTally.actionsOf m = 1 ->
  GatewayTally.clicksOf m = clicks ->
  GatewayTally.typesOf m = types ->
  GatewayTally.statsMatch now0 st ->
  GatewayTally.statsMatch now0 (Gateway.send (Gateway.countAction st' clicks types) m).
Proof.
  unfold GatewayTally.statsMatch. intros Hs Ho Hm Hmc Hmt (Ha & Hc & Ht & Hu).
  cbn [Gateway.send Gateway.countAction Gateway.setStats Gateway.stats Gateway.outbox
       Gateway.totalActions Gateway.totalClicks Gateway.totalTypes Gateway.uptime].
  rewrite Hs, Ho, !tally_app, Hm, Hmc, Hmt. repeat split; lia.
Qed.

Lemma saveSession_stats (st : Gateway.State) :
  Gateway.stats (Gateway.saveSession st) = Gateway.stats st.
Proof. unfold Gateway.saveSession. now destruct (Gateway.writable _). Qed.

Lemma saveSession_outbox (st : Gateway.State) :
  Gateway.outbox (Gateway.saveSession st) = Gateway.outbox st.
Proof. unfold Gateway.saveSession. now destruct (Gateway.writable _). Qed.

Lemma step_statsMatch (st : Gateway.State) (e : Gateway.Event) :
  GatewayTally.statsMatch now0 st -> GatewayTally.statsMatch now0 (Gateway.step world st e).
Proof.
  intros Hs. destruct e as [now msg | now | now |]; cbn [Gateway.step].
  - destruct msg; cbn [Gateway.handleMessage].
    + now apply (statsMatch_send st).
    + unfold Gateway.handleSee.
      destruct (Agent.see world (Gateway.agent st)) as [[ws | e] a].
      * cbv zeta. apply (statsMatch_send st);
          [now rewrite saveSession_stats | now rewrite saveSession_outbox
          | reflexivity | exact Hs].
      * now apply (statsMatch_send st).
    + unfold Gateway.handleClick.
      destruct (Agent.click _ _ _ _) as [[[] | e] a].
      * now apply (statsMatch_counted st).
      * now apply (statsMatch_send st).
    + unfold Gateway.handleClickOn.
      destruct (Agent.see world (Gateway.agent st)) as [[ws | e] a];
        [| now apply (statsMatch_send st)].
      cbv zeta.
      destruct (Agent.find _ _ _) as [| target more].
      * cbn [Gateway.session Gateway.setAgent].
        destruct (Gateway.learnedPositions (Gateway.session st) !! text) as [learned |].
        -- destruct (Agent.click _ _ _ _) as [[[] | e] a2].
           ++ now apply (statsMatch_counted st).
           ++ now apply (statsMatch_send st).
        -- now apply (statsMatch_send st).
      * destruct (Agent.click _ _ _ _) as [[[] | e] a2].
        -- apply (statsMatch_counted st);
             [now rewrite saveSession_stats | now rewrite saveSession_outbox
             | reflexivity | reflexivity | reflexivity | exact Hs].
        -- now apply (statsMatch_send st).
    + unfold Gateway.handleType.
      destruct (Agent.type _ _ _) as [[[] | e] a].
      * now apply (statsMatch_counted st).
      * now apply (statsMatch_send st).
    + unfold Gateway.handleHotkey.
      destruct (Agent.hotkey _ _ _) as [[[] | e] a].
      * now apply (statsMatch_counted st).
      * now apply (statsMatch_send st).
    + unfold Gateway.handleUrlBar.
      destruct (Agent.urlBar _ _ _) as [[[] | e] a].
      * now apply (statsMatch_counted st).
      * now apply (statsMatch_send st).
    + unfold Gateway.handleTask. cbv zeta.
      cbn [Gateway.currentTask Gateway.send Gateway.setTasks].
      destruct (Gateway.currentTask st) as [c |].
      * now apply (statsMatch_send st).
      * unfold Gateway.processTaskQueue.
        cbn [Gateway.taskQueue Gateway.send Gateway.setTasks].
        destruct (Gateway.byPriority _) as [| t rest].
        -- apply (statsMatch_frame (Gateway.send st (Gateway.TaskQueued
                     (Gateway.newTask now name actions priority))));
             [reflexivity | reflexivity |]. now apply (statsMatch_send st).
        -- apply (statsMatch_send (Gateway.send st (Gateway.TaskQueued
                     (Gateway.newTask now name actions priority))));
             [reflexivity | reflexivity | reflexivity |].
           now apply (statsMatch_send st).
    + now apply (statsMatch_send st).
    + destruct (String.eqb type "clicked") eqn:Hclicked.
      * destruct Hs as (Ha & Hc & Ht & Hu). unfold GatewayTally.statsMatch.
        cbn [Gateway.send Gateway.countAction Gateway.setStats Gateway.stats
             Gateway.outbox Gateway.totalActions Gateway.totalClicks
             Gateway.totalTypes Gateway.uptime].
        rewrite !tally_app. cbn [GatewayTally.actionsOf GatewayTally.clicksOf
                                 GatewayTally.typesOf].
        rewrite Hclicked. repeat split; lia.
      * apply (statsMatch_send st); try reflexivity; try exact Hs.
        cbn. now rewrite Hclicked.
    + destruct (Gateway.autonomousProcess st).
      * now apply (statsMatch_send st).
      * apply (statsMatch_send (Gateway.send (Gateway.setAutonomous st true)
                                  Gateway.AutonomousStarted));
          [reflexivity | reflexivity | reflexivity |].
        now apply (statsMatch_send st).
    + destruct (Gateway.autonomousProcess st).
      * apply (statsMatch_send (Gateway.send (Gateway.setAutonomous st false)
                                  Gateway.AutonomousStopped));
          [reflexivity | reflexivity | reflexivity |].
        now apply (statsMatch_send st).
      * now apply (statsMatch_send st).
    + now apply (statsMatch_send st).
    + apply (statsMatch_frame st);
        [now rewrite saveSession_stats | now rewrite saveSession_outbox | exact Hs].
    + exact Hs.
  - unfold Gateway.completeTask.
    destruct (Gateway.currentTask st) as [t |]; [| exact Hs].
    destruct (Gateway.task_status t); try exact Hs.
    destruct (Agent.execute _ _ _) as [r a].
    now apply (statsMatch_send st).
  - destruct (Gateway.timers st) as [| n]; [exact Hs |].
    unfold Gateway.processTaskQueue. cbn [Gateway.taskQueue Gateway.setTasks].
    destruct (Gateway.taskQueue st) as [| t rest].
    + now apply (statsMatch_frame st).
    + now apply (statsMatch_send st).
  - destruct (Gateway.autonomousProcess st); [| exact Hs].
    now apply (statsMatch_send st).
Qed.

Lemma run_statsMatch (events : list Gateway.Event) :
  forall st, GatewayTally.statsMatch now0 st ->
             GatewayTally.statsMatch now0 (Gateway.run world st events).
Proof.
  induction events as [| e events IH]; intros st Hs; cbn.
  - exact Hs.
  - apply IH. now apply step_statsMatch.
Qed.

End StatsFacts.

(** X15.  The statistics count the replies.  In every state the gateway
    reaches, [totalActions] is the number of successful click, click-by-text,
    type, hotkey and URL-bar replies and of forwarded autonomous "clicked"
    events; [totalClicks] is the number of those that are clicks and
    [totalTypes] the number of type replies; [uptime] is still the time of
    the start.  So clicks and types together never exceed the actions, a
    request that fails or finds nothing counts nothing, and the actions a
    task executes are not counted. *)
Theorem stats_count_replies (world : Agent.World) (d : Gateway.Disk) (now0 : Z)
    (events : list Gateway.Event) :
  let st := Gateway.run world (Gateway.startup d now0) events in
  Gateway.totalActions (Gateway.stats st)
  = GatewayTally.tally GatewayTally.actionsOf (Gateway.outbox st) /\
  Gateway.totalClicks (Gateway.stats st)
  = GatewayTally.tally GatewayTally.clicksOf (Gateway.outbox st) /\
  Gateway.totalTypes (Gateway.stats st)
  = GatewayTally.tally GatewayTally.typesOf (Gateway.outbox st) /\
  Gateway.uptime (Gateway.stats st) = now0 /\
  0 <= Gateway.totalClicks (Gateway.stats st) /\
  0 <= Gateway.totalTypes (Gateway.stats st) /\
  Gateway.totalClicks (Gateway.stats st) + Gateway.totalTypes (Gateway.stats st)
  <= Gateway.totalActions (Gateway.stats st).
Proof.
  cbv zeta.
  assert (Hstart : GatewayTally.statsMatch now0 (Gateway.startup d now0))
    by (repeat split).
  destruct (run_statsMatch world now0 events _ Hstart) as (Ha & Hc & Ht & Hu).
  rewrite Ha, Hc, Ht, Hu. repeat split.
  - apply tally_nonneg. intros []; cbn;
      repeat match goal with |- context [if ?b then _ else _] => destruct b end; lia.
  - apply tally_nonneg. intros []; cbn; lia.
  - set (both := fun m => GatewayTally.clicksOf m + GatewayTally.typesOf m).
    transitivity (GatewayTally.tally both (Gateway.outbox
                    (Gateway.run world (Gateway.startup d now0) events))).
    + unfold both. rewrite tally_plus. lia.
    + apply tally_le. intros []; unfold both; cbn;
        repeat match goal with |- context [if ?b then _ else _] => destruct b end; lia.
Qed.

(** ** gateway.js: every task is accounted for *)


Section AccountFacts.
Variable world : Agent.World.









End AccountFacts.


(** ** smart-auto.js: which button a scan clicks *)

Section SmartScanFacts.
Variable cfg : SmartAuto.Config.

Lemma addLoops_more (st : SmartAuto.State) (k : Z) :
  SmartRun.addLoops (SmartAuto.countLoopAvoided st) k = SmartRun.addLoops st (1 + k).
Proof.
  unfold SmartRun.addLoops, SmartAuto.countLoopAvoided. cbn. f_equal. lia.
Qed.

Lemma addLoops_none (st : SmartAuto.State) : SmartRun.addLoops st 0 = st.
Proof. destruct st. unfold SmartRun.addLoops. cbn. f_equal. lia. Qed.

Lemma recordClick_addLoops (st : SmartAuto.State) (k now : Z) (button : string) (x y : Z) :
  SmartAuto.recordClick (SmartRun.addLoops st k) now button x y
  = SmartRun.addLoops (SmartAuto.recordClick st now button x y) k.
Proof. reflexivity. Qed.

(** The buttons of a scan that fail a guard are passed over, each loop
    position among them being counted. *)
Lemma scanButtons_skip now lastWords clicked clickedAt (before rest : list string) :
  forall st,
    Forall (fun b => SmartRun.eligible cfg st now lastWords b = false) before ->
    SmartAuto.scanButtons cfg now lastWords clicked clickedAt (before ++ rest) st
    = SmartAuto.scanButtons cfg now lastWords clicked clickedAt rest
        (SmartRun.addLoops st
           (Z.of_nat (length (List.filter (SmartRun.loopSkipped cfg st now lastWords)
                                before)))).
Proof.
  induction before as [| b before IH]; intros st Hall.
  - cbn. now rewrite addLoops_none.
  - inversion Hall as [| ? ? Hb Hrest]; subst.
    cbn [app SmartAuto.scanButtons List.filter].
    unfold SmartRun.eligible in Hb. unfold SmartRun.loopSkipped at 1.
    destruct (SmartAuto.isOnCooldown cfg st now b); [now apply IH |].
    destruct (Agent.find lastWords b Agent.defaultOptions) as [| target more];
      [now apply IH |].
    cbn [negb andb] in Hb |- *. apply negb_false_iff in Hb. rewrite Hb.
    rewrite (IH (SmartAuto.countLoopAvoided st)) by exact Hrest.
    rewrite addLoops_more. cbn [length]. f_equal. f_equal.
    change (SmartRun.loopSkipped cfg (SmartAuto.countLoopAvoided st))
      with (SmartRun.loopSkipped cfg st).
    lia.
Qed.

End SmartScanFacts.

(** X17.  Which button a scan clicks.  A scan whose screen read succeeds
    tries the configured buttons in order and stops at the first that is off
    cooldown, on screen and at no loop position: if the click succeeds that
    button is clicked at the first word that matches it and the click is
    recorded, if the click throws nothing is recorded; when no button passes
    the guards nothing is clicked.  In each case [loopsAvoided] grows by the
    number of buttons passed over for a loop position, and nothing else
    changes. *)
Theorem scan_clicks_first_eligible (cfg : SmartAuto.Config) (st : SmartAuto.State)
    (lastWords : list Agent.Word) (now : Z) (clicked : Agent.Outcome) (clickedAt : Z) :
  let pass := SmartRun.eligible cfg st now lastWords in
  let skipped l :=
    Z.of_nat (length (List.filter (SmartRun.loopSkipped cfg st now lastWords) l)) in
  (forall before button after,
     SmartAuto.buttons cfg = (before ++ button :: after)%list ->
     Forall (fun b => pass b = false) before ->
     pass button = true ->
     exists target more,
       Agent.find lastWords button Agent.defaultOptions = target :: more /\
       SmartAuto.smartScan cfg st (Agent.Done lastWords) now clicked clickedAt
       = match clicked with
         | Agent.Done _ =>
             (SmartAuto.recordClick (SmartRun.addLoops st (skipped before)) clickedAt
                button (Agent.word_x target) (Agent.word_y target),
              SmartAuto.Clicked button (Agent.word_x target) (Agent.word_y target))
         | Agent.Throws e => (SmartRun.addLoops st (skipped before), SmartAuto.Failed e)
         end) /\
  (Forall (fun b => pass b = false) (SmartAuto.buttons cfg) ->
   SmartAuto.smartScan cfg st (Agent.Done lastWords) now clicked clickedAt
   = (SmartRun.addLoops st (skipped (SmartAuto.buttons cfg)), SmartAuto.NoClick)).
Proof.
  cbv zeta. split.
  - intros before button after Hbuttons Hbefore Hpass.
    unfold SmartAuto.smartScan. rewrite Hbuttons.
    rewrite scanButtons_skip by exact Hbefore.
    unfold SmartRun.eligible in Hpass. apply andb_true_iff in Hpass as [Hcool Hloop].
    apply negb_true_iff in Hcool.
    destruct (Agent.find lastWords button Agent.defaultOptions) as [| target more] eqn:Hfind;
      [discriminate Hloop |].
    apply negb_true_iff in Hloop.
    exists target, more. split; [reflexivity |].
    cbn [SmartAuto.scanButtons].
    change (SmartAuto.isOnCooldown cfg (SmartRun.addLoops st ?k))
      with (SmartAuto.isOnCooldown cfg st).
    rewrite Hcool, Hfind.
    change (SmartAuto.isLoopPosition cfg (SmartRun.addLoops st ?k))
      with (SmartAuto.isLoopPosition cfg st).
    rewrite Hloop. reflexivity.
  - intros Hall. unfold SmartAuto.smartScan.
    rewrite <- (app_nil_r (SmartAuto.buttons cfg)) at 1.
    now rewrite scanButtons_skip by exact Hall.
Qed.

(** The witness of X17: "Allow" was clicked three seconds ago and is on
    cooldown, so with "Allow" and "Continue" on screen the scan clicks
    "Continue". *)
Lemma scan_clicks_first_eligible_witness :
  SmartAuto.smartScan SmartAuto.CONFIG SmartAuto.afterAllowClick
    (Agent.Done SmartRun.twoButtons) (SmartAuto.someTime + 3000)
    (Agent.Done []) (SmartAuto.someTime + 3200)
  = (SmartAuto.recordClick (SmartRun.addLoops SmartAuto.afterAllowClick 0)
       (SmartAuto.someTime + 3200) "Continue" 1300 700,
     SmartAuto.Clicked "Continue" 1300 700).
Proof.
  destruct (proj1 (scan_clicks_first_eligible SmartAuto.CONFIG SmartAuto.afterAllowClick
                     SmartRun.twoButtons (SmartAuto.someTime + 3000) (Agent.Done [])
                     (SmartAuto.someTime + 3200))
              ["Allow"] "Continue" ["Keep"; "Yes"; "OK"; "Run"; "Proceed"; "Accept"]
              eq_refl)
    as (target & more & Hfind & Hscan).
  - repeat constructor.
  - reflexivity.
  - vm_compute in Hfind. inversion Hfind; subst target more. exact Hscan.
Defined.

(** ** smart-auto.js: the state and the clicks made *)

Section SmartHistory.
Variable cfg : SmartAuto.Config.

(** A scan leaves the state as it was but for [loopsAvoided], which does
    not fall, and for the [recordClick] of its click. *)
Lemma scanButtons_shape now lastWords clicked clickedAt (todo : list string) :
  forall st st' r,
    SmartAuto.scanButtons cfg now lastWords clicked clickedAt todo st = (st', r) ->
    exists k, 0 <= k /\
      st' = match r with
            | SmartAuto.Clicked button x y =>
                SmartAuto.recordClick (SmartRun.addLoops st k) clickedAt button x y
            | _ => SmartRun.addLoops st k
            end.
Proof.
  induction todo as [| b rest IH]; intros st st' r Hscan;
    cbn [SmartAuto.scanButtons] in Hscan.
  - inversion Hscan; subst. exists 0. now rewrite addLoops_none.
  - destruct (SmartAuto.isOnCooldown cfg st now b); [now apply IH |].
    destruct (Agent.find lastWords b Agent.defaultOptions) as [| target more];
      [now apply IH |].
    destruct (SmartAuto.isLoopPosition cfg st now _ _).
    + apply IH in Hscan as (k & Hk & ->). exists (1 + k). split; [lia |].
      now rewrite addLoops_more.
    + destruct clicked as [ws | e]; inversion Hscan; subst; exists 0;
        now rewrite addLoops_none.
Qed.

Lemma scan_shape (st : SmartAuto.State) (t : SmartRun.Tick) :
  exists k, 0 <= k /\
    fst (SmartRun.scan cfg st t)
    = match snd (SmartRun.scan cfg st t) with
      | SmartAuto.Clicked button x y =>
          SmartAuto.recordClick (SmartRun.addLoops st k) (SmartRun.tick_clickedAt t)
            button x y
      | _ => SmartRun.addLoops st k
      end.
Proof.
  unfold SmartRun.scan, SmartAuto.smartScan.
  destruct (SmartRun.tick_seen t) as [lastWords | e].
  - destruct (SmartAuto.scanButtons cfg _ _ _ _ _ st) as [st' r] eqn:Hscan.
    exact (scanButtons_shape _ _ _ _ _ _ _ _ Hscan).
  - exists 0. now rewrite addLoops_none.
Qed.

Lemma follows_addLoops file (st : SmartAuto.State) (done : list SmartAuto.ClickRecord)
    (k : Z) :
  0 <= k -> SmartRun.follows file st done ->
  SmartRun.follows file (SmartRun.addLoops st k) done.
Proof.
  unfold SmartRun.follows. cbn [SmartRun.addLoops SmartAuto.totalClicks
    SmartAuto.loopsAvoided SmartAuto.learned SmartAuto.lastClickTime
    SmartAuto.recentClicks].
  intros Hk (H1 & H2 & H3). split; [exact H1 |]. split; [lia | exact H3].
Qed.

Lemma follows_recordClick file (st : SmartAuto.State) (done : list SmartAuto.ClickRecord)
    (now : Z) (button : string) (x y : Z) :
  SmartRun.follows file st done ->
  SmartRun.follows file (SmartAuto.recordClick st now button x y)
    (done ++ [ {| SmartAuto.click_x := x; SmartAuto.click_y := y;
                  SmartAuto.click_time := now; SmartAuto.click_button := button |} ]).
Proof.
  unfold SmartRun.follows, SmartRun.replayLearned, SmartRun.replayTimes.
  intros (Htotal & Hloops & Hlearned & Htimes & Hmax & Hmin & dropped & Hdone).
  cbn [SmartAuto.recordClick SmartAuto.totalClicks SmartAuto.loopsAvoided
       SmartAuto.learned SmartAuto.lastClickTime SmartAuto.recentClicks].
  rewrite !fold_left_app. cbn [fold_left SmartAuto.click_button SmartAuto.click_x
    SmartAuto.click_y SmartAuto.click_time].
  rewrite <- Hlearned, <- Htimes, !List.length_app. cbn [length].
  split; [lia |]. split; [exact Hloops |]. split; [reflexivity |].
  split; [reflexivity |].
  set (c := {| SmartAuto.click_x := x; SmartAuto.click_y := y;
               SmartAuto.click_time := now; SmartAuto.click_button := button |}).
  destruct (Z.ltb_spec 20 (Z.of_nat (length (SmartAuto.recentClicks st) + 1))) as [Hfull | Hroom].
  - unfold SmartAuto.lastTen. rewrite List.length_app. cbn [length].
    split; [rewrite length_drop, List.length_app; cbn [length]; lia |].
    split; [rewrite length_drop, List.length_app; cbn [length]; lia |].
    exists (dropped ++ take (length (SmartAuto.recentClicks st) + 1 - 10)
                         (SmartAuto.recentClicks st ++ [c]))%list.
    rewrite <- app_assoc, take_drop, Hdone. now rewrite <- app_assoc.
  - rewrite List.length_app. cbn [length].
    split; [lia |]. split; [lia |].
    exists dropped. rewrite Hdone. now rewrite <- app_assoc.
Qed.

Lemma run_follows file (ticks : list SmartRun.Tick) :
  forall st done,
    SmartRun.follows file st done ->
    SmartRun.follows file (SmartRun.runScans cfg st ticks)
      (done ++ SmartRun.clicksDone cfg st ticks).
Proof.
  induction ticks as [| t ticks IH]; intros st done Hst.
  - cbn. now rewrite app_nil_r.
  - cbn [SmartRun.runScans fold_left SmartRun.clicksDone].
    rewrite app_assoc. apply IH.
    destruct (scan_shape st t) as (k & Hk & Hshape). rewrite Hshape.
    destruct (snd (SmartRun.scan cfg st t)) as [| button x y | e].
    + rewrite app_nil_r. now apply follows_addLoops.
    + apply follows_recordClick. now apply follows_addLoops.
    + rewrite app_nil_r. now apply follows_addLoops.
Qed.

End SmartHistory.

(** X18.  The state is what the clicks made it.  After any number of
    scans from the start, [totalClicks] is the number of clicks made;
    [learned] is the map of the state file with the clicks written over it in
    order, and [lastClickTime] the empty map with their times written in
    order, so each holds for a button the place and time of its latest click;
    [loopsAvoided] is not negative; and [recentClicks] is a final stretch of
    the clicks made, never longer than 20 and holding at least the latest 10
    (all of them while they are fewer). *)
Theorem smart_state_follows_clicks (cfg : SmartAuto.Config)
    (file : option (gmap string SmartAuto.Learned * Z)) (ticks : list SmartRun.Tick) :
  let st := SmartRun.runScans cfg (SmartAuto.initialState file) ticks in
  let done := SmartRun.clicksDone cfg (SmartAuto.initialState file) ticks in
  SmartAuto.totalClicks st = Z.of_nat (length done) /\
  0 <= SmartAuto.loopsAvoided st /\
  SmartAuto.learned st = SmartRun.replayLearned (SmartAuto.loadState file) done /\
  SmartAuto.lastClickTime st = SmartRun.replayTimes ∅ done /\
  (length (SmartAuto.recentClicks st) <= 20)%nat /\
  (Nat.min 10 (length done) <= length (SmartAuto.recentClicks st))%nat /\
  exists dropped, done = (dropped ++ SmartAuto.recentClicks st)%list.
Proof.
  cbv zeta.
  assert (Hstart : SmartRun.follows file (SmartAuto.initialState file) []).
  { unfold SmartRun.follows. cbn. repeat split; try lia. now exists []. }
  exact (run_follows cfg file ticks _ _ Hstart).
Qed.

(** ** gateway.js: the log history *)

Lemma tl_drop {A} (l : list A) : tl l = drop 1 l.
Proof. now destruct l. Qed.

Lemma pushHistory_last {A} (all : list A) (entry : A) :
  GatewayTally.pushHistory (drop (length all - 1000) all) entry
  = drop (length (all ++ [entry]) - 1000) (all ++ [entry])%list.
Proof.
  unfold GatewayTally.pushHistory. cbv zeta.
  rewrite !List.length_app, length_drop. cbn [length].
  destruct (Z.ltb_spec 1000 (Z.of_nat (length all - (length all - 1000) + 1))) as [Hfull | Hroom].
  - rewrite tl_drop, <- drop_app_le by lia. rewrite drop_drop. f_equal. lia.
  - replace (length all - 1000)%nat with 0%nat by lia.
    replace (length all + 1 - 1000)%nat with 0%nat by lia. reflexivity.
Qed.

(** X19.  The log history holds the latest thousand entries.  After any
    number of calls of [log] from the empty history, [state.history] is the
    list of all entries logged without its first entries beyond a thousand:
    it never holds more than 1000 entries, holds all of them while they are
    no more than that, and always ends with the entry logged last. *)
Theorem history_keeps_latest {A : Type} (entries : list A) :
  let history := fold_left GatewayTally.pushHistory entries [] in
  history = drop (length entries - 1000) entries /\
  (length history <= 1000)%nat /\
  ((length entries <= 1000)%nat -> history = entries) /\
  last history = last entries.
Proof.
  cbv zeta.
  assert (Hall : fold_left GatewayTally.pushHistory entries []
                 = drop (length entries - 1000) entries).
  { induction entries as [| e entries IH] using rev_ind; [reflexivity |].
    rewrite fold_left_app. cbn [fold_left]. rewrite IH. apply pushHistory_last. }
  rewrite Hall. split; [reflexivity |]. split; [rewrite length_drop; lia |].
  split.
  - intros Hfew. replace (length entries - 1000)%nat with 0%nat by lia. reflexivity.
  - destruct entries as [| e entries] using rev_ind; [reflexivity |].
    rewrite List.length_app. cbn [length].
    rewrite drop_app_le by lia. now rewrite !last_snoc.
Qed.

(** The witness of X19: three entries are all kept. *)
Lemma history_keeps_latest_witness :
  fold_left GatewayTally.pushHistory ["started"; "client connected"; "see"] []
  = ["started"; "client connected"; "see"].
Proof.
  apply (proj1 (proj2 (proj2 (history_keeps_latest
                                ["started"; "client connected"; "see"])))).
  cbn. lia.
Defined.

(** ** agent.js: where [see] places the words *)

Lemma StronglySorted_app {A} (R : A -> A -> Prop) (l1 l2 : list A) :
  StronglySorted R l1 -> StronglySorted R l2 ->
  (forall a b, In a l1 -> In b l2 -> R a b) ->
  StronglySorted R (l1 ++ l2).
Proof.
  intros H1 H2 H12. induction H1 as [| a l1 Hl1 IH Ha]; [exact H2 |].
  cbn [app]. constructor.
  - apply IH. intros x y Hx Hy. apply H12; [now right | exact Hy].
  - apply List.Forall_app. split; [exact Ha |].
    apply List.Forall_forall. intros y Hy. apply H12; [now left | exact Hy].
Qed.

Lemma StronglySorted_filter_keep {A} (R : A -> A -> Prop) (f : A -> bool) (l : list A) :
  StronglySorted R l -> StronglySorted R (List.filter f l).
Proof.
  induction 1 as [| a l Hl IH Ha]; cbn; [constructor |].
  destruct (f a); [| exact IH].
  constructor; [exact IH | now apply Forall_filter_keep].
Qed.

Lemma forallb_snoc (f : ascii -> bool) (acc : string) (c : ascii) :
  forallb f (list_ascii_of_string acc) = true -> f c = true ->
  forallb f (list_ascii_of_string (acc ++ String c EmptyString)) = true.
Proof.
  intros Hacc Hc. induction acc as [| a acc IH];
    cbv [String.append]; fold String.append; cbn [list_ascii_of_string forallb] in *.
  - now rewrite Hc.
  - apply andb_true_iff in Hacc as [Ha Hrest]. now rewrite Ha, IH.
Qed.

Lemma splitOn_pieces (sep : ascii -> bool) (s : string) :
  forall acc,
    forallb (fun c => negb (sep c)) (list_ascii_of_string acc) = true ->
    Forall (fun piece => forallb (fun c => negb (sep c)) (list_ascii_of_string piece) = true)
      (AgentSee.splitOn sep acc s).
Proof.
  induction s as [| c s IH]; intros acc Hacc; cbn [AgentSee.splitOn].
  - now repeat constructor.
  - destruct (sep c) eqn:Hc.
    + constructor; [exact Hacc |]. now apply IH.
    + apply IH. apply forallb_snoc; [exact Hacc | now rewrite Hc].
Qed.

Lemma wordsOfLine_words (line : string) :
  Forall (fun w => AgentSee.nonEmpty w = true /\ AgentSee.noSpace w = true)
    (AgentSee.wordsOfLine line).
Proof.
  unfold AgentSee.wordsOfLine. apply List.Forall_forall. intros w Hw.
  apply filter_In in Hw as [Hin Hne]. split; [exact Hne |].
  pose proof (splitOn_pieces AgentSee.isSpace line EmptyString eq_refl) as Hall.
  rewrite List.Forall_forall in Hall. now apply Hall.
Qed.

Lemma nonEmpty_length (w : string) :
  AgentSee.nonEmpty w = true -> 1 <= Z.of_nat (String.length w).
Proof. destruct w; [discriminate |]. cbn [String.length]. lia. Qed.

Lemma half_width (len : Z) : len * 8 / 2 = 4 * len.
Proof. replace (len * 8) with (4 * len * 2) by lia. apply Z.div_mul. lia. Qed.

Lemma placeWords_In (lineIdx : Z) (words : list string) :
  forall x w,
    Forall (fun w => AgentSee.nonEmpty w = true /\ AgentSee.noSpace w = true) words ->
    In w (AgentSee.placeWords lineIdx x words) ->
    Agent.word_lineIdx w = lineIdx /\
    Agent.word_y w = 50 + 30 * lineIdx /\
    x + 4 <= Agent.word_x w /\
    In (Agent.word_text w) words.
Proof.
  induction words as [| word rest IH]; intros x w Hall Hin; [destruct Hin |].
  inversion Hall as [| ? ? [Hne _] Hrest]; subst.
  pose proof (nonEmpty_length word Hne) as Hlen.
  cbn [AgentSee.placeWords] in Hin. cbv zeta in Hin. destruct Hin as [<- | Hin].
  - cbn [Agent.word_lineIdx Agent.word_y Agent.word_x Agent.word_text].
    repeat split; [lia | | now left].
    rewrite half_width. lia.
  - destruct (IH _ _ Hrest Hin) as (Hl & Hy & Hx & Ht).
    repeat split; [exact Hl | exact Hy | lia | now right].
Qed.

Lemma placeWords_sorted (lineIdx : Z) (words : list string) :
  forall x,
    Forall (fun w => AgentSee.nonEmpty w = true /\ AgentSee.noSpace w = true) words ->
    StronglySorted AgentSee.readsBefore (AgentSee.placeWords lineIdx x words).
Proof.
  induction words as [| word rest IH]; intros x Hall; [constructor |].
  inversion Hall as [| ? ? [Hne _] Hrest]; subst.
  pose proof (nonEmpty_length word Hne) as Hlen.
  cbn [AgentSee.placeWords]. cbv zeta. constructor; [now apply IH |].
  apply List.Forall_forall. intros w Hw.
  destruct (placeWords_In _ _ _ _ Hrest Hw) as (Hl & _ & Hx & _).
  right. cbn [Agent.word_lineIdx Agent.word_x]. split; [now rewrite Hl |].
  rewrite half_width. lia.
Qed.

Lemma placeLines_In (lines : list string) :
  forall lineIdx w,
    In w (AgentSee.placeLines lineIdx lines) ->
    lineIdx <= Agent.word_lineIdx w < lineIdx + Z.of_nat (length lines) /\
    Agent.word_y w = 50 + 30 * Agent.word_lineIdx w /\
    54 <= Agent.word_x w /\
    AgentSee.nonEmpty (Agent.word_text w) = true /\
    AgentSee.noSpace (Agent.word_text w) = true.
Proof.
  induction lines as [| line rest IH]; intros lineIdx w Hin; [destruct Hin |].
  cbn [AgentSee.placeLines] in Hin. apply in_app_or in Hin as [Hin | Hin].
  - destruct (placeWords_In _ _ _ _ (wordsOfLine_words line) Hin) as (Hl & Hy & Hx & Ht).
    pose proof (wordsOfLine_words line) as Hall. rewrite List.Forall_forall in Hall.
    destruct (Hall _ Ht) as [Hne Hns].
    cbn [length]. repeat split; try assumption; lia.
  - destruct (IH _ _ Hin) as (Hl & Hrest). cbn [length]. split; [lia | exact Hrest].
Qed.

Lemma placeLines_sorted (lines : list string) :
  forall lineIdx, StronglySorted AgentSee.readsBefore (AgentSee.placeLines lineIdx lines).
Proof.
  induction lines as [| line rest IH]; intros lineIdx; [constructor |].
  cbn [AgentSee.placeLines]. apply StronglySorted_app.
  - apply placeWords_sorted, wordsOfLine_words.
  - apply IH.
  - intros a b Ha Hb.
    destruct (placeWords_In _ _ _ _ (wordsOfLine_words line) Ha) as (Hl & _).
    destruct (placeLines_In _ _ _ Hb) as (Hl' & _).
    left. lia.
Qed.

(** X20.  Where [see] places the words.  The words built from the text
    read are in reading order: each word comes before every later one, on a
    line above it or on its line and at least 18 pixels to its left.  Every
    word is a non-empty piece of text without white space, its [y] is 50 plus
    30 times its line, its line is one of the lines of the text, and its [x]
    is at least 54. *)
Theorem layout_reading_order (text : string) :
  StronglySorted AgentSee.readsBefore (AgentSee.layout text) /\
  forall w, In w (AgentSee.layout text) ->
    0 <= Agent.word_lineIdx w
      < Z.of_nat (length (AgentSee.splitOn AgentSee.isNewline EmptyString text)) /\
    Agent.word_y w = 50 + 30 * Agent.word_lineIdx w /\
    54 <= Agent.word_x w /\
    AgentSee.nonEmpty (Agent.word_text w) = true /\
    AgentSee.noSpace (Agent.word_text w) = true.
Proof.
  split; [apply placeLines_sorted |].
  intros w Hw. exact (placeLines_In _ _ _ Hw).
Qed.

(** X21.  What [clickOn] clicks on a screen just read.  With the words
    of a screen read from [text] and no [near] option, [find] returns the
    matches in reading order, and [clickOn] clicks the first of them, the
    topmost and on its line the leftmost, at its estimated place; the click
    is the one request it makes, and with no match it makes none and
    answers false. *)
Theorem clickOn_first_in_reading_order (world : Agent.World) (text search : string)
    (exact : bool) (s : Agent.State) :
  let options := {| Agent.opt_exact := exact; Agent.opt_near := None |} in
  Agent.lastWords s = AgentSee.layout text ->
  StronglySorted AgentSee.readsBefore (Agent.find (Agent.lastWords s) search options) /\
  match Agent.find (Agent.lastWords s) search options with
  | target :: more =>
      Forall (AgentSee.readsBefore target) more /\
      Agent.requests (snd (Agent.clickOn world search options s))
      = (Agent.requests s
         ++ [Agent.PClick (Agent.word_x target) (Agent.word_y target)])%list /\
      (forall ws, world (length (Agent.requests s)) = Agent.Done ws ->
                  fst (Agent.clickOn world search options s) = Agent.Return true)
  | [] => Agent.clickOn world search options s = (Agent.Return false, s)
  end.
Proof.
  cbv zeta. intros Hwords.
  assert (Hsorted : StronglySorted AgentSee.readsBefore
            (Agent.find (Agent.lastWords s) search
               {| Agent.opt_exact := exact; Agent.opt_near := None |})).
  { unfold Agent.find. cbn [Agent.opt_near Agent.opt_exact].
    apply StronglySorted_filter_keep. rewrite Hwords. apply placeLines_sorted. }
  split; [exact Hsorted |].
  unfold Agent.clickOn.
  destruct (Agent.find (Agent.lastWords s) search _) as [| target more]; [reflexivity |].
  split; [now inversion Hsorted |].
  unfold Agent.click, Agent.bind, Agent.request, Agent.ret.
  split.
  - now destruct (world (length (Agent.requests s))).
  - intros ws Hdone. now rewrite Hdone.
Qed.

(** The witness of X21: the screen reads two lines with "Continue" on
    both; the click goes to the one on the first line. *)
Lemma clickOn_first_in_reading_order_witness :
  let s := snd (Agent.see (AgentSee.shows AgentSee.twoLines) Agent.fresh) in
  Agent.requests (snd (Agent.clickOn (AgentSee.shows AgentSee.twoLines) "continue" Agent.defaultOptions s))
  = [Agent.PSee; Agent.PClick 132 50].
Proof.
  cbv zeta.
  pose proof (clickOn_first_in_reading_order
                (AgentSee.shows AgentSee.twoLines) AgentSee.twoLines "continue" false
                (snd (Agent.see (AgentSee.shows AgentSee.twoLines) Agent.fresh)) eq_refl) as H.
  cbv zeta in H. destruct H as [_ H].
  destruct (Agent.find _ _ _) as [| target more] eqn:Hfind in H;
    [vm_compute in Hfind; discriminate Hfind |].
  destruct H as (_ & Hreq & _).
  vm_compute in Hfind. inversion Hfind; subst target more. exact Hreq.
Defined.

(** ** ghost.js: the counter behind the rate limit *)

(** X22.  What the rate counter does.  (1) With the counter of committed actions at or
    above [maxActionsPerMinute], [decide] answers every scan with the wait
    "Rate limited" and leaves the state as it is.  (2) Over any run of the
    loop the counter never exceeds its start value plus the number of clicks
    committed, and falls short of it by at most the number of rate timers
    fired; with no timer fired it is exactly that number.  (3) Once a timer has fired at the
    ceiling, the counter is below it and a candidate is confirmed and
    clicked as usual. *)
Theorem rate_limit_gate :
  (forall cfg st scan,
     Ghost.maxActionsPerMinute cfg <= Ghost.actionsThisMinute st ->
     Ghost.decide cfg st scan = (st, Ghost.Wait "Rate limited"))
  /\
  (forall cfg l events,
     0 <= Ghost.actionsThisMinute (Ghost.loop_state l) ->
     let counter :=
       Ghost.actionsThisMinute (Ghost.loop_state (fst (Ghost.run cfg l events))) in
     Ghost.actionsThisMinute (Ghost.loop_state l) + Ghost.committed cfg l events
       - Ghost.timerEvents events <= counter
     /\ counter <= Ghost.actionsThisMinute (Ghost.loop_state l)
                   + Ghost.committed cfg l events)
  /\
  (forall st scan best,
     Ghost.actionsThisMinute st = Ghost.maxActionsPerMinute Ghost.CONFIG ->
     Ghost.candidate Ghost.CONFIG st scan = inr best ->
     Ghost.sightings st (Ghost.buttonKey best) = 0 ->
     Ghost.actionsThisMinute (Ghost.rateTimer st) = 9 /\
     snd (Ghost.decideAll Ghost.CONFIG (Ghost.rateTimer st) [scan; scan]) =
       [Ghost.Wait "Confirming button is real";
        Ghost.Click (Ghost.btn_x best) (Ghost.btn_y best)
          ("Confirmed: " ++ String Ghost.dquote
             (Ghost.btn_match best ++ String Ghost.dquote EmptyString))]).
Proof.
  split; [| split].
  - intros cfg st scan. apply decide_rate_limited.
  - intros cfg l events Hpos. now apply run_counter_bounds.
  - intros st scan best Hfull Hcand Hfresh.
    assert (Hnine : Ghost.actionsThisMinute (Ghost.rateTimer st) = 9).
    { cbn. rewrite Hfull. reflexivity. }
    split; [exact Hnine |].
    apply second_sighting_clicks.
    + reflexivity.
    + rewrite <- Hcand. apply candidate_sameSelection. split; reflexivity.
    + rewrite Hnine. cbn. lia.
    + exact Hfresh.
Qed.

(** The witness of X22: with the counter at 10 the stable candidate is
    answered "Rate limited" and the state stays as it is; four cycles on the
    stable candidate commit two clicks and count two; after one timer at
    the ceiling the candidate is waited on, then clicked. *)
Lemma rate_limit_gate_witness :
  Ghost.decide Ghost.CONFIG Ghost.atCeiling Ghost.continueFrame =
    (Ghost.atCeiling, Ghost.Wait "Rate limited") /\
  Ghost.committed Ghost.CONFIG (Ghost.start 0) Ghost.fourCycles = 2 /\
  Ghost.actionsThisMinute
    (Ghost.loop_state (fst (Ghost.run Ghost.CONFIG (Ghost.start 0) Ghost.fourCycles))) = 2 /\
  snd (Ghost.decideAll Ghost.CONFIG (Ghost.rateTimer Ghost.atCeiling)
         [Ghost.continueFrame; Ghost.continueFrame]) =
    [Ghost.Wait "Confirming button is real";
     Ghost.Click 1300 700
       ("Confirmed: " ++ String Ghost.dquote ("Continue" ++ String Ghost.dquote EmptyString))].
Proof.
  destruct rate_limit_gate as (limited & counted & rolled).
  split; [apply limited; vm_compute; discriminate |].
  assert (Htwo : Ghost.committed Ghost.CONFIG (Ghost.start 0) Ghost.fourCycles = 2)
    by (vm_compute; reflexivity).
  split; [exact Htwo |]. split.
  - pose proof (counted Ghost.CONFIG (Ghost.start 0) Ghost.fourCycles
                  ltac:(vm_compute; discriminate)) as Hbounds.
    cbv zeta in Hbounds. rewrite Htwo in Hbounds.
    change (Ghost.timerEvents Ghost.fourCycles) with 0 in Hbounds.
    change (Ghost.actionsThisMinute (Ghost.loop_state (Ghost.start 0))) with 0 in Hbounds.
    lia.
  - apply (rolled Ghost.atCeiling Ghost.continueFrame
             {| Ghost.btn_text := "Continue"; Ghost.btn_match := "Continue";
                Ghost.btn_x := 1300; Ghost.btn_y := 700; Ghost.btn_confidence := 95 |}).
    + reflexivity.
    + vm_compute; reflexivity.
    + vm_compute; reflexivity.
Defined.
